(** * mods: a shallow embedding of the conversation store, the message
    helpers, the tool-call fabric and the retry policy of the coordinator.

    The packages [proto], [stream], [cache] and the provider adapters are
    Rocq modules with the package's name, package [main] is the top level;
    functions keep their Go names, a method [(r *T) m] is [T_m].  Go [string]
    and [[]byte] values are byte sequences and are modelled by [string]
    (a list of 8-bit characters); Go [int] and [int64] are [Z] with the
    64-bit wrap-around written out where the code can reach it; a Go
    [error] is a value of the inductive type [error], [nil] being [None]. *)

From Stdlib Require Import ZArith Lia Bool List Ascii String.
From Stdlib Require Import Floats.PrimFloat.
From stdpp Require Import base option strings list gmap sorting pretty.

Local Open Scope Z_scope.
Local Open Scope string_scope.

(** ** Go runtime values shared by all packages *)

(** [error]: the sentinel values of the repository and of the Go library are
    constructors, so that [errors.Is] (identity of the sentinel) is equality
    of constructors; [wrapError pre e post] is
    [fmt.Errorf(pre + "%w" + post, e)]. *)
Inductive error : Type :=
| errorString (s : string)
| errInvalidID
| errNoMatches
| errManyMatches
| ErrNotExist
| ErrPermission
| ErrBadPattern
| wrapError (pre : string) (e : error) (post : string).

Fixpoint error_Error (e : error) : string :=
  match e with
  | errorString s => s
  | errInvalidID => "无效的标识符"
  | errNoMatches => "未找到对话"
  | errManyMatches => "多个对话匹配输入"
  | ErrNotExist => "file does not exist"
  | ErrPermission => "permission denied"
  | ErrBadPattern => "syntax error in pattern"
  | wrapError pre e post => pre +:+ error_Error e +:+ post
  end.

#[global] Instance error_eq_dec : EqDecision error.
Proof. solve_decision. Defined.

(** [errors.Is err target]: walks the chain of wrapped errors. *)
Fixpoint errors_Is (err target : error) : bool :=
  if decide (err = target) then true
  else match err with
       | wrapError _ e _ => errors_Is e target
       | _ => false
       end.

(** [len(s)] of a Go string: the number of bytes. *)
Definition len (s : string) : Z := Z.of_nat (String.length s).

(** 64-bit two's complement wrap-around of Go's [int] and [int64]. *)
Definition max_int64 : Z := 9223372036854775807.
Definition min_int64 : Z := -9223372036854775808.
Definition wrap_int64 (z : Z) : Z := (z + 2 ^ 63) mod 2 ^ 64 - 2 ^ 63.

(** The line feed, which a Go string literal writes [\n]. *)
Definition LF : string := String "010" "".

(** [strings.SplitSeq(s, sep)] for a one-byte separator: the substrings the
    iterator yields, in order. *)
Fixpoint strings_SplitSeq (s : string) (sep : ascii) : list string :=
  match s with
  | "" => [""]
  | String c s' =>
      if Ascii.eqb c sep then "" :: strings_SplitSeq s' sep
      else match strings_SplitSeq s' sep with
           | part :: parts => String c part :: parts
           | [] => [String c ""]
           end
  end.

(** ** package proto *)
Module proto.

Definition RoleSystem : string := "system".
Definition RoleUser : string := "user".
Definition RoleAssistant : string := "assistant".
Definition RoleTool : string := "tool".

Record Function : Type := mkFunction { Name : string; Arguments : string }.

Record ToolCall : Type := mkToolCall {
  ID : string;
  Function_ : Function;
  IsError : bool
}.

Record Message : Type := mkMessage {
  Role : string;
  Content : string;
  ToolCalls : list ToolCall
}.

Record ToolCallStatus : Type := mkToolCallStatus {
  status_Name : string;
  Err : option error
}.

#[global] Instance Function_eq_dec : EqDecision Function.
Proof. solve_decision. Defined.
#[global] Instance ToolCall_eq_dec : EqDecision ToolCall.
Proof. solve_decision. Defined.
#[global] Instance Message_eq_dec : EqDecision Message.
Proof. solve_decision. Defined.

(** [Request], without the tool table and the [ToolCaller] closure, which
    no sampling control depends on. *)
Record Request : Type := mkRequest {
  Messages : list Message;
  API : string;
  Model : string;
  User : string;
  Temperature : option float;
  TopP : option float;
  TopK : option Z;
  Stop : list string;
  MaxTokens : option Z
}.

(** *** The text of a conversation *)

(** [ToolCallStatus.String]: the writes to the [strings.Builder]. *)
Definition ToolCallStatus_String (c : ToolCallStatus) : string :=
  let sb := LF +:+ "> 运行工具: `" +:+ status_Name c +:+ "`" +:+ LF in
  let sb :=
    match Err c with
    | Some e =>
        let sb := sb +:+ (">" +:+ LF +:+ "> *失败*:" +:+ LF +:+ "> ```" +:+ LF) in
        let sb := fold_left (λ sb line, sb +:+ ("> " +:+ line))
                    (strings_SplitSeq (error_Error e) "010") sb in
        sb +:+ (LF +:+ "> ```" +:+ LF)
    | None => sb
    end in
  sb +:+ LF.

(** [Conversation.String]: a message with an empty content is skipped; a
    tool message writes the status of each of its calls and not its
    content. *)
Definition Conversation_String (cc : list Message) : string :=
  fold_left
    (λ sb msg,
       if String.eqb (Content msg) "" then sb
       else if String.eqb (Role msg) RoleTool then
         fold_left
           (λ sb tool,
              sb +:+ ToolCallStatus_String
                       (mkToolCallStatus (Name (Function_ tool))
                          (if IsError tool
                           then Some (errorString (Content msg)) else None)))
           (ToolCalls msg) sb
       else
         let sb :=
           if String.eqb (Role msg) RoleSystem then sb +:+ "**系统**: "
           else if String.eqb (Role msg) RoleUser then sb +:+ "**用户**: "
           else if String.eqb (Role msg) RoleAssistant then sb +:+ "**助手**: "
           else sb in
         (sb +:+ Content msg) +:+ (LF +:+ LF))
    cc "".

End proto.

(** ** package main: messages.go *)

(** [lastPrompt]: the [for _, msg := range messages] loop with its two
    [continue] guards, the accumulator being the local [result]. *)
Definition lastPrompt_step (result : string) (msg : proto.Message) : string :=
  if negb (String.eqb (proto.Role msg) proto.RoleUser) then result
  else if String.eqb (proto.Content msg) "" then result
  else proto.Content msg.

Definition lastPrompt (messages : list proto.Message) : string :=
  fold_left lastPrompt_step messages "".

(** The property as the specification words it: the content of the last
    user-role message with non-empty content, or the empty string. *)
Definition is_user_prompt (msg : proto.Message) : bool :=
  String.eqb (proto.Role msg) proto.RoleUser && negb (String.eqb (proto.Content msg) "").

Definition spec_lastPrompt (messages : list proto.Message) : string :=
  match last (filter (λ m, is_user_prompt m = true) messages) with
  | Some m => proto.Content m
  | None => ""
  end.

(** ** package stream *)
Module stream.

(** [CallTool]: [caller] returns the pair [(content, err)]. *)
Definition CallTool (id name data : string)
    (caller : string → string → string * option error)
    : proto.Message * proto.ToolCallStatus :=
  let '(content, err) := caller name data in
  let content :=
    match err with
    | Some e => if String.eqb content "" then error_Error e else content
    | None => content
    end in
  (proto.mkMessage proto.RoleTool content
     [proto.mkToolCall id (proto.mkFunction name data) (bool_decide (err ≠ None))],
   proto.mkToolCallStatus name err).

End stream.

(** ** package main: config.go *)

(** The fields of [Model], [Config] and [Mods] that the embedded functions
    read or write; [float64] is the kernel's binary64 [float]. *)
Record Model : Type := mkModel {
  Model_Name : string;
  Model_API : string;
  MaxChars : Z;
  Fallback : string
}.

(** [MCPServerConfig]. *)
Record MCPServerConfig : Type := mkMCPServerConfig {
  server_Type : string;
  server_Command : string;
  server_Env : list string;
  server_Args : list string;
  server_URL : string
}.

Record Config : Type := mkConfig {
  API : string;
  Model_ : string;
  User : string;
  MaxTokens : Z;
  Temperature : float;
  Stop : list string;
  TopP : float;
  TopK : Z;
  NoLimit : bool;
  MaxRetries : Z;
  MCPServers : gmap string MCPServerConfig;
  MCPDisable : list string;
  Prefix : string;
  Show_ : string;
  ShowLast : bool;
  Dirs : bool;
  Delete_ : list string;
  DeleteOlderThan : Z;
  ShowHelp : bool;
  List_ : bool;
  ListRoles : bool;
  Settings : bool;
  ResetSettings : bool
}.

Definition Config_set_Model (cfg : Config) (model : string) : Config :=
  {| API := API cfg; Model_ := model; User := User cfg;
     MaxTokens := MaxTokens cfg; Temperature := Temperature cfg;
     Stop := Stop cfg; TopP := TopP cfg; TopK := TopK cfg;
     NoLimit := NoLimit cfg; MaxRetries := MaxRetries cfg;
     MCPServers := MCPServers cfg; MCPDisable := MCPDisable cfg;
     Prefix := Prefix cfg; Show_ := Show_ cfg; ShowLast := ShowLast cfg;
     Dirs := Dirs cfg; Delete_ := Delete_ cfg;
     DeleteOlderThan := DeleteOlderThan cfg; ShowHelp := ShowHelp cfg;
     List_ := List_ cfg; ListRoles := ListRoles cfg; Settings := Settings cfg;
     ResetSettings := ResetSettings cfg |}.

(** [modsError{err, reason}]; the wrapped [*openai.Error] keeps its
    [StatusCode], [Code] and [Message]. *)
Record openai_Error : Type := mkOpenaiError {
  StatusCode : Z;
  Code : string;
  Message : string
}.

Record modsError : Type := mkModsError {
  err : openai_Error;
  reason : string
}.

(** ** package main: mods.go *)

(** The constraint [number interface{ int64 | float64 }] of [ptrOrNil]. *)
Class number (T : Type) : Type := {
  number_zero : T;
  number_lt : T → T → bool
}.

#[global] Instance number_int64 : number Z :=
  {| number_zero := 0; number_lt := Z.ltb |}.
#[global] Instance number_float64 : number float :=
  {| number_zero := 0%float; number_lt := PrimFloat.ltb |}.

(** [ptrOrNil]: [nil] is [None], [&t] is a pointer to a cell holding [t]. *)
Definition ptrOrNil {T : Type} `{number T} (t : T) : option T :=
  if number_lt t number_zero then None else Some t.

(** The [request := proto.Request{...}] literal of [startCompletionCmd] and
    the [if cfg.MaxTokens > 0] assignment that follows it. *)
Definition startCompletionCmd_request (cfg : Config) (mdl : Model)
    (messages : list proto.Message) : proto.Request :=
  proto.mkRequest messages (Model_API mdl) (Model_Name mdl) (User cfg)
    (ptrOrNil (Temperature cfg)) (ptrOrNil (TopP cfg)) (ptrOrNil (TopK cfg))
    (Stop cfg)
    (if MaxTokens cfg >? 0 then Some (MaxTokens cfg) else None).

(** *** The sampling controls in the five adapters' [Request] methods *)

(** [strings.Contains]. *)
Fixpoint strings_Contains_from (fuel : nat) (s sub : string) : bool :=
  if String.prefix sub s then true
  else match fuel, s with
       | S fuel', String _ s' => strings_Contains_from fuel' s' sub
       | _, _ => false
       end.
Definition strings_Contains (s sub : string) : bool :=
  strings_Contains_from (String.length s) s sub.

(** What each adapter puts in the request body for Temperature, TopP and
    TopK: [None] is a body field left unset. *)
Record sampling_body : Type := mkSampling {
  body_Temperature : option float;
  body_TopP : option float;
  body_TopK : option Z
}.

Module openai.
Definition Request_sampling (request : proto.Request) : sampling_body :=
  if negb (String.eqb (proto.API request) "perplexity")
     || negb (strings_Contains (proto.Model request) "online")
  then mkSampling (proto.Temperature request) (proto.TopP request) None
  else mkSampling None None None.
End openai.

Module anthropic.
Definition Request_sampling (request : proto.Request) : sampling_body :=
  mkSampling (proto.Temperature request) (proto.TopP request) None.
End anthropic.

Module ollama.
(** [body.Options["temperature"]] and [body.Options["top_p"]]. *)
Definition Request_sampling (request : proto.Request) : sampling_body :=
  mkSampling (proto.Temperature request) (proto.TopP request) None.
End ollama.

Module cohere.
(** [Temperature: request.Temperature, P: request.TopP]: the pointers
    themselves are stored. *)
Definition Request_sampling (request : proto.Request) : sampling_body :=
  mkSampling (proto.Temperature request) (proto.TopP request) None.

(** *** format.go *)

(** [cohere.ChatMessage] and [cohere.Message] of the client library: the
    fields the adapter reads or sets; a [*ChatMessage] that was never set
    is the nil pointer [None]. *)
Record ChatMessage : Type := mkChatMessage { ChatMessage_Message : string }.

Record Message : Type := mkMessage {
  Role : string;
  Chatbot : option ChatMessage;
  System : option ChatMessage;
  User : option ChatMessage
}.

Definition fromProtoRole (role : string) : string :=
  if String.eqb role proto.RoleSystem then "SYSTEM"
  else if String.eqb role proto.RoleAssistant then "CHATBOT"
  else "USER".

(** [fromProtoMessages]: [None] is a run-time panic, of the index
    expression [messages[len(messages)-1]] on an empty slice or of the
    selector [.User.Message] on a nil [User]. *)
Definition fromProtoMessages (input : list proto.Message)
    : option (list Message * string) :=
  let messages :=
    fold_left
      (λ messages msg,
         messages ++ [mkMessage (fromProtoRole (proto.Role msg))
                        (Some (mkChatMessage (proto.Content msg))) None None])%list
      input [] in
  let history :=
    if (Z.of_nat (length messages) >? 1)%Z
    then take (length messages - 1) messages else [] in
  m ← last messages;
  user ← User m;
  Some (history, ChatMessage_Message user).
End cohere.

Module google.
(** [GenerationConfig] holds plain numbers tagged [omitempty]: a field
    that is never assigned keeps the zero value and is left out of the
    JSON body, which [json_omitempty] expresses. *)
Record GenerationConfig : Type := mkGenerationConfig {
  Temperature : float;
  TopP : float;
  TopK : Z
}.
Definition Request_GenerationConfig (request : proto.Request) : GenerationConfig :=
  mkGenerationConfig
    (default 0%float (proto.Temperature request))
    (default 0%float (proto.TopP request))
    (default 0 (proto.TopK request)).
Definition json_omitempty_float (f : float) : option float :=
  if PrimFloat.eqb f 0%float then None else Some f.
Definition json_omitempty_int (z : Z) : option Z :=
  if (z =? 0)%Z then None else Some z.
Definition Request_sampling (request : proto.Request) : sampling_body :=
  let g := Request_GenerationConfig request in
  mkSampling (json_omitempty_float (Temperature g))
             (json_omitempty_float (TopP g))
             (json_omitempty_int (TopK g)).

(** *** format.go *)

(** [Part] and [Content] of the request body. *)
Record Part : Type := mkPart { Text : string }.
Record Content : Type := mkContent { Parts : list Part; Role : string }.

(** [fromProtoMessages]: the [switch] has one case, for the roles system
    and user; a message of another role appends nothing. *)
Definition fromProtoMessages (input : list proto.Message) : list Content :=
  fold_left
    (λ result in_,
       if String.eqb (proto.Role in_) proto.RoleSystem
          || String.eqb (proto.Role in_) proto.RoleUser
       then (result ++ [mkContent [mkPart (proto.Content in_)] proto.RoleUser])%list
       else result)
    input [].
End google.

(** *** cutPrompt *)

Definition byte_val (c : ascii) : Z := Z.of_N (N_of_ascii c).

Definition is_digit (c : ascii) : bool :=
  (48 <=? byte_val c)%Z && (byte_val c <=? 57)%Z.

(** The longest prefix of decimal digits ([\d+] is greedy) and the rest. *)
Fixpoint span_digits (s : string) : string * string :=
  match s with
  | String c s' =>
      if is_digit c then let '(d, r) := span_digits s' in (String c d, r)
      else ("", s)
  | "" => ("", "")
  end.

(** A literal piece of a pattern: the rest of [s] after [lit], if [s]
    starts with it. *)
Fixpoint match_literal (lit s : string) : option string :=
  match lit, s with
  | "", _ => Some s
  | String a lit', String b s' =>
      if Ascii.eqb a b then match_literal lit' s' else None
  | String _ _, "" => None
  end.

(** Width in bytes of the first rune of [s] as [utf8.DecodeRuneInString]
    computes it: an ill-formed or truncated sequence is one byte wide. *)
Definition byte_in (lo hi : Z) (s : string) (i : nat) : bool :=
  match String.get i s with
  | Some c => (lo <=? byte_val c)%Z && (byte_val c <=? hi)%Z
  | None => false
  end.

Definition rune_width (s : string) : nat :=
  match s with
  | "" => 0%nat
  | String c _ =>
      let b := byte_val c in
      let cont := byte_in 128 191 s in
      if (b <? 128)%Z then 1%nat
      else if (194 <=? b)%Z && (b <=? 223)%Z then
        if cont 1%nat then 2%nat else 1%nat
      else if (b =? 224)%Z then
        if byte_in 160 191 s 1 && cont 2%nat then 3%nat else 1%nat
      else if (b =? 237)%Z then
        if byte_in 128 159 s 1 && cont 2%nat then 3%nat else 1%nat
      else if (225 <=? b)%Z && (b <=? 239)%Z then
        if cont 1%nat && cont 2%nat then 3%nat else 1%nat
      else if (b =? 240)%Z then
        if byte_in 144 191 s 1 && cont 2%nat && cont 3%nat then 4%nat else 1%nat
      else if (241 <=? b)%Z && (b <=? 243)%Z then
        if cont 1%nat && cont 2%nat && cont 3%nat then 4%nat else 1%nat
      else if (b =? 244)%Z then
        if byte_in 128 143 s 1 && cont 2%nat && cont 3%nat then 4%nat else 1%nat
      else 1%nat
  end.

(** The pattern [.]: one rune other than a line feed. *)
Definition match_any_char (s : string) : option (string * string) :=
  match s with
  | "" => None
  | String c _ =>
      if (byte_val c =? 10)%Z then None
      else let w := rune_width s in
           Some (substring 0 w s, substring w (String.length s - w) s)
  end.

(** [tokenErrRe] anchored at the start of [s]: the whole match and the two
    groups.  A digit group must be followed by a space, which is not a
    digit, so the greedy choice is the only one that can succeed. *)
Definition tokenErrRe_lit1 : string := "This model's maximum context length is ".
Definition tokenErrRe_lit2 : string := " tokens".
Definition tokenErrRe_lit3 : string := " However, your messages resulted in ".

Definition tokenErrRe_at (s : string) : option (list string) :=
  s1 ← match_literal tokenErrRe_lit1 s;
  let '(d1, s2) := span_digits s1 in
  if String.eqb d1 "" then None else
  s3 ← match_literal tokenErrRe_lit2 s2;
  '(dot, s4) ← match_any_char s3;
  s5 ← match_literal tokenErrRe_lit3 s4;
  let '(d2, s6) := span_digits s5 in
  if String.eqb d2 "" then None else
  _ ← match_literal tokenErrRe_lit2 s6;
  Some [tokenErrRe_lit1 +:+ d1 +:+ tokenErrRe_lit2 +:+ dot +:+
        tokenErrRe_lit3 +:+ d2 +:+ tokenErrRe_lit2; d1; d2].

(** [tokenErrRe.FindStringSubmatch]: the leftmost match, [nil] if none. *)
Fixpoint tokenErrRe_FindStringSubmatch (s : string) : list string :=
  match tokenErrRe_at s with
  | Some found => found
  | None =>
      match s with
      | "" => []
      | String _ s' => tokenErrRe_FindStringSubmatch s'
      end
  end.

(** [strconv.Atoi]: the value and the error; a value out of range is
    clamped to the nearest 64-bit bound, a malformed string gives 0. *)
Fixpoint digits_value (acc : Z) (s : string) : option Z :=
  match s with
  | "" => Some acc
  | String c s' =>
      if is_digit c then digits_value (acc * 10 + (byte_val c - 48)) s'
      else None
  end.

Definition errSyntax : error := errorString "invalid syntax".
Definition errRange : error := errorString "value out of range".

Definition strconv_Atoi (s : string) : Z * option error :=
  let '(neg, body) :=
    match s with
    | String "-" r => (true, r)
    | String "+" r => (false, r)
    | _ => (false, s)
    end in
  if String.eqb body "" then (0, Some errSyntax)
  else match digits_value 0 body with
       | None => (0, Some errSyntax)
       | Some v =>
           if neg then
             if (v >? 2 ^ 63)%Z then (min_int64, Some errRange) else (- v, None)
           else
             if (v >? max_int64)%Z then (max_int64, Some errRange) else (v, None)
       end.

(** [s[:n]]: [None] is the run-time panic "slice bounds out of range". *)
Definition slice_to (s : string) (n : Z) : option string :=
  if (0 <=? n)%Z && (n <=? len s)%Z then Some (substring 0 (Z.to_nat n) s)
  else None.

Definition cutPrompt (msg prompt : string) : option string :=
  match tokenErrRe_FindStringSubmatch msg with
  | [_; found1; found2] =>
      let maxt := (strconv_Atoi found1).1 in
      let current := (strconv_Atoi found2).1 in
      if (maxt >? current)%Z then Some prompt
      else
        let reduceBy :=
          wrap_int64 (10 + wrap_int64 (wrap_int64 (current - maxt) * 4)) in
        if (len prompt >? reduceBy)%Z
        then slice_to prompt (wrap_int64 (len prompt - reduceBy))
        else Some prompt
  | _ => Some prompt
  end.

(** *** retry and handleAPIError *)

(** The part of [Mods] the retry policy reads and writes. *)
Record Mods : Type := mkMods {
  Input : string;
  retries : Z;
  Config_ : Config
}.

(** The [tea.Msg] values the error handlers return; [Msg_panic] is the
    run-time panic of a slice expression out of range. *)
Inductive Msg : Type :=
| Msg_modsError (e : modsError)
| Msg_completionInput (content : string)
| Msg_panic.

(** [time.Duration(math.Pow(2, float64(retries)))]: a power of two is exact
    in binary64 and converts exactly while it fits 63 bits; a negative
    exponent gives a fraction, truncated to 0; beyond the range the Go
    specification leaves the conversion to the implementation (amd64 gives
    the least int64). *)
Definition pow2_Duration (retries : Z) : Z :=
  if (retries <? 0)%Z then 0
  else if (retries <=? 62)%Z then 2 ^ retries
  else min_int64.

(** [time.Millisecond * 100 * time.Duration(...)], in nanoseconds. *)
Definition time_Millisecond : Z := 1000000.

Definition retry_wait (retries : Z) : Z :=
  wrap_int64 (time_Millisecond * 100 * pow2_Duration retries).

(** [retry] returns the new coordinator, the durations passed to
    [time.Sleep], and the message. *)
Definition retry (m : Mods) (content : string) (e : modsError)
    : Mods * list Z * Msg :=
  let m := mkMods (Input m) (wrap_int64 (retries m + 1)) (Config_ m) in
  if (retries m >=? MaxRetries (Config_ m))%Z then (m, [], Msg_modsError e)
  else (m, [retry_wait (retries m)], Msg_completionInput content).

Definition http_StatusNotFound : Z := 404.
Definition http_StatusBadRequest : Z := 400.
Definition http_StatusUnauthorized : Z := 401.
Definition http_StatusTooManyRequests : Z := 429.
Definition http_StatusInternalServerError : Z := 500.

Definition handleAPIError (m : Mods) (e : openai_Error) (mdl : Model)
    (content : string) : Mods * list Z * Msg :=
  let cfg := Config_ m in
  if (StatusCode e =? http_StatusNotFound)%Z then
    if negb (String.eqb (Fallback mdl) "") then
      let m := mkMods (Input m) (retries m) (Config_set_Model cfg (Fallback mdl)) in
      retry m content (mkModsError e (Model_API mdl +:+ " API 服务器错误。"))
    else
      (m, [], Msg_modsError (mkModsError e
         ("API '" +:+ API cfg +:+ "' 缺少模型 '" +:+ Model_ cfg +:+ "'。")))
  else if (StatusCode e =? http_StatusBadRequest)%Z then
    if String.eqb (Code e) "context_length_exceeded" then
      let pe := mkModsError e "超出最大提示词大小。" in
      if NoLimit cfg then (m, [], Msg_modsError pe)
      else match cutPrompt (Message e) content with
           | Some prompt => retry m prompt pe
           | None => (m, [], Msg_panic)
           end
    else (m, [], Msg_modsError (mkModsError e (Model_API mdl +:+ " API 请求错误。")))
  else if (StatusCode e =? http_StatusUnauthorized)%Z then
    (m, [], Msg_modsError (mkModsError e ("无效的 " +:+ Model_API mdl +:+ " API 密钥。")))
  else if (StatusCode e =? http_StatusTooManyRequests)%Z then
    retry m content (mkModsError e ("您已达到 " +:+ Model_API mdl +:+ " API 速率限制。"))
  else if (StatusCode e =? http_StatusInternalServerError)%Z then
    if String.eqb (Model_API mdl) "openai" then
      retry m content (mkModsError e "OpenAI API 服务器错误。")
    else
      (m, [], Msg_modsError (mkModsError e
         ("API '" +:+ Model_API mdl +:+ "' 加载模型 '" +:+ Model_Name mdl +:+ "' 出错。")))
  else retry m content (mkModsError e "未知的 API 错误。").

(** The branches of [handleAPIError] that end in [m.retry]: the policy's
    retryable errors. *)
Definition retryable (cfg : Config) (e : openai_Error) (mdl : Model) : bool :=
  if (StatusCode e =? http_StatusNotFound)%Z then negb (String.eqb (Fallback mdl) "")
  else if (StatusCode e =? http_StatusBadRequest)%Z then
    String.eqb (Code e) "context_length_exceeded" && negb (NoLimit cfg)
  else if (StatusCode e =? http_StatusUnauthorized)%Z then false
  else if (StatusCode e =? http_StatusTooManyRequests)%Z then true
  else if (StatusCode e =? http_StatusInternalServerError)%Z then
    String.eqb (Model_API mdl) "openai"
  else true.

(** [strings.TrimSpace(s) == ""] for [removeWhitespace]: [s] is a
    sequence of white-space runes ([unicode.IsSpace]), the six of ASCII and
    the UTF-8 encodings of U+0085, U+00A0, U+1680, U+2000 to U+200A, U+2028,
    U+2029, U+202F, U+205F and U+3000. *)
Definition is_space (c : ascii) : bool :=
  let b := byte_val c in
  (b =? 9)%Z || (b =? 10)%Z || (b =? 11)%Z || (b =? 12)%Z || (b =? 13)%Z || (b =? 32)%Z.

Definition is_space2 (c1 c2 : ascii) : bool :=
  (byte_val c1 =? 194)%Z && ((byte_val c2 =? 133)%Z || (byte_val c2 =? 160)%Z).

Definition is_space3 (c1 c2 c3 : ascii) : bool :=
  let '(b1, b2, b3) := (byte_val c1, byte_val c2, byte_val c3) in
  ((b1 =? 225)%Z && (b2 =? 154)%Z && (b3 =? 128)%Z)
  || ((b1 =? 226)%Z && (b2 =? 128)%Z &&
      (((128 <=? b3)%Z && (b3 <=? 138)%Z) || (b3 =? 168)%Z || (b3 =? 169)%Z || (b3 =? 175)%Z))
  || ((b1 =? 226)%Z && (b2 =? 129)%Z && (b3 =? 159)%Z)
  || ((b1 =? 227)%Z && (b2 =? 128)%Z && (b3 =? 128)%Z).

Fixpoint all_space (s : string) : bool :=
  match s with
  | "" => true
  | String c1 s1 =>
      if is_space c1 then all_space s1
      else match s1 with
           | "" => false
           | String c2 s2 =>
               if is_space2 c1 c2 then all_space s2
               else match s2 with
                    | "" => false
                    | String c3 s3 => is_space3 c1 c2 c3 && all_space s3
                    end
           end
  end.

Definition removeWhitespace (s : string) : string :=
  if all_space s then "" else s.

(** [Update] on a [completionInput]: the new coordinator and what the
    returned command does next.  The two early returns quit; otherwise
    [startCompletionCmd] reads the conversation from the cache when
    [--show] or [--show-last] is set and sends a request if not.  (The
    prompt echoed to the output is not part of the model.) *)
Inductive next_step : Type :=
| step_quit
| step_readFromCache
| step_request.

Definition Update_completionInput (m : Mods) (content : string)
    : Mods * next_step :=
  let m :=
    if negb (String.eqb content "") then
      mkMods (removeWhitespace content) (retries m) (Config_ m)
    else m in
  let cfg := Config_ m in
  if String.eqb (Input m) "" && String.eqb (Prefix cfg) ""
     && String.eqb (Show_ cfg) "" && negb (ShowLast cfg)
  then (m, step_quit)
  else if Dirs cfg
          || (Z.of_nat (length (Delete_ cfg)) >? 0)%Z
          || negb (DeleteOlderThan cfg =? 0)%Z
          || ShowHelp cfg || List_ cfg || ListRoles cfg
          || Settings cfg || ResetSettings cfg
  then (m, step_quit)
  else if negb (String.eqb (Show_ cfg) "") || ShowLast cfg
  then (m, step_readFromCache)
  else (m, step_request).

(** How a session ends: the request went through, an error was surfaced
    to the user, the program panicked, or the coordinator stopped without
    sending a further request. *)
Inductive outcome : Type :=
| Completed
| Surfaced (e : modsError)
| Panicked
| Stopped.

(** The event loop around a failing provider: every request of [fails]
    ends in the given API error for the model resolved for it; the error
    handler [errh] of [startCompletionCmd] calls [handleAPIError] with
    [m.Input], and a [completionInput] message goes through [Update],
    which starts the next request.  The result is the final coordinator,
    every [time.Sleep] in order, and the outcome. *)
Fixpoint requests (m : Mods) (fails : list (openai_Error * Model))
    : Mods * list Z * outcome :=
  match fails with
  | [] => (m, [], Completed)
  | (e, mdl) :: rest =>
      let '(m1, slept, msg) := handleAPIError m e mdl (Input m) in
      match msg with
      | Msg_modsError pe => (m1, slept, Surfaced pe)
      | Msg_panic => (m1, slept, Panicked)
      | Msg_completionInput content =>
          match Update_completionInput m1 content with
          | (m2, step_request) =>
              let '(m3, slept', o) := requests m2 rest in
              (m3, (slept ++ slept')%list, o)
          | (m2, _) => (m2, slept, Stopped)
          end
      end
  end.

(** ** package main: mcp.go *)

(** [slices.Contains] on strings. *)
Definition slices_Contains (l : list string) (x : string) : bool :=
  existsb (String.eqb x) l.

Definition isMCPEnabled (config : Config) (name : string) : bool :=
  negb (slices_Contains (MCPDisable config) "*")
  && negb (slices_Contains (MCPDisable config) name).

(** [slices.Sort] on strings: ascending byte-wise order. *)
Definition string_le (a b : string) : Prop := String.leb a b = true.
#[global] Instance string_le_dec a b : Decision (string_le a b).
Proof. unfold string_le. apply _. Defined.

(** [enabledMCPs]: the pairs the iterator yields, in order. *)
Definition enabledMCPs (config : Config) : list (string * MCPServerConfig) :=
  let names := merge_sort string_le (map fst (map_to_list (MCPServers config))) in
  omap (λ name,
          if isMCPEnabled config name
          then (λ server, (name, server)) <$> MCPServers config !! name
          else None) names.

(** Whether the byte [c] occurs in [s]. *)
Fixpoint contains_byte (c : ascii) (s : string) : bool :=
  match s with
  | "" => false
  | String c' s' => Ascii.eqb c c' || contains_byte c s'
  end.

(** [strings.Cut(s, sep)] for a one-byte separator: [None] is
    [found == false]. *)
Fixpoint strings_Cut (s : string) (sep : ascii) : option (string * string) :=
  match s with
  | "" => None
  | String c s' =>
      if Ascii.eqb c sep then Some ("", s')
      else '(before, after) ← strings_Cut s' sep; Some (String c before, after)
  end.

(** The client a server configuration selects ([switch server.Type]). *)
Inductive client_spec : Type :=
| StdioMCPClient (command : string) (env args : list string)
| SSEMCPClient (url : string)
| StreamableHttpClient (url : string).

Inductive mcp_Content : Type :=
| TextContent (text : string)
| OtherContent.

Record CallToolResult : Type := mkCallToolResult {
  result_Content : list mcp_Content;
  result_IsError : bool
}.

(** What the program does not own: the mcp-go client library, the JSON
    decoder, [%q] quoting and the process environment.  [A] is the type of
    a decoded argument object ([map[string]any]). *)
Record mcp_world (A : Type) : Type := mkMcpWorld {
  os_Environ : list string;
  strconv_Quote : string → string;
  json_Unmarshal : string → A + error;
  client_New : client_spec → option error;
  client_Start : client_spec → option error;
  client_Initialize : client_spec → option error;
  client_CallTool : client_spec → string → option A → CallToolResult + error
}.
Arguments os_Environ {A} _.
Arguments strconv_Quote {A} _ _.
Arguments json_Unmarshal {A} _ _.
Arguments client_New {A} _ _.
Arguments client_Start {A} _ _.
Arguments client_Initialize {A} _ _.
Arguments client_CallTool {A} _ _ _ _.

(** The calls made on a client, in order. *)
Inductive mcp_event (A : Type) : Type :=
| ev_Start (c : client_spec)
| ev_Initialize (c : client_spec)
| ev_CallTool (c : client_spec) (tool : string) (args : option A)
| ev_Close (c : client_spec).
Arguments ev_Start {A} _.
Arguments ev_Initialize {A} _.
Arguments ev_CallTool {A} _ _ _.
Arguments ev_Close {A} _.

Section mcp.
Context {A : Type} (w : mcp_world A).

Definition initMcpClient (server : MCPServerConfig)
    : list (mcp_event A) * (client_spec + error) :=
  let spec :=
    if String.eqb (server_Type server) "" || String.eqb (server_Type server) "stdio"
    then Some (StdioMCPClient (server_Command server)
                 (os_Environ w ++ server_Env server)%list (server_Args server))
    else if String.eqb (server_Type server) "sse"
    then Some (SSEMCPClient (server_URL server))
    else if String.eqb (server_Type server) "http"
    then Some (StreamableHttpClient (server_URL server))
    else None in
  match spec with
  | None =>
      ([], inr (errorString ("不支持的 MCP 服务器类型: " +:+
                  strconv_Quote w (server_Type server) +:+
                  "，支持的类型有: stdio、sse、http")))
  | Some cli =>
      match client_New w cli with
      | Some e => ([], inr (wrapError "创建 MCP 客户端失败: " e ""))
      | None =>
          match client_Start w cli with
          | Some e =>
              ([ev_Start cli; ev_Close cli],
               inr (wrapError "启动 MCP 客户端失败: " e ""))
          | None =>
              match client_Initialize w cli with
              | Some e =>
                  ([ev_Start cli; ev_Initialize cli; ev_Close cli],
                   inr (wrapError "初始化 MCP 客户端失败: " e ""))
              | None => ([ev_Start cli; ev_Initialize cli], inl cli)
              end
          end
      end
  end.

(** The [strings.Builder] loop over [result.Content]. *)
Definition content_text (cs : list mcp_Content) : string :=
  fold_left (λ sb content,
               match content with
               | TextContent text => sb +:+ text
               | OtherContent => sb +:+ "[非文本内容]"
               end) cs "".

(** The block [var args map[string]any; if len(data) > 0 { ... }]: [None]
    is the nil map. *)
Definition toolCall_args (data : string) : option A + error :=
  if (len data >? 0)%Z then
    match json_Unmarshal w data with
    | inl a => inl (Some a)
    | inr e => inr e
    end
  else inl None.

(** [toolCall] from [initMcpClient] on, for the server and the tool the
    name was resolved to: the client calls made, and the pair
    [(string, error)]. *)
Definition toolCall_dispatch (server : MCPServerConfig) (tool data : string)
    : list (mcp_event A) * (string * option error) :=
  match initMcpClient server with
  | (evs, inr e) => (evs, ("", Some (wrapError "mcp: " e "")))
  | (evs, inl client) =>
      match toolCall_args data with
      | inr e =>
          ((evs ++ [ev_Close client])%list,
           ("", Some (wrapError "mcp: " e (": " +:+ data))))
      | inl args =>
          let evs := (evs ++ [ev_CallTool client tool args; ev_Close client])%list in
          match client_CallTool w client tool args with
          | inr e => (evs, ("", Some (wrapError "mcp: " e "")))
          | inl result =>
              let sb := content_text (result_Content result) in
              if result_IsError result
              then (evs, ("", Some (errorString sb)))
              else (evs, (sb, None))
          end
      end
  end.

Definition toolCall (config : Config) (name data : string)
    : list (mcp_event A) * (string * option error) :=
  match strings_Cut name "_" with
  | None =>
      ([], ("", Some (errorString ("mcp: 无效的工具名称: " +:+ strconv_Quote w name))))
  | Some (sname, tool) =>
      match MCPServers config !! sname with
      | None =>
          ([], ("", Some (errorString ("mcp: 无效的服务器名称: " +:+ strconv_Quote w sname))))
      | Some server =>
          if negb (isMCPEnabled config sname) then
            ([], ("", Some (errorString ("mcp: 服务器已禁用: " +:+ strconv_Quote w sname))))
          else toolCall_dispatch server tool data
      end
  end.

End mcp.

(** ** Pattern matching of the two libraries the stores call

    SQLite's [GLOB] operator and Go's [filepath.Match] both read a pattern
    into the same kinds of pieces; the characters are single bytes. *)
Inductive glob_token : Type :=
| tok_star
| tok_one
| tok_set (negated : bool) (ranges : list (ascii * ascii))
| tok_lit (c : ascii)
| tok_fail.

Definition in_ranges (c : ascii) (ranges : list (ascii * ascii)) : bool :=
  existsb (λ r, (byte_val r.1 <=? byte_val c)%Z && (byte_val c <=? byte_val r.2)%Z) ranges.

(** [sep]: the character that [*] and [?] do not match ([None] for GLOB). *)
Definition is_sep (sep : option ascii) (c : ascii) : bool :=
  match sep with
  | Some x => Ascii.eqb x c
  | None => false
  end.

Fixpoint glob_match (sep : option ascii) (toks : list glob_token) (s : string)
    {struct toks} : bool :=
  match toks with
  | [] => String.eqb s ""
  | tok_star :: toks' =>
      (fix star (s : string) : bool :=
         glob_match sep toks' s
         || match s with
            | "" => false
            | String c s' => negb (is_sep sep c) && star s'
            end) s
  | tok_one :: toks' =>
      match s with
      | "" => false
      | String c s' => negb (is_sep sep c) && glob_match sep toks' s'
      end
  | tok_set negated ranges :: toks' =>
      match s with
      | "" => false
      | String c s' => xorb (in_ranges c ranges) negated && glob_match sep toks' s'
      end
  | tok_lit c :: toks' =>
      match s with
      | "" => false
      | String c' s' => Ascii.eqb c c' && glob_match sep toks' s'
      end
  | tok_fail :: _ => false
  end.

(** *** SQLite GLOB *)

(** The members of a set after its optional [^] and leading []]: up to the
    closing bracket; [prior] is [prior_c] of [patternCompare].  [None]: the
    pattern ends inside the set, which matches nothing. *)
Fixpoint sqlite_set_members (prior : option ascii) (p : string)
    : option (list (ascii * ascii) * string) :=
  match p with
  | "" => None
  | String c2 rest =>
      if Ascii.eqb c2 "]" then Some ([], rest)
      else
        let single :=
          '(rs, r) ← sqlite_set_members (Some c2) rest; Some ((c2, c2) :: rs, r) in
        match prior, rest with
        | Some pc, String c3 rest' =>
            if Ascii.eqb c2 "-" && negb (Ascii.eqb c3 "]") then
              '(rs, r) ← sqlite_set_members None rest'; Some ((pc, c3) :: rs, r)
            else single
        | _, _ => single
        end
  end.

Definition sqlite_set (p : string) : option (bool * list (ascii * ascii) * string) :=
  let '(negated, p) :=
    match p with
    | String "^" p' => (true, p')
    | _ => (false, p)
    end in
  match p with
  | String "]" p' =>
      '(rs, r) ← sqlite_set_members None p'; Some (negated, ("]"%char, "]"%char) :: rs, r)
  | _ => '(rs, r) ← sqlite_set_members None p; Some (negated, rs, r)
  end.

Fixpoint sqlite_glob_tokens (fuel : nat) (p : string) : list glob_token :=
  match fuel, p with
  | _, "" => []
  | O, _ => [tok_fail]
  | S fuel', String c rest =>
      if Ascii.eqb c "*" then tok_star :: sqlite_glob_tokens fuel' rest
      else if Ascii.eqb c "?" then tok_one :: sqlite_glob_tokens fuel' rest
      else if Ascii.eqb c "[" then
        match sqlite_set rest with
        | Some (negated, rs, rest') => tok_set negated rs :: sqlite_glob_tokens fuel' rest'
        | None => [tok_fail]
        end
      else tok_lit c :: sqlite_glob_tokens fuel' rest
  end.

(** [str GLOB pattern]. *)
Definition sqlite_glob (pattern str : string) : bool :=
  glob_match None (sqlite_glob_tokens (String.length pattern) pattern) str.

(** ** package main: db.go and sha.go *)

Definition sha1short : Z := 7.
Definition sha1minLen : Z := 4.

Record Conversation : Type := mkConversation {
  conv_ID : string;
  conv_Title : string;
  conv_UpdatedAt : Z;
  conv_API : option string;
  conv_Model : option string
}.

(** [convoDB]: the rows of the table [conversations], in the order of
    insertion.  Ids and titles are kept and compared as text, and the
    connection does not fail. *)
Record convoDB : Type := mkConvoDB {
  rows : list Conversation
}.

Definition sqlite_constraint : error := errorString "constraint failed".

(** [Save(id, title, api, model)] at the time [now]: the UPDATE, and the
    INSERT when no row was affected; both are subject to the two CHECK
    constraints of the table. *)
Definition convoDB_Save (c : convoDB) (now : Z) (id title api model : string)
    : convoDB * option error :=
  if existsb (λ r, String.eqb (conv_ID r) id) (rows c) then
    if String.eqb title "" then (c, Some (wrapError "保存失败: " sqlite_constraint ""))
    else
      (mkConvoDB
         (map (λ r, if String.eqb (conv_ID r) id
                    then mkConversation id title now (Some api) (Some model)
                    else r) (rows c)),
       None)
  else if String.eqb id "" || String.eqb title "" then
    (c, Some (wrapError "保存失败: " sqlite_constraint ""))
  else
    (mkConvoDB (rows c ++ [mkConversation id title now (Some api) (Some model)])%list, None).

Definition convoDB_Delete (c : convoDB) (id : string) : convoDB * option error :=
  (mkConvoDB (filter (λ r, conv_ID r ≠ id) (rows c)), None).

Definition findByExactTitle (c : convoDB) (in_ : string) : list Conversation :=
  filter (λ r, conv_Title r = in_) (rows c).

Definition findByIDOrTitle (c : convoDB) (in_ : string) : list Conversation :=
  filter (λ r, sqlite_glob (in_ +:+ "*") (conv_ID r) = true ∨ conv_Title r = in_) (rows c).

Definition convoDB_Find (c : convoDB) (in_ : string) : Conversation + error :=
  let conversations :=
    if (len in_ <? sha1minLen)%Z then findByExactTitle c in_
    else findByIDOrTitle c in_ in
  if (Z.of_nat (length conversations) >? 1)%Z then
    inr (wrapError "" errManyMatches (": " +:+ in_))
  else
    match conversations with
    | [conversation] => inl conversation
    | _ => inr (wrapError "" errNoMatches (": " +:+ in_))
    end.

(** *** Go's filepath.Match *)

(** [getEsc]: one bound of a character range; [None] is [ErrBadPattern]. *)
Definition getEsc (chunk : string) : option (ascii * string) :=
  match chunk with
  | "" => None
  | String c rest =>
      if Ascii.eqb c "-" || Ascii.eqb c "]" then None
      else
        '(r, nchunk) ←
          (if Ascii.eqb c "\" then
             match rest with
             | "" => None
             | String c' rest' => Some (c', rest')
             end
           else Some (c, rest));
        if String.eqb nchunk "" then None else Some (r, nchunk)
  end.

(** The ranges of a class after its optional [^], up to the closing
    bracket, which ends the class once a range has been read. *)
Fixpoint go_class_ranges (fuel : nat) (nrange : nat) (chunk : string)
    : option (list (ascii * ascii) * string) :=
  match fuel with
  | O => None
  | S fuel' =>
      let more :=
        '(lo, chunk1) ← getEsc chunk;
        '(hi, chunk2) ←
          match chunk1 with
          | String "-" r => getEsc r
          | _ => Some (lo, chunk1)
          end;
        '(rs, rest) ← go_class_ranges fuel' (S nrange) chunk2;
        Some ((lo, hi) :: rs, rest) in
      match chunk with
      | String "]" rest => if (0 <? nrange)%nat then Some ([], rest) else more
      | _ => more
      end
  end.

Fixpoint go_pattern_tokens (fuel : nat) (p : string) : option (list glob_token) :=
  match fuel, p with
  | _, "" => Some []
  | O, _ => None
  | S fuel', String c rest =>
      if Ascii.eqb c "*" then cons tok_star <$> go_pattern_tokens fuel' rest
      else if Ascii.eqb c "?" then cons tok_one <$> go_pattern_tokens fuel' rest
      else if Ascii.eqb c "\" then
        match rest with
        | "" => None
        | String c' rest' => cons (tok_lit c') <$> go_pattern_tokens fuel' rest'
        end
      else if Ascii.eqb c "[" then
        let '(negated, body) :=
          match rest with
          | String "^" r => (true, r)
          | _ => (false, rest)
          end in
        '(rs, rest') ← go_class_ranges (S (String.length body)) 0 body;
        cons (tok_set negated rs) <$> go_pattern_tokens fuel' rest'
      else cons (tok_lit c) <$> go_pattern_tokens fuel' rest
  end.

(** [filepath.Match(pattern, name)] on Unix: [inr ErrBadPattern] for a
    malformed pattern. *)
Definition filepath_Match (pattern name : string) : bool + error :=
  match go_pattern_tokens (String.length pattern) pattern with
  | Some toks => inl (glob_match (Some "/"%char) toks name)
  | None => inr ErrBadPattern
  end.

(** ** The file system

    A path is a string and a regular file a sequence of bytes; every
    operation on a path of [denied] fails with [ErrPermission].  The
    directories of the two caches exist ([cache.New] has made them).
    [filepath.Join] puts one separator between its two parts, which are
    taken as clean. *)
Record FS : Type := mkFS {
  files : gmap string string;
  denied : gset string
}.

Definition filepath_Join (dir name : string) : string := dir +:+ "/" +:+ name.

Definition os_Open (fs : FS) (path : string) : string + error :=
  if decide (path ∈ denied fs) then inr ErrPermission
  else match files fs !! path with
       | Some data => inl data
       | None => inr ErrNotExist
       end.

(** [os.Create] followed by the writes of [data] to the new file. *)
Definition os_Create (fs : FS) (path : string) : FS * option error :=
  if decide (path ∈ denied fs) then (fs, Some ErrPermission)
  else (mkFS (<[path := ""]> (files fs)) (denied fs), None).

Definition file_Write (fs : FS) (path data : string) : FS :=
  mkFS (<[path := default "" (files fs !! path) +:+ data]> (files fs)) (denied fs).

Definition os_Remove (fs : FS) (path : string) : FS * option error :=
  if decide (path ∈ denied fs) then (fs, Some ErrPermission)
  else match files fs !! path with
       | Some _ => (mkFS (delete path (files fs)) (denied fs), None)
       | None => (fs, Some ErrNotExist)
       end.

(** The names of the entries of [dir], sorted ([Readdirnames] and
    [slices.Sort]). *)
Definition has_sep (name : string) : bool := contains_byte "/" name.

Definition Readdirnames (fs : FS) (dir : string) : list string :=
  merge_sort string_le
    (omap (λ path,
             name ← match_literal (dir +:+ "/") path;
             if String.eqb name "" || has_sep name then None else Some name)
          (map fst (map_to_list (files fs)))).

(** [filepath.Glob(filepath.Join(dir, pattern))] for a directory whose
    own path has no pattern character and a pattern without separator. *)
Definition filepath_Glob (fs : FS) (dir pattern : string) : list string + error :=
  match filepath_Match pattern "" with
  | inr e => inr e
  | inl _ =>
      inl (omap (λ n,
                   match filepath_Match pattern n with
                   | inl true => Some (filepath_Join dir n)
                   | _ => None
                   end) (Readdirnames fs dir))
  end.

(** [filepath.Base]. *)
Fixpoint drop_trailing_sep (rev_path : list ascii) : list ascii :=
  match rev_path with
  | c :: l => if Ascii.eqb c "/" then drop_trailing_sep l else rev_path
  | [] => []
  end.

Fixpoint take_until_sep (rev_path : list ascii) : list ascii :=
  match rev_path with
  | c :: l => if Ascii.eqb c "/" then [] else c :: take_until_sep l
  | [] => []
  end.

Definition filepath_Base (path : string) : string :=
  if String.eqb path "" then "."
  else
    let stripped := drop_trailing_sep (rev (list_ascii_of_string path)) in
    let elem := string_of_list_ascii (rev (take_until_sep stripped)) in
    if String.eqb elem "" then "/" else elem.

(** [strings.Split(s, sep)] for a one-byte separator. *)
Fixpoint strings_Split (s : string) (sep : ascii) : list string :=
  match s with
  | "" => [""]
  | String c s' =>
      if Ascii.eqb c sep then "" :: strings_Split s' sep
      else match strings_Split s' sep with
           | part :: parts => String c part :: parts
           | [] => [String c ""]
           end
  end.

(** ** package cache *)
Module cache.

Definition ConversationCache : string := "conversations".
Definition TemporaryCache : string := "temp".
Definition cacheExt : string := ".gob".

Record Cache : Type := mkCache {
  baseDir : string;
  cType : string
}.

Definition New (baseDir cacheType : string) : Cache := mkCache baseDir cacheType.

Definition Cache_dir (c : Cache) : string := filepath_Join (baseDir c) (cType c).

(** [Read]: [readFn] is given the bytes of the file and the state [S] its
    closure captures; it returns the new state and its error. *)
Definition Cache_Read {S : Type} (fs : FS) (c : Cache) (id : string)
    (readFn : string → S → S * option error) (st : S) : S * option error :=
  if String.eqb id "" then (st, Some (wrapError "读取: " errInvalidID ""))
  else
    match os_Open fs (filepath_Join (Cache_dir c) (id +:+ cacheExt)) with
    | inr e => (st, Some (wrapError "读取: " e ""))
    | inl file =>
        match readFn file st with
        | (st', Some e) => (st', Some (wrapError "读取: " e ""))
        | (st', None) => (st', None)
        end
    end.

(** [Write]: [writeFn] is the bytes its closure writes and its error. *)
Definition Cache_Write (fs : FS) (c : Cache) (id : string)
    (writeFn : string * option error) : FS * option error :=
  if String.eqb id "" then (fs, Some (wrapError "写入: " errInvalidID ""))
  else
    let path := filepath_Join (Cache_dir c) (id +:+ cacheExt) in
    match os_Create fs path with
    | (fs', Some e) => (fs', Some (wrapError "写入: " e ""))
    | (fs', None) =>
        match writeFn with
        | (data, Some e) => (file_Write fs' path data, Some (wrapError "写入: " e ""))
        | (data, None) => (file_Write fs' path data, None)
        end
    end.

Definition Cache_Delete (fs : FS) (c : Cache) (id : string) : FS * option error :=
  if String.eqb id "" then (fs, Some (wrapError "删除: " errInvalidID ""))
  else
    match os_Remove fs (filepath_Join (Cache_dir c) (id +:+ cacheExt)) with
    | (fs', Some e) => (fs', Some (wrapError "删除: " e ""))
    | (fs', None) => (fs', None)
    end.

(** *** convo.go *)

Record noCallMessage : Type := mkNoCallMessage {
  noCall_Content : string;
  noCall_Role : string
}.

(** The encoding/gob library on the two types the cache stores.  An encoder
    returns the bytes written and its error; decoding into [*messages]
    returns the bytes the decoder consumed (what the [io.TeeReader]
    copies), the new value of the slice and the error. *)
Record gob_codec : Type := mkGobCodec {
  gob_Encode : list proto.Message → string * option error;
  gob_Decode : string → list proto.Message → string * list proto.Message * option error;
  gob_Decode_noCalls : string → list noCallMessage * option error
}.

Record Conversations : Type := mkConversations {
  Conversations_cache : Cache
}.

Definition NewConversations (dir : string) : Conversations :=
  mkConversations (New dir ConversationCache).

Definition encode (g : gob_codec) (messages : list proto.Message)
    : string * option error :=
  match gob_Encode g messages with
  | (data, Some e) => (data, Some (wrapError "编码: " e ""))
  | (data, None) => (data, None)
  end.

Definition decode (g : gob_codec) (r : string) (messages : list proto.Message)
    : list proto.Message * option error :=
  match gob_Decode g r messages with
  | (_, messages', None) => (messages', None)
  | (tr, messages', Some err1) =>
      match gob_Decode_noCalls g tr with
      | (_, Some _) => (messages', Some (wrapError "解码: " err1 ""))
      | (noCalls, None) =>
          ((messages' ++
            map (λ msg, proto.mkMessage (noCall_Role msg) (noCall_Content msg) [])
                noCalls)%list, None)
      end
  end.

Definition Conversations_Read (g : gob_codec) (fs : FS) (c : Conversations)
    (id : string) (messages : list proto.Message)
    : list proto.Message * option error :=
  Cache_Read fs (Conversations_cache c) id (decode g) messages.

Definition Conversations_Write (g : gob_codec) (fs : FS) (c : Conversations)
    (id : string) (messages : list proto.Message) : FS * option error :=
  Cache_Write fs (Conversations_cache c) id (encode g messages).

Definition Conversations_Delete (fs : FS) (c : Conversations) (id : string)
    : FS * option error :=
  Cache_Delete fs (Conversations_cache c) id.

(** *** expiring.go *)

Record ExpiringCache : Type := mkExpiringCache {
  Expiring_cache : Cache
}.

Definition NewExpiring (path : string) : ExpiringCache :=
  mkExpiringCache (New path TemporaryCache).

Definition getCacheFilename (id : string) (expiresAt : Z) : string :=
  id +:+ "." +:+ pretty expiresAt.

(** [strconv.ParseInt(s, 10, 64)]: as [strconv.Atoi] on a 64-bit [int]. *)
Definition strconv_ParseInt (s : string) : Z * option error := strconv_Atoi s.

(** [Read] at the Unix time [now]. *)
Definition ExpiringCache_Read {S : Type} (fs : FS) (now : Z) (c : ExpiringCache)
    (id : string) (readFn : string → S → S * option error) (st : S)
    : FS * S * option error :=
  let pattern := id +:+ ".*" in
  match filepath_Glob fs (Cache_dir (Expiring_cache c)) pattern with
  | inr e => (fs, st, Some (wrapError "读取过期缓存失败: " e ""))
  | inl [] => (fs, st, Some (errorString "未找到缓存项"))
  | inl (match0 :: _) =>
      let filename := filepath_Base match0 in
      match strings_Split filename "." with
      | [_; part1] =>
          match strconv_ParseInt part1 with
          | (_, Some _) => (fs, st, Some (errorString "无效的过期时间戳"))
          | (expiresAt, None) =>
              if (expiresAt <? now)%Z then
                match os_Remove fs match0 with
                | (fs', Some e) => (fs', st, Some (wrapError "删除过期缓存文件失败: " e ""))
                | (fs', None) => (fs', st, Some ErrNotExist)
                end
              else
                match os_Open fs match0 with
                | inr e => (fs, st, Some (wrapError "打开过期缓存文件失败: " e ""))
                | inl file => let '(st', r) := readFn file st in (fs, st', r)
                end
          end
      | _ => (fs, st, Some (errorString "无效的缓存文件名"))
      end
  end.

(** The loop [for _, file := range ... { os.Remove(file) }] with its early
    return. *)
Fixpoint remove_all (fs : FS) (paths : list string) : FS * option error :=
  match paths with
  | [] => (fs, None)
  | file :: rest =>
      match os_Remove fs file with
      | (fs', Some e) => (fs', Some e)
      | (fs', None) => remove_all fs' rest
      end
  end.

Definition ExpiringCache_Write (fs : FS) (c : ExpiringCache) (id : string)
    (expiresAt : Z) (writeFn : string * option error) : FS * option error :=
  let pattern := id +:+ ".*" in
  let oldFiles :=
    match filepath_Glob fs (Cache_dir (Expiring_cache c)) pattern with
    | inl l => l
    | inr _ => []
    end in
  match remove_all fs oldFiles with
  | (fs', Some e) => (fs', Some (wrapError "删除旧缓存文件失败: " e ""))
  | (fs', None) =>
      let path := filepath_Join (Cache_dir (Expiring_cache c)) (getCacheFilename id expiresAt) in
      match os_Create fs' path with
      | (fs'', Some e) => (fs'', Some (wrapError "创建过期缓存文件失败: " e ""))
      | (fs'', None) => (file_Write fs'' path writeFn.1, writeFn.2)
      end
  end.

Definition ExpiringCache_Delete (fs : FS) (c : ExpiringCache) (id : string)
    : FS * option error :=
  let pattern := id +:+ ".*" in
  match filepath_Glob fs (Cache_dir (Expiring_cache c)) pattern with
  | inr e => (fs, Some (wrapError "删除过期缓存失败: " e ""))
  | inl matches =>
      match remove_all fs matches with
      | (fs', Some e) => (fs', Some (wrapError "删除过期缓存文件失败: " e ""))
      | (fs', None) => (fs', None)
      end
  end.

End cache.

(** ** package main: main.go *)

(** [deleteConversation]: the global [db], the file system under
    [config.CachePath], and the error, a [modsError] with the wrapped
    error and its reason. *)
Definition deleteConversation (db : convoDB) (fs : FS) (CachePath : string)
    (convo : Conversation) : convoDB * FS * option (error * string) :=
  match convoDB_Delete db (conv_ID convo) with
  | (db', Some e) => (db', fs, Some (e, "无法删除对话。"))
  | (db', None) =>
      let cache := cache.NewConversations CachePath in
      match cache.Conversations_Delete fs cache (conv_ID convo) with
      | (fs', Some e) => (db', fs', Some (e, "无法删除对话。"))
      | (fs', None) => (db', fs', None)
      end
  end.

(** ** package main: the helpers around a request *)

(** [strings.Join(elems, sep)]. *)
Fixpoint strings_Join (elems : list string) (sep : string) : string :=
  match elems with
  | [] => ""
  | e :: rest =>
      match rest with
      | [] => e
      | _ :: _ => e +:+ sep +:+ strings_Join rest sep
      end
  end.

(** [firstLine]: [strings.Cut] returns the whole string when the separator
    is not found. *)
Definition firstLine (s : string) : string :=
  match strings_Cut s "010" with
  | Some (first, _) => first
  | None => s
  end.

(** [increaseIndent]: the loop [lines[i] = "\t" + lines[i]] over the lines. *)
Definition increaseIndent (s : string) : string :=
  strings_Join (map (λ line, String "009" line) (strings_Split s "010"))
    (String "010" "").

(** The number of occurrences of the byte [c] in [s]. *)
Fixpoint count_byte (c : ascii) (s : string) : nat :=
  match s with
  | "" => 0%nat
  | String c' s' => ((if Ascii.eqb c c' then 1 else 0) + count_byte c s')%nat
  end.

(** ** package main: saving and deleting conversations *)

(** [strings.TrimSpace]: the white-space runes at both ends are cut off.
    [trim_left] reads runes forwards; [trim_right_rev] reads them backwards
    on the reversed bytes, as [utf8.DecodeLastRuneInString] does. *)
Fixpoint trim_left (s : string) : string :=
  match s with
  | "" => ""
  | String c1 s1 =>
      if is_space c1 then trim_left s1
      else match s1 with
           | "" => s
           | String c2 s2 =>
               if is_space2 c1 c2 then trim_left s2
               else match s2 with
                    | "" => s
                    | String c3 s3 =>
                        if is_space3 c1 c2 c3 then trim_left s3 else s
                    end
           end
  end.

Fixpoint trim_right_rev (r : list ascii) : list ascii :=
  match r with
  | [] => []
  | c1 :: r1 =>
      if is_space c1 then trim_right_rev r1
      else match r1 with
           | [] => r
           | c2 :: r2 =>
               if is_space2 c2 c1 then trim_right_rev r2
               else match r2 with
                    | [] => r
                    | c3 :: r3 =>
                        if is_space3 c3 c2 c1 then trim_right_rev r3 else r
                    end
           end
  end.

Definition strings_TrimSpace (s : string) : string :=
  string_of_list_ascii
    (rev (trim_right_rev (rev (list_ascii_of_string (trim_left s))))).

(** [sha1reg], the pattern [\b[0-9a-f]{40}\b]: forty digits of lower-case
    hexadecimal between two word boundaries, anywhere in the string. *)
Definition is_hex (c : ascii) : bool :=
  is_digit c || ((97 <=? byte_val c)%Z && (byte_val c <=? 102)%Z).

Definition is_word (c : ascii) : bool :=
  is_digit c || ((65 <=? byte_val c)%Z && (byte_val c <=? 90)%Z)
  || ((97 <=? byte_val c)%Z && (byte_val c <=? 122)%Z) || (byte_val c =? 95)%Z.

(** The rest of [s] after [n] hexadecimal digits. *)
Fixpoint hex_run (n : nat) (s : string) : option string :=
  match n with
  | O => Some s
  | S n' =>
      match s with
      | String c s' => if is_hex c then hex_run n' s' else None
      | "" => None
      end
  end.

(** A match that starts at the head of [s], the byte before being a word
    character or not. *)
Definition sha1reg_at (prev_word : bool) (s : string) : bool :=
  negb prev_word
  && match hex_run 40 s with
     | Some (String c _) => negb (is_word c)
     | Some "" => true
     | None => false
     end.

Fixpoint sha1reg_from (prev_word : bool) (s : string) : bool :=
  sha1reg_at prev_word s
  || match s with
     | "" => false
     | String c s' => sha1reg_from (is_word c) s'
     end.

Definition sha1reg_MatchString (s : string) : bool := sha1reg_from false s.

(** What a helper of main.go ends in: the error it returns ([nil] is
    [None], a [modsError] the pair of its error and its reason), or a
    run-time panic. *)
Inductive run : Type :=
| run_return (err : option (error * string))
| run_panic.

(** The title [saveConversation] gives the conversation. *)
Definition saveConversation_title (cacheWriteToTitle : string)
    (messages : list proto.Message) : string :=
  let title := strings_TrimSpace cacheWriteToTitle in
  if sha1reg_MatchString title || String.eqb title ""
  then firstLine (lastPrompt messages)
  else title.

(** [saveConversation]: the fields of the global [config] it reads are
    arguments, [render] is the style of stderr for inline code, [now] the
    time of the save.  The slice [cacheWriteToID[:sha1short]] of the
    closing message panics on an id shorter than seven bytes. *)
Definition saveConversation (g : cache.gob_codec) (render : string → string)
    (cfg : Config) (NoCache Quiet : bool)
    (CachePath cacheWriteToID cacheWriteToTitle : string)
    (db : convoDB) (fs : FS) (now : Z) (messages : list proto.Message)
    : convoDB * FS * run :=
  if NoCache then (db, fs, run_return None)
  else
    let id := cacheWriteToID in
    let title := saveConversation_title cacheWriteToTitle messages in
    let errReason :=
      "将 " +:+ cacheWriteToID +:+ " 写入缓存时出现问题。使用 " +:+
      render "--no-cache" +:+ " / " +:+ render "NO_CACHE" +:+ " 禁用它。" in
    let cache := cache.NewConversations CachePath in
    match cache.Conversations_Write g fs cache id messages with
    | (fs1, Some e) => (db, fs1, run_return (Some (e, errReason)))
    | (fs1, None) =>
        match convoDB_Save db now id title (API cfg) (Model_ cfg) with
        | (db1, Some e) =>
            (db1, (cache.Conversations_Delete fs1 cache id).1,
             run_return (Some (e, errReason)))
        | (db1, None) =>
            if negb Quiet && (len cacheWriteToID <? sha1short)%Z
            then (db1, fs1, run_panic)
            else (db1, fs1, run_return None)
        end
    end.

(** [deleteConversations]: the loop over [config.Delete].  After
    [deleteConversation] has removed the row and the blob it reports the
    id on stderr unless [config.Quiet], by the slice
    [convo.ID[:sha1minLen]], which panics on an id shorter than four
    bytes. *)
Fixpoint deleteConversations (Quiet : bool) (CachePath : string)
    (Delete : list string) (db : convoDB) (fs : FS) : convoDB * FS * run :=
  match Delete with
  | [] => (db, fs, run_return None)
  | del :: rest =>
      match convoDB_Find db del with
      | inr e => (db, fs, run_return (Some (e, "无法找到要删除的对话。")))
      | inl convo =>
          match deleteConversation db fs CachePath convo with
          | (db', fs', Some e) => (db', fs', run_return (Some e))
          | (db', fs', None) =>
              if negb Quiet && (len (conv_ID convo) <? sha1minLen)%Z
              then (db', fs', run_panic)
              else deleteConversations Quiet CachePath rest db' fs'
          end
      end
  end.

(** The table's constraints: [id] is the primary key, and neither [id]
    nor [title] is empty. *)
Definition convoDB_wf (c : convoDB) : Prop :=
  NoDup (map conv_ID (rows c))
  ∧ Forall (λ r, conv_ID r ≠ "" ∧ conv_Title r ≠ "") (rows c).

(** What an input of [Find] selects: the rows with that title and, for
    an input of at least [sha1minLen] bytes, the rows whose id the pattern
    [in*] matches. *)
Definition Find_selects (in_ : string) (r : Conversation) : Prop :=
  conv_Title r = in_
  ∨ ((sha1minLen <= len in_)%Z ∧ sqlite_glob (in_ +:+ "*") (conv_ID r) = true).

(** ** package main: the cache details of a run *)

(** [ordered.First] on two strings: the first one that is not empty. *)
Definition ordered_First (x y : string) : string :=
  if String.eqb x "" then y else x.

(** [cacheDetailsMsg]. *)
Record cacheDetailsMsg : Type := mkCacheDetailsMsg {
  details_WriteID : string;
  details_Title : string;
  details_ReadID : string;
  details_API : string;
  details_Model : string
}.

(** [findReadID]: [FindHEAD] is the answer of [db.FindHEAD()], the row
    updated last or the error of the query. *)
Definition findReadID (cfg : Config) (db : convoDB) (FindHEAD : Conversation + error)
    (in_ : string) : Conversation + error :=
  match convoDB_Find db in_ with
  | inl convo => inl convo
  | inr err =>
      if errors_Is err errNoMatches && String.eqb (Show_ cfg) "" then FindHEAD
      else inr err
  end.

(** [findCacheOpsDetails]: the message its command returns, or the
    [modsError] as the pair of its error and its reason.  [ContinueLast],
    [Continue] and [Title] are the fields of that name of [m.Config];
    [newConversationID n] is the id of the [n]-th call of
    [newConversationID]. *)
Definition findCacheOpsDetails (cfg : Config) (ContinueLast : bool)
    (Continue Title : string) (db : convoDB) (FindHEAD : Conversation + error)
    (newConversationID : nat → string) : cacheDetailsMsg + error * string :=
  let continueLast :=
    ContinueLast || (negb (String.eqb Continue "") && String.eqb Title "") in
  let readID := ordered_First Continue (Show_ cfg) in
  let writeID := ordered_First Title Continue in
  let title := writeID in
  let model := Model_ cfg in
  let api := API cfg in
  let found : string * string * string + error * string :=
    if negb (String.eqb readID "") || continueLast || ShowLast cfg then
      match findReadID cfg db FindHEAD readID with
      | inr err => inr (err, "无法找到对话。")
      | inl found =>
          match conv_Model found, conv_API found with
          | Some m, Some a => inl (conv_ID found, m, a)
          | _, _ => inl (conv_ID found, model, api)
          end
      end
    else inl (readID, model, api) in
  match found with
  | inr e => inr e
  | inl (readID, model, api) =>
      let writeID := if continueLast then readID else writeID in
      let '(writeID, calls) :=
        if String.eqb writeID "" then (newConversationID 0%nat, 1%nat)
        else (writeID, 0%nat) in
      let writeID :=
        if negb (sha1reg_MatchString writeID) then
          match convoDB_Find db writeID with
          | inr _ => newConversationID calls
          | inl convo => conv_ID convo
          end
        else writeID in
      inl (mkCacheDetailsMsg writeID title readID api model)
  end.

(** ** package main: the animation helper and the stream context *)

(** [reverse]: [out[i], out[j] = out[j], out[i]] reads both elements and
    then writes both; [None] is the panic of an index out of range.  The
    loop runs on [fuel], one unit an iteration; [reverse] gives it
    [len(in)] units, and a loop that has none left is [None] too. *)
Definition swap {T : Type} (out : list T) (i j : Z) : option (list T) :=
  if (i <? 0)%Z || (j <? 0)%Z then None
  else
    a ← out !! Z.to_nat i;
    b ← out !! Z.to_nat j;
    Some (<[Z.to_nat j := a]> (<[Z.to_nat i := b]> out)).

Fixpoint reverse_loop {T : Type} (fuel : nat) (i j : Z) (out : list T)
    : option (list T) :=
  if (i <? j)%Z then
    match fuel with
    | O => None
    | S fuel' => out' ← swap out i j; reverse_loop fuel' (i + 1) (j - 1) out'
    end
  else Some out.

Definition reverse {T : Type} (in_ : list T) : option (list T) :=
  let out := in_ in
  reverse_loop (length in_) 0 (Z.of_nat (length out) - 1) out.

(** [setupStreamContext]: the messages it leaves in [m.messages] and how
    it ends.  [Format], [FormatText], [FormatAs], [Role], [Roles],
    [NoCache] and [cacheReadFromID] are the fields of that name of
    [m.Config]; [loadMsg] is the function of load.go, which reads files and
    URLs; [quote] is the verb [%q] and [render] the style of inline
    code. *)
Definition setupStreamContext_roles (loadMsg : string → string + error)
    (roleSetup : list string) (messages : list proto.Message)
    : list proto.Message * option error :=
  fold_left
    (λ acc msg,
       match acc with
       | (messages, Some e) => (messages, Some e)
       | (messages, None) =>
           match loadMsg msg with
           | inr e => (messages, Some e)
           | inl content =>
               ((messages ++ [proto.mkMessage proto.RoleSystem content []])%list, None)
           end
       end)
    roleSetup (messages, None).

Definition setupStreamContext (g : cache.gob_codec) (render quote : string → string)
    (loadMsg : string → string + error) (cfg : Config) (Format : bool)
    (FormatText : gmap string string) (FormatAs Role : string)
    (Roles : gmap string (list string)) (NoCache : bool) (cacheReadFromID : string)
    (fs : FS) (cache : cache.Conversations) (content : string) (mod_ : Model)
    : list proto.Message * run :=
  let messages : list proto.Message := [] in
  let txt := default "" (FormatText !! FormatAs) in
  let messages :=
    if Format && negb (String.eqb txt "")
    then (messages ++ [proto.mkMessage proto.RoleSystem txt []])%list
    else messages in
  let roles : list proto.Message * option (error * string) :=
    if negb (String.eqb Role "") then
      match Roles !! Role with
      | None =>
          (messages,
           Some (errorString ("角色 " +:+ quote Role +:+ " 不存在"), "无法使用角色"))
      | Some roleSetup =>
          match setupStreamContext_roles loadMsg roleSetup messages with
          | (messages, Some e) => (messages, Some (e, "无法使用角色"))
          | (messages, None) => (messages, None)
          end
      end
    else (messages, None) in
  match roles with
  | (messages, Some e) => (messages, run_return (Some e))
  | (messages, None) =>
      let content :=
        if negb (String.eqb (Prefix cfg) "")
        then strings_TrimSpace (Prefix cfg +:+ LF +:+ LF +:+ content)
        else content in
      let cut :=
        if negb (NoLimit cfg) && (len content >? MaxChars mod_)%Z
        then slice_to content (MaxChars mod_)
        else Some content in
      match cut with
      | None => (messages, run_panic)
      | Some content =>
          let read :=
            if negb NoCache && negb (String.eqb cacheReadFromID "")
            then cache.Conversations_Read g fs cache cacheReadFromID messages
            else (messages, None) in
          match read with
          | (messages, Some e) =>
              (messages,
               run_return
                 (Some (e, "读取缓存时出现问题。使用 " +:+ render "--no-cache" +:+
                           " / " +:+ render "NO_CACHE" +:+ " 禁用它。")))
          | (messages, None) =>
              ((messages ++ [proto.mkMessage proto.RoleUser content []])%list,
               run_return None)
          end
      end
  end.

(** ** package main: the errors of the command line *)

(** The two patterns of [newFlagParseError] are sequences of literal
    bytes, [.*], [\w] and one group.  [re_match] is the backtracking
    search whose first match Go's regexp returns: [.*] takes the longest
    run without a line break first; the state is the group found so far
    and, inside the group, its bytes in reverse. *)
Inductive re_token : Type :=
| re_lit (c : ascii)
| re_any_star
| re_word
| re_open
| re_close.

Definition re_push (c : ascii) (st : option (list ascii) * string)
    : option (list ascii) * string :=
  match st.1 with
  | Some cur => (Some (c :: cur), st.2)
  | None => st
  end.

Fixpoint re_match (ts : list re_token) : string → option (list ascii) * string
    → option string :=
  match ts with
  | [] => λ _ st, Some st.2
  | re_lit c :: ts' =>
      λ s st,
        match s with
        | String c' s' => if Ascii.eqb c c' then re_match ts' s' (re_push c' st) else None
        | "" => None
        end
  | re_word :: ts' =>
      λ s st,
        match s with
        | String c' s' => if is_word c' then re_match ts' s' (re_push c' st) else None
        | "" => None
        end
  | re_open :: ts' => λ s st, re_match ts' s (Some [], st.2)
  | re_close :: ts' =>
      λ s st, re_match ts' s (None, string_of_list_ascii (rev (default [] st.1)))
  | re_any_star :: ts' =>
      fix star (s : string) (st : option (list ascii) * string) : option string :=
        match s with
        | String c' s' =>
            if Ascii.eqb c' "010" then re_match ts' s st
            else match star s' (re_push c' st) with
                 | Some r => Some r
                 | None => re_match ts' s st
                 end
        | "" => re_match ts' s st
        end
  end.

(** [FindStringSubmatch] of a pattern with one group: the group of the
    leftmost match, [None] when the pattern matches nowhere. *)
Fixpoint re_FindStringSubmatch (ts : list re_token) (s : string) : option string :=
  match re_match ts s (None, "") with
  | Some r => Some r
  | None =>
      match s with
      | String _ s' => re_FindStringSubmatch ts s'
      | "" => None
      end
  end.

Definition re_lits (s : string) : list re_token := map re_lit (list_ascii_of_string s).

(** [unknown shorthand flag: '.*' in (-\w)] *)
Definition shorthand_re : list re_token :=
  (re_lits "unknown shorthand flag: '" ++ [re_any_star] ++ re_lits "' in "
   ++ [re_open; re_lit "-"; re_word; re_close])%list.

(** The pattern of an invalid argument: [invalid argument ], any bytes in
    double quotes, [ for ], the group of any bytes in double quotes,
    [ flag: ] and any bytes. *)
Definition invalid_argument_re : list re_token :=
  (re_lits "invalid argument " ++ [re_lit "034"; re_any_star; re_lit "034"]
   ++ re_lits " for " ++ [re_lit "034"; re_open; re_any_star; re_close; re_lit "034"]
   ++ re_lits " flag: " ++ [re_any_star])%list.

Definition strings_HasPrefix (s prefix : string) : bool := String.prefix prefix s.

Definition strings_TrimPrefix (s prefix : string) : string :=
  if String.prefix prefix s
  then substring (String.length prefix) (String.length s - String.length prefix) s
  else s.

Record flagParseError : Type := mkFlagParseError {
  flag_err : error;
  flag_reason : string;
  flag_flag : string
}.

Definition newFlagParseError (err : error) : flagParseError :=
  let s := error_Error err in
  if strings_HasPrefix s "flag needs an argument:" then
    let ps := strings_Split s "-" in
    let flag :=
      match length ps with
      | 2%nat => "-" +:+ List.last ps ""
      | 3%nat => "--" +:+ List.last ps ""
      | _ => ""
      end in
    mkFlagParseError err "标志 %s 需要参数。" flag
  else if strings_HasPrefix s "unknown flag:" then
    mkFlagParseError err "标志 %s 不存在。" (strings_TrimPrefix s "unknown flag: ")
  else if strings_HasPrefix s "unknown shorthand flag:" then
    mkFlagParseError err "短标志 %s 不存在。"
      (default "" (re_FindStringSubmatch shorthand_re s))
  else if strings_HasPrefix s "invalid argument" then
    mkFlagParseError err "标志 %s 的参数无效。"
      (default "" (re_FindStringSubmatch invalid_argument_re s))
  else mkFlagParseError err s "".

(** ** The statements of the specification, in its own words *)



(** The wait before the [k]-th retry as the specification gives it, in
    nanoseconds: 100ms times 2^k. *)
Definition backoff (k : nat) : Z := (100 * time_Millisecond * 2 ^ Z.of_nat k)%Z.



(** ** Conditions on ids and directories *)

(** An id that is one path element without a dot and without any of the
    special characters of [filepath.Match]. *)
Definition plain_id (id : string) : bool :=
  negb (contains_byte "/" id) && negb (contains_byte "." id)
  && negb (contains_byte "*" id) && negb (contains_byte "?" id)
  && negb (contains_byte "[" id) && negb (contains_byte "\" id).

(** The directory [dir] holds regular files only: no file lies below a
    subdirectory of it. *)
Definition flat_dir (fs : FS) (dir : string) : bool :=
  forallb (λ path,
             match match_literal (dir +:+ "/") path with
             | Some name => negb (has_sep name)
             | None => true
             end)
          (map fst (map_to_list (files fs))).

(** The characters [filepath.Match] gives a meaning to. *)
Definition no_match_meta (s : string) : bool :=
  negb (contains_byte "*" s) && negb (contains_byte "?" s)
  && negb (contains_byte "[" s) && negb (contains_byte "\" s).

(** A string of decimal digits. *)
Fixpoint all_digits (s : string) : bool :=
  match s with
  | "" => true
  | String c s' => is_digit c && all_digits s'
  end.

(** ** Concrete values for the examples *)

(** A small codec with the interface of [gob_codec]: one line
    [role:content] per message.  It stands for the library in the examples,
    where messages have one-line contents and no tool calls. *)
Definition line_encode (messages : list proto.Message) : string * option error :=
  (fold_right (λ msg out, proto.Role msg +:+ ":" +:+ proto.Content msg +:+
                            String "010"%char out) "" messages, None).

Fixpoint line_decode_lines (lines : list string) : option (list proto.Message) :=
  match lines with
  | [] => Some []
  | [""] => Some []
  | line :: rest =>
      '(role, content) ← strings_Cut line ":";
      msgs ← line_decode_lines rest;
      Some (proto.mkMessage role content [] :: msgs)
  end.

Definition line_decode (data : string) (messages : list proto.Message)
    : string * list proto.Message * option error :=
  match line_decode_lines (strings_Split data "010"%char) with
  | Some msgs => (data, msgs, None)
  | None => (data, messages, Some (errorString "bad line"))
  end.

Definition line_codec : cache.gob_codec :=
  cache.mkGobCodec line_encode line_decode
    (λ _, ([], Some (errorString "no such type"))).

Definition example_messages : list proto.Message :=
  [proto.mkMessage proto.RoleUser "first 4 natural numbers" [];
   proto.mkMessage proto.RoleAssistant "1, 2, 3, 4" []].

(** A caller that returns both a content and an error. *)
Definition caller_partial (name data : string) : string * option error :=
  ("partial output", Some (errorString "boom")).

(** An error message of the provider and two rows of the index. *)
Definition context_length_message : string :=
  "This model's maximum context length is 4097 tokens. However, your messages resulted in 4100 tokens. Please reduce the length of the messages.".

Definition example_row1 : Conversation :=
  mkConversation "df31ae23ab8b75b5643c2f846c570997edc71333" "消息 1" 1
    (Some "openai") (Some "gpt-4o").
Definition example_row2 : Conversation :=
  mkConversation "6c33f71694bf41a18c844a96d1f62f153e5f6f44" "消息 2" 2
    (Some "openai") (Some "gpt-4o").
Definition example_db : convoDB := mkConvoDB [example_row1; example_row2].

(** A row whose title is the id of [example_row1]. *)
Definition example_row3 : Conversation :=
  mkConversation "fc5012d8c67073ea0a46a3c05488a0e1d87df74b"
    "df31ae23ab8b75b5643c2f846c570997edc71333" 3 (Some "openai") (Some "gpt-4o").

Definition example_blob_path : string :=
  "/data/conversations/df31ae23ab8b75b5643c2f846c570997edc71333.gob".

(** A configuration with one stdio server, and a world in which every
    client call succeeds and the tool answers with one text block. *)
Definition example_server : MCPServerConfig :=
  mkMCPServerConfig "stdio" "mcp-fs" [] ["--root"; "/tmp"] "".

Definition example_config (maxRetries : Z) : Config :=
  {| API := "openai"; Model_ := "gpt-4o"; User := ""; MaxTokens := 0;
     Temperature := 1%float; Stop := []; TopP := 1%float; TopK := 50;
     NoLimit := false; MaxRetries := maxRetries;
     MCPServers := {[ "fs" := example_server ]}; MCPDisable := [];
     Prefix := ""; Show_ := ""; ShowLast := false; Dirs := false; Delete_ := [];
     DeleteOlderThan := 0; ShowHelp := false; List_ := false;
     ListRoles := false; Settings := false; ResetSettings := false |}.

Definition example_world : mcp_world string :=
  {| os_Environ := [];
     strconv_Quote := λ s, s;
     json_Unmarshal := λ data, inl data;
     client_New := λ _, None;
     client_Start := λ _, None;
     client_Initialize := λ _, None;
     client_CallTool := λ _ tool _, inl (mkCallToolResult [TextContent tool] false) |}.

Definition example_model : Model := mkModel "gpt-4o" "openai" 100 "".
Definition rate_limit_error : openai_Error := mkOpenaiError 429 "" "rate limit".
Definition context_length_error : openai_Error :=
  mkOpenaiError 400 "context_length_exceeded" context_length_message.

(** The configuration of [example_config] with every server disabled. *)
Definition example_config_disabled : Config :=
  {| API := "openai"; Model_ := "gpt-4o"; User := ""; MaxTokens := 0;
     Temperature := 1%float; Stop := []; TopP := 1%float; TopK := 50;
     NoLimit := false; MaxRetries := 5;
     MCPServers := {[ "fs" := example_server ]}; MCPDisable := ["*"];
     Prefix := ""; Show_ := ""; ShowLast := false; Dirs := false; Delete_ := [];
     DeleteOlderThan := 0; ShowHelp := false; List_ := false;
     ListRoles := false; Settings := false; ResetSettings := false |}.

(** * Properties *)

(** ** lastPrompt *)

Lemma lastPrompt_fold (messages : list proto.Message) (result : string) :
  fold_left lastPrompt_step messages result =
  match last (filter (λ m, is_user_prompt m = true) messages) with
  | Some m => proto.Content m
  | None => result
  end.
Proof.
  revert result. induction messages as [|msg messages IH]; intros result; [done|].
  cbn [fold_left]. rewrite IH, filter_cons.
  unfold lastPrompt_step, is_user_prompt.
  destruct (String.eqb (proto.Role msg) proto.RoleUser),
           (String.eqb (proto.Content msg) ""); cbn;
    try (destruct (decide _) as [Heq|Hne]; [discriminate Heq|]); try done.
  destruct (decide _) as [_|Hne]; [|done].
  rewrite last_cons. by destruct (last _).
Qed.

(** C9. For every message list, [lastPrompt] returns the content of the last
    message whose role is "user" and whose content is not empty, and the
    empty string when there is no such message; on the empty list it
    returns the empty string. *)
Theorem lastPrompt_last_user_prompt :
  (∀ messages : list proto.Message, lastPrompt messages = spec_lastPrompt messages)
  ∧ lastPrompt [] = "".
Proof.
  split; [|done]. intros messages. unfold lastPrompt, spec_lastPrompt.
  apply lastPrompt_fold.
Qed.

(** ** stream.CallTool *)

(** C7 does not hold as stated: a caller that returns both a content and an
    error keeps its content, and the error text is not part of it. *)

Lemma CallTool_error_not_folded :
  proto.Content (stream.CallTool "call-1" "srv_tool" "{}" caller_partial).1
    = "partial output"
  ∧ strings_Contains "partial output" (error_Error (errorString "boom")) = false
  ∧ proto.Err (stream.CallTool "call-1" "srv_tool" "{}" caller_partial).2
    = Some (errorString "boom").
Proof. by vm_compute. Qed.

(** C7, amended. [CallTool] returns a message of role "tool" whose single
    tool call carries the given id, name and argument bytes, with [IsError]
    set exactly when the caller returned an error, and a status with the
    name and the caller's error; the content of the message is the error's
    text when the caller returned an error and an empty content, and the
    caller's content in every other case. *)
Theorem CallTool_result (id name data : string)
    (caller : string → string → string * option error) :
  let content := (caller name data).1 in
  let e := (caller name data).2 in
  stream.CallTool id name data caller =
    (proto.mkMessage proto.RoleTool
       (match e with
        | Some e' => if String.eqb content "" then error_Error e' else content
        | None => content
        end)
       [proto.mkToolCall id (proto.mkFunction name data)
          (match e with Some _ => true | None => false end)],
     proto.mkToolCallStatus name e).
Proof.
  cbn zeta. unfold stream.CallTool.
  destruct (caller name data) as [content [e|]]; cbn; f_equal.
Qed.

(** ** ptrOrNil and the sampling controls of the request *)

Lemma ptrOrNil_spec {T : Type} `{number T} (t : T) :
  ptrOrNil t = if number_lt t number_zero then None else Some t.
Proof. done. Qed.

(** C10. The request built by [startCompletionCmd] holds, for each of
    Temperature, TopP and TopK, the nil pointer when the configured value is
    negative and a pointer to exactly the configured value otherwise; and a
    nil control leaves the corresponding field of every adapter's request
    body unset. *)
Theorem startCompletionCmd_sampling (cfg : Config) (mdl : Model)
    (messages : list proto.Message) :
  let request := startCompletionCmd_request cfg mdl messages in
  proto.Temperature request
    = (if PrimFloat.ltb (Temperature cfg) 0 then None else Some (Temperature cfg))
  ∧ proto.TopP request
    = (if PrimFloat.ltb (TopP cfg) 0 then None else Some (TopP cfg))
  ∧ proto.TopK request
    = (if (TopK cfg <? 0)%Z then None else Some (TopK cfg))
  ∧ Forall (λ adapter : proto.Request → sampling_body,
       (if PrimFloat.ltb (Temperature cfg) 0
        then body_Temperature (adapter request) = None else True)
       ∧ (if PrimFloat.ltb (TopP cfg) 0
          then body_TopP (adapter request) = None else True)
       ∧ (if (TopK cfg <? 0)%Z
          then body_TopK (adapter request) = None else True))
      [openai.Request_sampling; anthropic.Request_sampling;
       google.Request_sampling; cohere.Request_sampling;
       ollama.Request_sampling].
Proof.
  cbn zeta. unfold startCompletionCmd_request. cbn [proto.Temperature proto.TopP proto.TopK].
  rewrite !ptrOrNil_spec. cbn [number_lt number_zero number_float64 number_int64].
  split_and!; try done.
  repeat constructor;
    unfold openai.Request_sampling, anthropic.Request_sampling,
      google.Request_sampling, google.Request_GenerationConfig,
      cohere.Request_sampling, ollama.Request_sampling;
    cbn [proto.Temperature proto.TopP proto.TopK proto.API proto.Model
         google.Temperature google.TopP google.TopK];
    rewrite ?ptrOrNil_spec; cbn [number_lt number_zero number_float64 number_int64];
    repeat match goal with
    | |- context [if ?b then _ else _] => destruct b eqn:?
    end; cbn; done.
Qed.

(** ** The retry policy *)

Lemma wrap_int64_id (z : Z) :
  (min_int64 <= z <= max_int64)%Z → wrap_int64 z = z.
Proof.
  unfold min_int64, max_int64, wrap_int64. intros Hz.
  rewrite Z.mod_small; lia.
Qed.

Lemma retry_wait_backoff (k : nat) :
  (k <= 36)%nat → retry_wait (Z.of_nat k) = backoff k.
Proof.
  intros Hk. unfold retry_wait, backoff, pow2_Duration, time_Millisecond.
  destruct (Z.ltb_spec (Z.of_nat k) 0); [lia|].
  destruct (Z.leb_spec (Z.of_nat k) 62); [|lia].
  assert (0 < 2 ^ Z.of_nat k <= 2 ^ 36)%Z as Hpow.
  { split; [apply Z.pow_pos_nonneg; lia|apply Z.pow_le_mono_r; lia]. }
  rewrite wrap_int64_id; [lia|]. unfold min_int64, max_int64.
  change (2 ^ 36)%Z with 68719476736%Z in Hpow. lia.
Qed.

(** A retryable error reaches [retry] with the same counter and the same
    limits, unless cutting the prompt panics. *)
Lemma handleAPIError_retryable (m : Mods) (e : openai_Error) (mdl : Model)
    (content : string) :
  retryable (Config_ m) e mdl = true →
  (∃ m0 content' pe,
      handleAPIError m e mdl content = retry m0 content' pe
      ∧ retries m0 = retries m
      ∧ MaxRetries (Config_ m0) = MaxRetries (Config_ m)
      ∧ NoLimit (Config_ m0) = NoLimit (Config_ m)
      ∧ err pe = e)
  ∨ handleAPIError m e mdl content = (m, [], Msg_panic).
Proof.
  unfold retryable, handleAPIError. intros Hr.
  destruct (StatusCode e =? http_StatusNotFound)%Z.
  { destruct (String.eqb (Fallback mdl) ""); [discriminate Hr|].
    left. eexists _, _, _. split; [reflexivity|]. cbn. auto. }
  destruct (StatusCode e =? http_StatusBadRequest)%Z.
  { destruct (String.eqb (Code e) "context_length_exceeded"); [|discriminate Hr].
    destruct (NoLimit (Config_ m)) eqn:Hnl; [discriminate Hr|].
    destruct (cutPrompt _ _); [|by right].
    left. eexists _, _, _. split; [reflexivity|]. cbn. auto. }
  destruct (StatusCode e =? http_StatusUnauthorized)%Z; [discriminate Hr|].
  destruct (StatusCode e =? http_StatusTooManyRequests)%Z.
  { left. eexists _, _, _. split; [reflexivity|]. cbn. auto. }
  destruct (StatusCode e =? http_StatusInternalServerError)%Z.
  { destruct (String.eqb (Model_API mdl) "openai"); [|discriminate Hr].
    left. eexists _, _, _. split; [reflexivity|]. cbn. auto. }
  left. eexists _, _, _. split; [reflexivity|]. cbn. auto.
Qed.

Lemma Update_completionInput_fields (m : Mods) (content : string) :
  retries (Update_completionInput m content).1 = retries m
  ∧ Config_ (Update_completionInput m content).1 = Config_ m.
Proof.
  unfold Update_completionInput.
  destruct (negb (String.eqb content ""));
    repeat match goal with
    | |- context [if ?b then (?x, _) else _] => destruct b
    end; done.
Qed.

Lemma requests_retryable (fails : list (openai_Error * Model)) :
  ∀ (m : Mods) (r : nat),
    retries m = Z.of_nat r →
    (Z.of_nat r < max_int64)%Z →
    (MaxRetries (Config_ m) <= max_int64)%Z →
    Forall (λ f, retryable (Config_ m) f.1 f.2 = true) fails →
    ∃ m' slept o,
      requests m fails = (m', slept, o)
      ∧ (∀ k wait, slept !! k = Some wait → (S r + k <= 36)%nat →
           wait = backoff (S r + k))
      ∧ (length slept = 0%nat ∨ (Z.of_nat (r + length slept) < MaxRetries (Config_ m))%Z)
      ∧ match o with
        | Surfaced pe =>
            (MaxRetries (Config_ m) <= Z.of_nat (r + length slept) + 1)%Z
            ∧ ∃ mdl, fails !! length slept = Some (err pe, mdl)
        | Completed => length slept = length fails
        | Panicked | Stopped => True
        end.
Proof.
  assert (∀ r k wait, @nil Z !! k = Some wait → (S r + k <= 36)%nat →
            wait = backoff (S r + k)) as Hnil.
  { intros r k wait Hk. by rewrite lookup_nil in Hk. }
  induction fails as [|[e mdl] rest IH]; intros m r Hr Hrmax Hmax Hall.
  { eexists _, _, _. split; [reflexivity|]. cbn. split_and!; [apply Hnil|by left|done]. }
  apply Forall_cons in Hall as [He Hrest]. cbn [fst snd] in He.
  cbn [requests].
  destruct (handleAPIError_retryable m e mdl (Input m) He)
    as [(m0 & content' & pe & -> & Hr0 & Hmax0 & Hnl0 & Hpe)| ->].
  2:{ eexists _, _, _. split; [reflexivity|]. cbn.
      split_and!; [apply Hnil|by left|done]. }
  unfold retry. cbn [retries Config_].
  rewrite Hr0, Hr, wrap_int64_id by (unfold min_int64, max_int64 in *; lia).
  rewrite Hmax0.
  destruct (Z.geb_spec (Z.of_nat r + 1) (MaxRetries (Config_ m))) as [Hcap|Hgo].
  { eexists _, _, _. split; [reflexivity|]. cbn.
    split_and!; [apply Hnil|by left|lia|]. exists mdl. by rewrite Hpe. }
  set (m1 := mkMods (Input m0) (Z.of_nat r + 1) (Config_ m0)).
  assert (∀ k wait, [retry_wait (Z.of_nat r + 1)] !! k = Some wait →
            (S r + k <= 36)%nat → wait = backoff (S r + k)) as Hwait.
  { intros [|k] wait Hk Hle; [|done]. cbn in Hk. simplify_eq.
    replace (Z.of_nat r + 1)%Z with (Z.of_nat (S r + 0)) by lia.
    apply retry_wait_backoff. lia. }
  destruct (Update_completionInput_fields m1 content') as [Hur Huc].
  destruct (Update_completionInput m1 content') as [m2 step]. cbn [fst] in Hur, Huc.
  destruct step;
    [eexists _, _, _; split; [reflexivity|]; cbn [length];
     split_and!; [exact Hwait|right; lia|done]..|].
  destruct (IH m2 (S r)) as (m' & slept & o & Hreq & Hs & Hn & Ho).
  { rewrite Hur. cbn. lia. }
  { lia. }
  { rewrite Huc. cbn. lia. }
  { rewrite Huc. cbn. eapply Forall_impl; [exact Hrest|].
    intros [e' mdl']. unfold retryable. cbn. by rewrite Hnl0. }
  rewrite Hreq. eexists _, _, _. split; [reflexivity|].
  rewrite Huc in Hn, Ho. cbn [Config_ m1] in Hn, Ho. rewrite Hmax0 in Hn, Ho.
  cbn [app length]. split_and!.
  - intros [|k] wait Hk Hle.
    + by apply (Hwait 0%nat).
    + cbn in Hk. replace (S r + S k)%nat with (S (S r) + k)%nat by lia.
      apply Hs; [done|lia].
  - right. destruct Hn as [->|Hn]; lia.
  - destruct o as [|pe'| |]; [by f_equal| |done|done].
    destruct Ho as [Hc Hl]. split; [lia|]. exact Hl.
Qed.

(** C2. From a fresh coordinator, a series of retryable API errors leads
    to at most [MaxRetries] retries; the wait before the n-th retry is
    100ms times 2^n (for n up to 36, beyond which the 64-bit duration
    overflows); and when the cap is reached, which happens after
    [MaxRetries - 1] retries, the error surfaced to the user is the last one
    received, the (n+1)-th for n retries performed. *)
Theorem retry_backoff_and_cap (m : Mods) (fails : list (openai_Error * Model)) :
  retries m = 0%Z →
  (0 <= MaxRetries (Config_ m) <= max_int64)%Z →
  Forall (λ f, retryable (Config_ m) f.1 f.2 = true) fails →
  ∃ m' slept o,
    requests m fails = (m', slept, o)
    ∧ (Z.of_nat (length slept) <= MaxRetries (Config_ m))%Z
    ∧ (∀ n wait, (1 <= n <= 36)%nat → slept !! (n - 1)%nat = Some wait →
         wait = backoff n)
    ∧ match o with
      | Surfaced pe =>
          Z.of_nat (length slept) = Z.max 0 (MaxRetries (Config_ m) - 1)
          ∧ ∃ mdl, fails !! length slept = Some (err pe, mdl)
      | Completed => length slept = length fails
      | Panicked | Stopped => True
      end.
Proof.
  intros Hr Hmax Hall.
  destruct (requests_retryable fails m 0 Hr) as (m' & slept & o & Hreq & Hs & Hn & Ho);
    [unfold max_int64; lia|lia|done|].
  exists m', slept, o. split_and!; [done| | |].
  - destruct Hn as [->|Hn]; cbn in *; lia.
  - intros n wait Hn' Hk. replace n with (1 + (n - 1))%nat by lia.
    apply Hs; [done|lia].
  - destruct o as [|pe| |]; [done| |done|done].
    destruct Ho as [Hc Hl]. split; [|done].
    destruct Hn as [Hz|Hn]; cbn in *; lia.
Qed.

(** ** Cutting the prompt on a context-length error *)

Lemma substring_0_split (s : string) :
  ∀ n : nat, (n <= String.length s)%nat →
    String.length (substring 0 n s) = n
    ∧ ∃ rest, s = substring 0 n s +:+ rest.
Proof.
  induction s as [|c s IH]; intros [|n] Hn; cbn in *; try lia.
  - split; [done|]. by exists "".
  - split; [done|]. by exists (String c s).
  - destruct (IH n) as [Hlen [rest Hrest]]; [lia|].
    split; [by rewrite Hlen|]. exists rest.
    change (String c s = String c (substring 0 n s +:+ rest)). by f_equal.
Qed.

Lemma len_nonneg (s : string) : (0 <= len s)%Z.
Proof. unfold len. lia. Qed.

(** What [cutPrompt] returns when the two token counts were found, the
    limit is not above the count and the reduction fits 64 bits. *)
Lemma cutPrompt_found (msg prompt whole d1 d2 : string) :
  let maxt := (strconv_Atoi d1).1 in
  let current := (strconv_Atoi d2).1 in
  let reduceBy := (10 + (current - maxt) * 4)%Z in
  tokenErrRe_FindStringSubmatch msg = [whole; d1; d2] →
  (maxt <= current)%Z →
  (reduceBy <= max_int64)%Z →
  (len prompt <= max_int64)%Z →
  cutPrompt msg prompt =
    Some (if (len prompt >? reduceBy)%Z
          then substring 0 (Z.to_nat (len prompt - reduceBy)) prompt
          else prompt).
Proof.
  intros maxt current reduceBy Hfound Hle Hred Hlen.
  unfold cutPrompt. rewrite Hfound. fold maxt current.
  destruct (Z.gtb_spec maxt current) as [Hgt|_]; [lia|].
  pose proof (len_nonneg prompt) as H0.
  unfold max_int64 in *.
  rewrite (wrap_int64_id (current - maxt)) by (unfold min_int64, max_int64; lia).
  rewrite (wrap_int64_id ((current - maxt) * 4)) by (unfold min_int64, max_int64; lia).
  rewrite (wrap_int64_id (10 + _)) by (unfold min_int64, max_int64; lia).
  fold reduceBy.
  destruct (Z.gtb_spec (len prompt) reduceBy) as [Hcut|Hkeep]; [|done].
  rewrite wrap_int64_id by (unfold min_int64, max_int64; lia).
  unfold slice_to.
  destruct (Z.leb_spec 0 (len prompt - reduceBy)); [|lia].
  destruct (Z.leb_spec (len prompt - reduceBy) (len prompt)); [done|lia].
Qed.

(** C3 does not hold as stated: a prompt that is not longer than the
    reduction is passed to the retry as it is, so its new length is not the
    old one minus [(current - max) * 4 + 10] (which would be negative). *)

Lemma cutPrompt_short_prompt_unchanged :
  tokenErrRe_FindStringSubmatch context_length_message
    = ["This model's maximum context length is 4097 tokens. However, your messages resulted in 4100 tokens";
       "4097"; "4100"]
  ∧ cutPrompt context_length_message "short prompt" = Some "short prompt"
  ∧ (len "short prompt" - ((4100 - 4097) * 4 + 10) = -10)%Z
  ∧ len "short prompt" = 12%Z.
Proof. by vm_compute. Qed.

(** C3, amended. On a 400 error with code context_length_exceeded and
    without --no-limit, when the message gives the two token counts with
    max <= current, the prompt passed to the retry is a prefix of the old
    one: its length is the old length minus [(current - max) * 4 + 10] when
    the old prompt is longer than that reduction, and the old length (the
    prompt is unchanged) otherwise; it is never negative. *)
Theorem context_length_retry_prompt (m : Mods) (e : openai_Error) (mdl : Model)
    (content whole d1 d2 : string) :
  let maxt := (strconv_Atoi d1).1 in
  let current := (strconv_Atoi d2).1 in
  let reduceBy := ((current - maxt) * 4 + 10)%Z in
  StatusCode e = http_StatusBadRequest →
  Code e = "context_length_exceeded" →
  NoLimit (Config_ m) = false →
  tokenErrRe_FindStringSubmatch (Message e) = [whole; d1; d2] →
  (maxt <= current)%Z →
  (reduceBy <= max_int64)%Z →
  (len content <= max_int64)%Z →
  ∃ prompt rest,
    handleAPIError m e mdl content
      = retry m prompt (mkModsError e "超出最大提示词大小。")
    ∧ content = prompt +:+ rest
    ∧ len prompt = (if (len content >? reduceBy)%Z
                    then len content - reduceBy else len content)
    ∧ (0 <= len prompt)%Z.
Proof.
  intros maxt current reduceBy Hstatus Hcode Hnl Hfound Hle Hred Hlen.
  unfold handleAPIError. rewrite Hstatus, Hcode, Hnl. cbn [Z.eqb http_StatusBadRequest
    http_StatusNotFound Pos.eqb].
  rewrite String.eqb_refl.
  rewrite (cutPrompt_found _ _ whole d1 d2 Hfound) by (fold maxt current; lia).
  fold maxt current.
  replace (10 + (current - maxt) * 4)%Z with reduceBy by (unfold reduceBy; lia).
  pose proof (len_nonneg content) as H0.
  destruct (Z.gtb_spec (len content) reduceBy) as [Hcut|Hkeep].
  - destruct (substring_0_split content (Z.to_nat (len content - reduceBy)))
      as [Hl [rest Hrest]]; [unfold len in *; lia|].
    eexists _, rest. split_and!; [reflexivity|exact Hrest| |apply len_nonneg].
    unfold len at 1. rewrite Hl. unfold len in *. lia.
  - exists content, "". split_and!; [reflexivity| |done|done].
    clear. induction content as [|c s IH]; [done|].
    change (String c s = String c (s +:+ "")). by f_equal.
Qed.

(** ** Tool invocation *)

Lemma strings_Cut_first (sep : ascii) (s t : string) :
  contains_byte sep s = false →
  strings_Cut (s +:+ String sep t) sep = Some (s, t).
Proof.
  induction s as [|c s IH]; intros Hs.
  - change ("" +:+ String sep t) with (String sep t). cbn.
    by rewrite Ascii.eqb_refl.
  - cbn in Hs. apply orb_false_elim in Hs as [Hc Hs].
    change (String c s +:+ String sep t) with (String c (s +:+ String sep t)).
    cbn. rewrite Ascii.eqb_sym, Hc, (IH Hs). done.
Qed.

Lemma enabledMCPs_elem (config : Config) (s : string) (server : MCPServerConfig) :
  (s, server) ∈ enabledMCPs config →
  MCPServers config !! s = Some server ∧ isMCPEnabled config s = true.
Proof.
  unfold enabledMCPs. rewrite list_elem_of_omap. intros (name & _ & Hf).
  destruct (isMCPEnabled config name) eqn:Hen; [|done].
  destruct (MCPServers config !! name) as [sv|] eqn:Hsv; [|done].
  cbn in Hf. by simplify_eq.
Qed.

Lemma enabledMCPs_intro (config : Config) (s : string) (server : MCPServerConfig) :
  MCPServers config !! s = Some server → isMCPEnabled config s = true →
  (s, server) ∈ enabledMCPs config.
Proof.
  intros Hsv Hen. unfold enabledMCPs. rewrite list_elem_of_omap.
  exists s. split; [|by rewrite Hen, Hsv].
  rewrite merge_sort_Permutation, list_elem_of_fmap.
  exists (s, server). split; [done|]. by apply elem_of_map_to_list.
Qed.

(** C8. For a server [s] without underscore that the enumeration yields
    (known in the configuration and enabled) and any tool [t], invoking
    [s_t] starts a client for the configuration of [s] and, once the client
    is initialised and the arguments are decoded, calls the tool [t] on it;
    a name without underscore, an unknown server and a disabled server give
    an error and no client is started. *)
Theorem toolCall_splits_on_first_underscore {A : Type} (w : mcp_world A)
    (config : Config) (s t data : string) (server : MCPServerConfig) :
  contains_byte "_" s = false →
  (s, server) ∈ enabledMCPs config →
  toolCall w config (s +:+ "_" +:+ t) data = toolCall_dispatch w server t data
  ∧ (∃ evs, (toolCall_dispatch w server t data).1 = ((initMcpClient w server).1 ++ evs)%list)
  ∧ match (initMcpClient w server).2, toolCall_args w data with
    | inl client, inl args =>
        (toolCall_dispatch w server t data).1
        = ((initMcpClient w server).1 ++ [ev_CallTool client t args; ev_Close client])%list
    | _, _ => True
    end
  ∧ ∀ name data' : string,
      match strings_Cut name "_" with
      | None =>
          (toolCall w config name data').1 = []
          ∧ is_Some (toolCall w config name data').2.2
      | Some (sname, tool) =>
          match MCPServers config !! sname with
          | None =>
              (toolCall w config name data').1 = []
              ∧ is_Some (toolCall w config name data').2.2
          | Some server' =>
              if isMCPEnabled config sname
              then toolCall w config name data' = toolCall_dispatch w server' tool data'
              else (toolCall w config name data').1 = []
                   ∧ is_Some (toolCall w config name data').2.2
          end
      end.
Proof.
  intros Hs Hin. apply enabledMCPs_elem in Hin as [Hsv Hen].
  split_and!.
  - unfold toolCall. change ("_" +:+ t) with (String "_"%char t).
    by rewrite (strings_Cut_first _ _ _ Hs), Hsv, Hen.
  - unfold toolCall_dispatch.
    destruct (initMcpClient w server) as [evs [client|e]]; cbn [fst snd].
    + destruct (toolCall_args w data) as [args|e].
      * destruct (client_CallTool w client t args) as [result|e];
          [destruct (result_IsError result)|]; by eexists.
      * by eexists.
    + exists []. by rewrite app_nil_r.
  - unfold toolCall_dispatch.
    destruct (initMcpClient w server) as [evs [client|e]]; cbn [fst snd]; [|done].
    destruct (toolCall_args w data) as [args|e]; [|done].
    by destruct (client_CallTool w client t args) as [result|e];
      [destruct (result_IsError result)|].
  - intros name data'. unfold toolCall.
    destruct (strings_Cut name "_") as [[sname tool]|]; [|by eauto].
    destruct (MCPServers config !! sname) as [server'|]; [|by eauto].
    destruct (isMCPEnabled config sname); cbn [negb]; by eauto.
Qed.

(** ** The conversation index: Find *)




Lemma length_append (a b : string) :
  String.length (a +:+ b) = (String.length a + String.length b)%nat.
Proof.
  induction a as [|c a IH]; [done|].
  change (String c a +:+ b) with (String c (a +:+ b)). cbn. by rewrite IH.
Qed.


(** [Find] decides on the number of selected rows. *)
Lemma Find_by_count (c : convoDB) (in_ : string) :
  convoDB_Find c in_ =
  match (if (len in_ <? sha1minLen)%Z then findByExactTitle c in_
         else findByIDOrTitle c in_) with
  | [] => inr (wrapError "" errNoMatches (": " +:+ in_))
  | [r] => inl r
  | _ :: _ :: _ => inr (wrapError "" errManyMatches (": " +:+ in_))
  end.
Proof.
  unfold convoDB_Find.
  destruct (if (len in_ <? sha1minLen)%Z then _ else _) as [|r [|r' l]]; try done.
  cbn [length]. destruct (Z.gtb_spec (Z.of_nat (S (S (length l)))) 1); [done|lia].
Qed.

(** C1 does not hold as stated: an input of four bytes or more is a GLOB
    pattern, not a prefix; "????" selects every id of four characters or
    more, so two rows give ManyMatches although no id starts with "????"
    and no title is "????". *)



(** ** The conversation cache *)

(** C4. When the codec reads back what it wrote for [messages], writing
    [messages] under a non-empty id whose file may be created succeeds,
    stores the serialized thread in the file [<id>.gob] of the
    conversations directory, and reading the same id back into an empty
    slice returns [messages] unchanged. *)
Theorem Conversations_Read_Write (g : cache.gob_codec) (fs : FS)
    (c : cache.Conversations) (id : string) (messages : list proto.Message)
    (data tr : string) :
  let path := filepath_Join (cache.Cache_dir (cache.Conversations_cache c))
                (id +:+ cache.cacheExt) in
  id ≠ "" →
  path ∉ denied fs →
  cache.gob_Encode g messages = (data, None) →
  cache.gob_Decode g data [] = (tr, messages, None) →
  ∃ fs', cache.Conversations_Write g fs c id messages = (fs', None)
    ∧ files fs' !! path = Some data
    ∧ cache.Conversations_Read g fs' c id [] = (messages, None).
Proof.
  intros path Hid Hpath Henc Hdec.
  apply String.eqb_neq in Hid.
  unfold cache.Conversations_Write, cache.Conversations_Read,
    cache.Cache_Write, cache.Cache_Read, cache.encode, cache.decode.
  rewrite Hid, Henc. fold path. unfold os_Create.
  destruct (decide (path ∈ denied fs)) as [Hin|_]; [done|].
  eexists. split; [reflexivity|].
  unfold file_Write, os_Open. cbn [files denied].
  rewrite lookup_insert_eq. change (default "" (Some "") +:+ data) with data.
  split; [by rewrite lookup_insert_eq|].
  destruct (decide (path ∈ denied fs)) as [Hin|_]; [done|].
  rewrite ?lookup_insert_eq. cbn beta.
  change (default "" (Some "")) with "". change ("" +:+ data) with data.
  by rewrite Hdec.
Qed.

(** ** Deleting a conversation *)

Lemma filter_none {A : Type} (P : A → Prop) `{∀ x, Decision (P x)} (l : list A) :
  Forall (λ x, ¬ P x) l → filter P l = [].
Proof. induction 1 as [|x l Hx Hl IH]; [done|]. by rewrite filter_cons_False. Qed.



(** ** Blank identifiers *)

(** C6 does not hold as stated: the expiring cache does not validate the
    id.  With an empty id, [Write] creates the file [.<expiresAt>], [Read]
    returns its content and [Delete] removes it, all without error. *)
Lemma ExpiringCache_accepts_empty_id :
  cache.ExpiringCache_Write (mkFS ∅ ∅) (cache.NewExpiring "/data") "" 77 ("token", None)
    = (mkFS {[ "/data/temp/.77" := "token" ]} ∅, None)
  ∧ cache.ExpiringCache_Read (mkFS {[ "/data/temp/.77" := "token" ]} ∅) 3
      (cache.NewExpiring "/data") "" (λ file _, (file, None)) ""
    = (mkFS {[ "/data/temp/.77" := "token" ]} ∅, "token", None)
  ∧ cache.ExpiringCache_Delete (mkFS {[ "/data/temp/.77" := "token" ]} ∅)
      (cache.NewExpiring "/data") ""
    = (mkFS ∅ ∅, None).
Proof. by vm_compute. Qed.

(** C6, amended. [Read], [Write] and [Delete] of the conversation cache
    (the generic [Cache] and [Conversations] on top of it), given an empty
    id, return an error that is InvalidID without touching the file
    system or the caller's state; the expiring cache makes no such check. *)
Theorem Cache_rejects_empty_id (g : cache.gob_codec) (fs : FS) (c : cache.Cache)
    (cs : cache.Conversations) (S : Type)
    (readFn : string → S → S * option error) (st : S)
    (writeFn : string * option error) (messages : list proto.Message) :
  cache.Cache_Read fs c "" readFn st = (st, Some (wrapError "读取: " errInvalidID ""))
  ∧ cache.Cache_Write fs c "" writeFn = (fs, Some (wrapError "写入: " errInvalidID ""))
  ∧ cache.Cache_Delete fs c "" = (fs, Some (wrapError "删除: " errInvalidID ""))
  ∧ cache.Conversations_Read g fs cs "" messages
    = (messages, Some (wrapError "读取: " errInvalidID ""))
  ∧ cache.Conversations_Write g fs cs "" messages
    = (fs, Some (wrapError "写入: " errInvalidID ""))
  ∧ cache.Conversations_Delete fs cs "" = (fs, Some (wrapError "删除: " errInvalidID ""))
  ∧ Forall (λ pre, errors_Is (wrapError pre errInvalidID "") errInvalidID = true)
      ["读取: "; "写入: "; "删除: "].
Proof. split_and!; try done. by repeat constructor. Qed.

(** ** The theorems at concrete inputs *)


Lemma retry_backoff_and_cap_witness :
  let m := mkMods "hi" 0 (example_config 3) in
  let fails := [(rate_limit_error, example_model); (rate_limit_error, example_model);
                (rate_limit_error, example_model); (rate_limit_error, example_model)] in
  retries m = 0%Z
  ∧ (0 <= MaxRetries (Config_ m) <= max_int64)%Z
  ∧ Forall (λ f, retryable (Config_ m) f.1 f.2 = true) fails
  ∧ ∃ m' slept o,
      requests m fails = (m', slept, o)
      ∧ (Z.of_nat (length slept) <= MaxRetries (Config_ m))%Z
      ∧ (∀ n wait, (1 <= n <= 36)%nat → slept !! (n - 1)%nat = Some wait →
           wait = backoff n)
      ∧ match o with
        | Surfaced pe =>
            Z.of_nat (length slept) = Z.max 0 (MaxRetries (Config_ m) - 1)
            ∧ ∃ mdl, fails !! length slept = Some (err pe, mdl)
        | Completed => length slept = length fails
        | Panicked | Stopped => True
        end.
Proof.
  cbv zeta.
  assert (Forall (λ f, retryable (Config_ (mkMods "hi" 0 (example_config 3))) f.1 f.2 = true)
            [(rate_limit_error, example_model); (rate_limit_error, example_model);
             (rate_limit_error, example_model); (rate_limit_error, example_model)]) as Hall.
  { repeat constructor. }
  split; [reflexivity|]. split; [by vm_compute|]. split; [exact Hall|].
  apply (retry_backoff_and_cap (mkMods "hi" 0 (example_config 3)));
    [reflexivity|by vm_compute|exact Hall].
Defined.

Lemma context_length_retry_prompt_witness :
  let m := mkMods "" 0 (example_config 5) in
  let content := "0123456789012345678901234567890" in
  let whole := "This model's maximum context length is 4097 tokens. However, your messages resulted in 4100 tokens" in
  let maxt := (strconv_Atoi "4097").1 in
  let current := (strconv_Atoi "4100").1 in
  let reduceBy := ((current - maxt) * 4 + 10)%Z in
  StatusCode context_length_error = http_StatusBadRequest
  ∧ Code context_length_error = "context_length_exceeded"
  ∧ NoLimit (Config_ m) = false
  ∧ tokenErrRe_FindStringSubmatch (Message context_length_error) = [whole; "4097"; "4100"]
  ∧ (maxt <= current)%Z
  ∧ (reduceBy <= max_int64)%Z
  ∧ (len content <= max_int64)%Z
  ∧ ∃ prompt rest,
      handleAPIError m context_length_error example_model content
        = retry m prompt (mkModsError context_length_error "超出最大提示词大小。")
      ∧ content = prompt +:+ rest
      ∧ len prompt = (if (len content >? reduceBy)%Z
                      then len content - reduceBy else len content)
      ∧ (0 <= len prompt)%Z.
Proof.
  cbv zeta.
  split; [reflexivity|]. split; [reflexivity|]. split; [reflexivity|].
  split; [by vm_compute|]. split; [by vm_compute|]. split; [by vm_compute|].
  split; [by vm_compute|].
  apply (context_length_retry_prompt (mkMods "" 0 (example_config 5))
           context_length_error example_model "0123456789012345678901234567890"
           "This model's maximum context length is 4097 tokens. However, your messages resulted in 4100 tokens"
           "4097" "4100"); by vm_compute.
Defined.

Lemma Conversations_Read_Write_witness :
  let c := cache.NewConversations "/data" in
  let fs := mkFS ∅ ∅ in
  let data := (line_encode example_messages).1 in
  let path := filepath_Join (cache.Cache_dir (cache.Conversations_cache c))
                ("fake" +:+ cache.cacheExt) in
  "fake" ≠ ""
  ∧ (path ∉ denied fs)
  ∧ cache.gob_Encode line_codec example_messages = (data, None)
  ∧ cache.gob_Decode line_codec data [] = (data, example_messages, None)
  ∧ ∃ fs', cache.Conversations_Write line_codec fs c "fake" example_messages = (fs', None)
      ∧ files fs' !! path = Some data
      ∧ cache.Conversations_Read line_codec fs' c "fake" [] = (example_messages, None).
Proof.
  cbv zeta.
  split; [discriminate|]. split; [apply not_elem_of_empty|].
  split; [reflexivity|]. split; [by vm_compute|].
  apply (Conversations_Read_Write line_codec (mkFS ∅ ∅) (cache.NewConversations "/data")
           "fake" example_messages (line_encode example_messages).1
           (line_encode example_messages).1);
    [discriminate|apply not_elem_of_empty|reflexivity|by vm_compute].
Defined.


Lemma toolCall_splits_on_first_underscore_witness :
  let config := example_config 5 in
  contains_byte "_" "fs" = false
  ∧ ("fs", example_server) ∈ enabledMCPs config
  ∧ toolCall example_world config ("fs" +:+ "_" +:+ "read_file") "{}"
    = toolCall_dispatch example_world example_server "read_file" "{}"
  ∧ (toolCall example_world config "fs_read_file" "{}").1
    = [ev_Start (StdioMCPClient "mcp-fs" [] ["--root"; "/tmp"]);
       ev_Initialize (StdioMCPClient "mcp-fs" [] ["--root"; "/tmp"]);
       ev_CallTool (StdioMCPClient "mcp-fs" [] ["--root"; "/tmp"]) "read_file" (Some "{}");
       ev_Close (StdioMCPClient "mcp-fs" [] ["--root"; "/tmp"])].
Proof.
  cbv zeta.
  assert (("fs", example_server) ∈ enabledMCPs (example_config 5)) as Hin.
  { by apply enabledMCPs_intro. }
  split; [reflexivity|]. split; [exact Hin|].
  split; [|by vm_compute].
  apply (toolCall_splits_on_first_underscore example_world (example_config 5)
           "fs" "read_file" "{}" example_server); [reflexivity|exact Hin].
Defined.

(** ** The scenarios of the repository's tests, run on the model *)

Example lastPrompt_multiple_prompts :
  lastPrompt [proto.mkMessage proto.RoleUser "first" [];
              proto.mkMessage proto.RoleAssistant "hallo" [];
              proto.mkMessage proto.RoleUser "middle 1" [];
              proto.mkMessage proto.RoleUser "middle 2" [];
              proto.mkMessage proto.RoleUser "last" []] = "last".
Proof. reflexivity. Qed.

Example Find_after_Save :
  convoDB_Find
    (convoDB_Save (mkConvoDB []) 1 "df31ae23ab8b75b5643c2f846c570997edc71333"
       "消息 1" "openai" "gpt-4o").1 "df31"
  = inl example_row1.
Proof. by vm_compute. Qed.

Example Find_many_matches :
  convoDB_Find
    (mkConvoDB [example_row1;
                mkConversation "df31ae23ab9b75b5641c2f846c571000edc71315" "消息 2" 2
                  (Some "openai") (Some "gpt-4o")]) "df31ae"
  = inr (wrapError "" errManyMatches ": df31ae").
Proof. by vm_compute. Qed.

Example Find_no_match_by_title_prefix :
  convoDB_Find (mkConvoDB [example_row1]) "消息"
  = inr (wrapError "" errNoMatches ": 消息").
Proof. by vm_compute. Qed.

Example Save_without_id_or_title :
  is_Some (convoDB_Save (mkConvoDB []) 1 "" "消息 1" "openai" "gpt-4o").2
  ∧ is_Some (convoDB_Save (mkConvoDB []) 1 "df31" "" "openai" "gpt-4o").2.
Proof. split; by eexists. Qed.

Example cache_Read_missing :
  (cache.Conversations_Read line_codec (mkFS ∅ ∅)
     (cache.NewConversations "/data") "super-fake" []).2
  = Some (wrapError "读取: " ErrNotExist "").
Proof. by vm_compute. Qed.

Example expiring_cache_expired_entry :
  (cache.ExpiringCache_Read
     (cache.ExpiringCache_Write (mkFS ∅ ∅) (cache.NewExpiring "/data") "test" 1000
        ("data", None)).1
     4600 (cache.NewExpiring "/data") "test" (λ file _, (file, None)) "")
  = (mkFS ∅ ∅, "", Some ErrNotExist).
Proof. by vm_compute. Qed.

Example expiring_cache_overwrite :
  (cache.ExpiringCache_Read
     (cache.ExpiringCache_Write
        (cache.ExpiringCache_Write (mkFS ∅ ∅) (cache.NewExpiring "/data") "test" 4600
           ("data 1", None)).1
        (cache.NewExpiring "/data") "test" 8200 ("data 2", None)).1
     1000 (cache.NewExpiring "/data") "test" (λ file _, (file, None)) "").1.2
  = "data 2".
Proof. by vm_compute. Qed.

Example cutPrompt_cuts_a_long_prompt :
  cutPrompt context_length_message "0123456789012345678901234567890"
  = Some "012345678".
Proof. by vm_compute. Qed.

(** * Properties of the helpers, the caches and the conversation store *)

(** ** Lines of text *)

Lemma append_String (c : ascii) (a b : string) :
  String c a +:+ b = String c (a +:+ b).
Proof. done. Qed.

Lemma append_nil_l (b : string) : "" +:+ b = b.
Proof. done. Qed.

Lemma append_nil_r (a : string) : a +:+ "" = a.
Proof.
  induction a as [|c a IH]; [done|]. by rewrite append_String, IH.
Qed.

Lemma append_assoc (a b c : string) : (a +:+ b) +:+ c = a +:+ (b +:+ c).
Proof.
  induction a as [|x a IH]; [done|]. by rewrite !append_String, IH.
Qed.

Lemma strings_Split_cons (s : string) (sep : ascii) :
  ∃ part parts, strings_Split s sep = part :: parts.
Proof.
  induction s as [|c s (part & parts & IH)]; [by eexists _, _|].
  cbn. destruct (Ascii.eqb c sep); [by eexists _, _|].
  rewrite IH. by eexists _, _.
Qed.

Lemma strings_Split_no_sep (s : string) (sep : ascii) :
  Forall (λ part, contains_byte sep part = false) (strings_Split s sep).
Proof.
  induction s as [|c s IH]; [by repeat constructor|].
  cbn. destruct (Ascii.eqb c sep) eqn:Hc; [by constructor|].
  destruct (strings_Split s sep) as [|part parts].
  - repeat constructor. cbn. by rewrite Ascii.eqb_sym, Hc.
  - apply Forall_cons in IH as [Hp Hps]. constructor; [|done].
    cbn. by rewrite Ascii.eqb_sym, Hc.
Qed.

Lemma strings_Join_Split (s : string) (sep : ascii) :
  strings_Join (strings_Split s sep) (String sep "") = s.
Proof.
  induction s as [|c s IH]; [done|].
  cbn [strings_Split]. destruct (Ascii.eqb_spec c sep) as [->|Hne].
  - destruct (strings_Split_cons s sep) as (part & parts & Hs).
    rewrite Hs in IH |- *. cbn [strings_Join]. rewrite append_nil_l.
    cbn [strings_Join] in IH. rewrite append_String, append_nil_l. by f_equal.
  - destruct (strings_Split_cons s sep) as (part & parts & Hs).
    rewrite Hs in IH |- *. cbn [strings_Join] in IH |- *.
    destruct parts; [by f_equal|]. rewrite append_String. by f_equal.
Qed.

Lemma strings_Split_no_sep_id (s : string) (sep : ascii) :
  contains_byte sep s = false → strings_Split s sep = [s].
Proof.
  induction s as [|c s IH]; [done|]. cbn. intros H.
  apply orb_false_elim in H as [Hc Hs]. rewrite Ascii.eqb_sym, Hc, (IH Hs). done.
Qed.

Lemma strings_Split_app (a b : string) (sep : ascii) :
  contains_byte sep a = false →
  strings_Split (a +:+ String sep b) sep = a :: strings_Split b sep.
Proof.
  induction a as [|c a IH]; intros Ha.
  - rewrite append_nil_l. cbn. by rewrite Ascii.eqb_refl.
  - cbn in Ha. apply orb_false_elim in Ha as [Hc Ha].
    rewrite append_String. cbn [strings_Split].
    rewrite Ascii.eqb_sym, Hc, (IH Ha). done.
Qed.

Lemma strings_Split_Join (l : list string) (sep : ascii) :
  l ≠ [] →
  Forall (λ part, contains_byte sep part = false) l →
  strings_Split (strings_Join l (String sep "")) sep = l.
Proof.
  induction l as [|e [|e' l] IH]; intros Hne Hl; [done| |].
  - apply Forall_cons in Hl as [He _]. cbn. by apply strings_Split_no_sep_id.
  - apply Forall_cons in Hl as [He Hl].
    change (strings_Join (e :: e' :: l) (String sep ""))
      with (e +:+ String sep "" +:+ strings_Join (e' :: l) (String sep "")).
    rewrite append_String, append_nil_l, (strings_Split_app _ _ _ He).
    f_equal. by apply IH.
Qed.

Lemma length_strings_Join_tab (l : list string) :
  l ≠ [] →
  String.length (strings_Join (map (String "009"%char) l) (String "010" ""))
  = (String.length (strings_Join l (String "010" "")) + length l)%nat.
Proof.
  induction l as [|e [|e' l] IH]; intros Hne; [done| |].
  - cbn. lia.
  - change (strings_Join (map (String "009"%char) (e :: e' :: l)) (String "010" ""))
      with (String "009" e +:+ String "010" "" +:+
            strings_Join (map (String "009"%char) (e' :: l)) (String "010" "")).
    change (strings_Join (e :: e' :: l) (String "010" ""))
      with (e +:+ String "010" "" +:+ strings_Join (e' :: l) (String "010" "")).
    rewrite !append_String, !append_nil_l. cbn [String.length].
    rewrite !length_append. cbn [String.length length].
    rewrite IH by done. cbn [length]. lia.
Qed.

(** X1. [increaseIndent] puts one tab before every line and changes nothing
    else: the lines of the result are the lines of the input, each behind a
    tab; taking the first byte off every line of the result gives the input
    back; and the result is longer than the input by one byte a line (the
    empty input has one line and becomes a single tab). *)
Theorem increaseIndent_lines (s : string) :
  strings_Split (increaseIndent s) "010"
    = map (String "009"%char) (strings_Split s "010")
  ∧ strings_Join
      (map (λ line, substring 1 (String.length line - 1) line)
         (strings_Split (increaseIndent s) "010")) (String "010" "") = s
  ∧ len (increaseIndent s) = (len s + Z.of_nat (length (strings_Split s "010")))%Z.
Proof.
  assert (strings_Split (increaseIndent s) "010"
          = map (String "009"%char) (strings_Split s "010")) as Hlines.
  { unfold increaseIndent. apply strings_Split_Join.
    - destruct (strings_Split_cons s "010") as (part & parts & ->). done.
    - apply Forall_fmap. eapply Forall_impl; [apply strings_Split_no_sep|].
      intros part Hp. cbn. by rewrite Hp. }
  split_and!; [done| |].
  - rewrite Hlines, <-list_fmap_compose.
    etrans; [|apply (strings_Join_Split s "010")]. f_equal.
    etrans; [|apply list_fmap_id]. apply list_fmap_ext.
    intros i line _. cbn. rewrite Nat.sub_0_r. clear.
    induction line as [|c l IH]; [done|]. cbn. destruct l; [done|]. by f_equal.
  - unfold len, increaseIndent.
    destruct (strings_Split_cons s "010") as (part & parts & Hs).
    rewrite length_strings_Join_tab by (by rewrite Hs).
    rewrite strings_Join_Split. lia.
Qed.

Lemma strings_Cut_Some (s : string) (sep : ascii) (before after : string) :
  strings_Cut s sep = Some (before, after) →
  s = before +:+ String sep after ∧ contains_byte sep before = false.
Proof.
  revert before. induction s as [|c s IH]; intros before; [done|].
  cbn. destruct (Ascii.eqb_spec c sep) as [->|Hne].
  - intros [= <- <-]. done.
  - destruct (strings_Cut s sep) as [[b a]|]; [|done].
    intros [= <- <-]. destruct (IH b eq_refl) as [-> Hb].
    split; [done|]. cbn. rewrite Hb, orb_false_r.
    apply Ascii.eqb_neq. congruence.
Qed.

Lemma strings_Cut_None (s : string) (sep : ascii) :
  strings_Cut s sep = None → contains_byte sep s = false.
Proof.
  induction s as [|c s IH]; [done|]. cbn.
  destruct (Ascii.eqb_spec c sep) as [->|Hne]; [done|].
  destruct (strings_Cut s sep) as [[b a]|]; [done|]. intros _.
  rewrite IH by done. rewrite orb_false_r. apply Ascii.eqb_neq. congruence.
Qed.

(** X2. [firstLine s] holds no line feed; when [s] has a line feed, [s] is
    [firstLine s] followed by a line feed and a rest, and when it has none
    [firstLine s] is [s] itself; [firstLine] of a first line is that
    line. *)
Theorem firstLine_spec (s : string) :
  contains_byte "010" (firstLine s) = false
  ∧ (if contains_byte "010" s
     then ∃ rest, s = firstLine s +:+ String "010" rest
     else firstLine s = s)
  ∧ firstLine (firstLine s) = firstLine s.
Proof.
  assert (∀ a b, contains_byte "010" (a +:+ String "010" b) = true) as Hin.
  { intros a b. induction a as [|c a IH]; [done|].
    rewrite append_String. cbn. by rewrite IH, orb_true_r. }
  assert (∀ t, contains_byte "010" t = false → firstLine t = t) as Hid.
  { intros t Ht. unfold firstLine.
    destruct (strings_Cut t "010") as [[f r]|] eqn:Hc; [|done].
    apply strings_Cut_Some in Hc as [-> _]. by rewrite Hin in Ht. }
  assert (contains_byte "010" (firstLine s) = false) as Hfirst.
  { unfold firstLine. destruct (strings_Cut s "010") as [[first rest]|] eqn:Hcut.
    - by apply strings_Cut_Some in Hcut as [_ ?].
    - by apply strings_Cut_None. }
  split_and!; [done| |by apply Hid].
  destruct (contains_byte "010" s) eqn:Hs; [|by apply Hid].
  unfold firstLine. destruct (strings_Cut s "010") as [[first rest]|] eqn:Hcut.
  - apply strings_Cut_Some in Hcut as [-> _]. by exists rest.
  - apply strings_Cut_None in Hcut. congruence.
Qed.

(** ** The text of a conversation *)

Lemma strings_SplitSeq_Split (s : string) (sep : ascii) :
  strings_SplitSeq s sep = strings_Split s sep.
Proof. induction s as [|c s IH]; [done|]. cbn. by rewrite IH. Qed.

Lemma count_byte_append (c : ascii) (a b : string) :
  count_byte c (a +:+ b) = (count_byte c a + count_byte c b)%nat.
Proof.
  induction a as [|x a IH]; [done|]. rewrite append_String. cbn. rewrite IH. lia.
Qed.

Lemma count_byte_0 (c : ascii) (s : string) :
  contains_byte c s = false → count_byte c s = 0%nat.
Proof.
  induction s as [|x s IH]; [done|]. cbn. intros H.
  apply orb_false_elim in H as [-> H]. by rewrite IH.
Qed.

(** A [strings.Builder] that only grows by writes of [f x]. *)
Lemma fold_left_append {A : Type} (f : A → string) (l : list A) (sb : string) :
  fold_left (λ sb x, sb +:+ f x) l sb
  = sb +:+ fold_left (λ sb x, sb +:+ f x) l "".
Proof.
  revert sb. induction l as [|x l IH]; intros sb; cbn [fold_left].
  - by rewrite append_nil_r.
  - rewrite IH, (IH ("" +:+ f x)), append_nil_l, append_assoc. done.
Qed.

Lemma count_byte_lines (sep : ascii) (pre : string) (lines : list string) :
  contains_byte sep pre = false →
  Forall (λ line, contains_byte sep line = false) lines →
  count_byte sep (fold_left (λ sb line, sb +:+ (pre +:+ line)) lines "") = 0%nat.
Proof.
  intros Hpre. induction 1 as [|line lines Hline _ IH]; [done|].
  cbn [fold_left]. rewrite fold_left_append, count_byte_append, IH.
  rewrite append_nil_l, count_byte_append, !count_byte_0; done.
Qed.

(** X3. The text of [ToolCallStatus.String] has the line feeds of the
    tool's name and three more, or eight more when the call failed, whatever
    the message of the error is: the lines of the message are written one
    after the other, each behind ["> "], and the line feeds between them are
    not written. *)
Theorem ToolCallStatus_String_line_breaks (name : string) (e : option error) :
  count_byte "010" (proto.ToolCallStatus_String (proto.mkToolCallStatus name e))
  = (count_byte "010" name + match e with Some _ => 8 | None => 3 end)%nat.
Proof.
  unfold proto.ToolCallStatus_String. cbn [proto.status_Name proto.Err].
  destruct e as [e|].
  - rewrite fold_left_append. rewrite !count_byte_append.
    rewrite count_byte_lines; [|done|].
    + cbn. lia.
    + rewrite strings_SplitSeq_Split. apply strings_Split_no_sep.
  - rewrite !count_byte_append. cbn. lia.
Qed.

(** A loop whose body only appends to the builder. *)
Lemma fold_left_builder {A : Type} (F : string → A → string) :
  (∀ sb x, F sb x = sb +:+ F "" x) →
  ∀ (l : list A) (sb : string), fold_left F l sb = sb +:+ fold_left F l "".
Proof.
  intros HF. induction l as [|x l IH]; intros sb; cbn [fold_left].
  - by rewrite append_nil_r.
  - rewrite IH, (IH (F "" x)), (HF sb x), append_assoc. done.
Qed.

(** What one message adds to the builder. *)
Lemma Conversation_String_step (cc : list proto.Message) (sb : string) :
    fold_left
      (λ sb msg,
         if String.eqb (proto.Content msg) "" then sb
         else if String.eqb (proto.Role msg) proto.RoleTool then
           fold_left
             (λ sb tool,
                sb +:+ proto.ToolCallStatus_String
                         (proto.mkToolCallStatus (proto.Name (proto.Function_ tool))
                            (if proto.IsError tool
                             then Some (errorString (proto.Content msg)) else None)))
             (proto.ToolCalls msg) sb
         else
           let sb :=
             if String.eqb (proto.Role msg) proto.RoleSystem then sb +:+ "**系统**: "
             else if String.eqb (proto.Role msg) proto.RoleUser then sb +:+ "**用户**: "
             else if String.eqb (proto.Role msg) proto.RoleAssistant then sb +:+ "**助手**: "
             else sb in
           (sb +:+ proto.Content msg) +:+ (LF +:+ LF))
      cc sb
    = sb +:+ proto.Conversation_String cc.
Proof.
  unfold proto.Conversation_String. apply fold_left_builder.
  clear. intros sb msg.
  destruct (String.eqb (proto.Content msg) ""); [by rewrite append_nil_r|].
  destruct (String.eqb (proto.Role msg) proto.RoleTool).
  { apply fold_left_builder. intros sb' tool. by rewrite append_nil_l. }
  cbn zeta.
  destruct (String.eqb (proto.Role msg) proto.RoleSystem);
    [|destruct (String.eqb (proto.Role msg) proto.RoleUser);
      [|destruct (String.eqb (proto.Role msg) proto.RoleAssistant)]];
    by rewrite ?append_assoc, ?append_nil_l.
Qed.

(** X4. [Conversation.String] of a thread in two parts is the text of the
    first part followed by the text of the second, and the messages whose
    content is empty add nothing to it, tool messages included. *)
Theorem Conversation_String_app (a b : list proto.Message) :
  proto.Conversation_String (a ++ b)
    = proto.Conversation_String a +:+ proto.Conversation_String b
  ∧ proto.Conversation_String (filter (λ msg, proto.Content msg ≠ "") a)
    = proto.Conversation_String a.
Proof.
  assert (∀ a b, proto.Conversation_String (a ++ b)
    = proto.Conversation_String a +:+ proto.Conversation_String b) as Happ.
  { clear. intros a b. unfold proto.Conversation_String at 1. rewrite fold_left_app.
    fold (proto.Conversation_String a). apply Conversation_String_step. }
  split; [apply Happ|].
  induction a as [|msg a IH]; [done|].
  rewrite filter_cons.
  change (msg :: a) with ([msg] ++ a)%list. rewrite (Happ [msg] a).
  destruct (decide (proto.Content msg ≠ "")) as [Hne|Heq].
  - change (msg :: filter (λ msg, proto.Content msg ≠ "") a)
      with ([msg] ++ filter (λ msg, proto.Content msg ≠ "") a)%list.
    by rewrite Happ, IH.
  - apply dec_stable in Heq. rewrite IH.
    unfold proto.Conversation_String at 2. cbn [fold_left]. by rewrite Heq.
Qed.

(** ** The request of the Cohere adapter *)

Lemma cohere_messages_no_User (input : list proto.Message) :
  ∀ acc : list cohere.Message,
    Forall (λ m, cohere.User m = None) acc →
    Forall (λ m, cohere.User m = None)
      (fold_left
         (λ messages msg,
            messages ++ [cohere.mkMessage (cohere.fromProtoRole (proto.Role msg))
                           (Some (cohere.mkChatMessage (proto.Content msg))) None None])%list
         input acc).
Proof.
  induction input as [|msg input IH]; intros acc Hacc; [done|].
  cbn [fold_left]. apply IH, Forall_app. split; [done|]. by repeat constructor.
Qed.

(** X5. [cohere.fromProtoMessages] returns for no input.  Every message it
    builds has only its field [Chatbot] set, and it then reads
    [.User.Message] of the last one, a nil pointer; on the empty input it
    indexes an empty slice. *)
Theorem cohere_fromProtoMessages_panics (input : list proto.Message) :
  cohere.fromProtoMessages input = None.
Proof.
  unfold cohere.fromProtoMessages.
  pose proof (cohere_messages_no_User input [] (Forall_nil_2 _)) as Hall.
  destruct (last (fold_left _ input [])) as [m|] eqn:Hm; [|done].
  cbn. rewrite last_lookup in Hm.
  rewrite Forall_lookup in Hall. by rewrite (Hall _ _ Hm).
Qed.

(** ** The order of [enabledMCPs] *)

Lemma Ascii_compare_N (a b : ascii) :
  Ascii.compare a b = N.compare (N_of_ascii a) (N_of_ascii b).
Proof. done. Qed.

Lemma String_compare_trans_le (s1 : string) :
  ∀ s2 s3 : string,
    String.compare s1 s2 ≠ Gt → String.compare s2 s3 ≠ Gt →
    String.compare s1 s3 ≠ Gt.
Proof.
  induction s1 as [|c1 s1 IH]; intros [|c2 s2] [|c3 s3]; cbn; try done.
  rewrite !Ascii_compare_N.
  destruct (N.compare_spec (N_of_ascii c1) (N_of_ascii c2)) as [H12|H12|H12];
    destruct (N.compare_spec (N_of_ascii c2) (N_of_ascii c3)) as [H23|H23|H23];
    destruct (N.compare_spec (N_of_ascii c1) (N_of_ascii c3)) as [H13|H13|H13];
    try done; try lia.
  apply IH.
Qed.

#[global] Instance string_le_trans : Transitive string_le.
Proof.
  intros s1 s2 s3. unfold string_le, String.leb. intros H12 H23.
  pose proof (String_compare_trans_le s1 s2 s3) as Ht.
  destruct (String.compare s1 s2); destruct (String.compare s2 s3);
    destruct (String.compare s1 s3); try done; exfalso; by apply Ht.
Qed.

#[global] Instance string_le_total : Total string_le.
Proof. intros s1 s2. apply String.leb_total. Qed.

Lemma Forall_sublist {A : Type} (P : A → Prop) (k l : list A) :
  sublist k l → Forall P l → Forall P k.
Proof.
  induction 1 as [|x k l Hkl IH|x k l Hkl IH]; intros Hl; [done| |].
  - apply Forall_cons in Hl as [Hx Hl]. constructor; auto.
  - apply Forall_cons in Hl as [_ Hl]. auto.
Qed.

Lemma StronglySorted_sublist {A : Type} (R : relation A) (k l : list A) :
  sublist k l → StronglySorted R l → StronglySorted R k.
Proof.
  induction 1 as [|x k l Hkl IH|x k l Hkl IH]; intros Hl; [done| |].
  - apply StronglySorted_inv in Hl as [Hl Hx]. constructor; [by apply IH|].
 by eapply Forall_sublist.
  - apply StronglySorted_inv in Hl as [Hl _]. by apply IH.
Qed.

Lemma enabledMCPs_names_sublist (config : Config) (names : list string) :
  sublist
    (map fst
       (omap (λ name,
                if isMCPEnabled config name
                then (λ server, (name, server)) <$> MCPServers config !! name
                else None) names))
    names.
Proof.
  induction names as [|name names IH]; [done|]. cbn [omap list_omap].
  destruct (isMCPEnabled config name); [|by constructor].
  destruct (MCPServers config !! name); cbn; by constructor.
Qed.

(** X6. [enabledMCPs] yields the configured servers in the order of their
    names, each name once, and it yields exactly the servers of
    [config.MCPServers] that [isMCPEnabled] accepts. *)
Theorem enabledMCPs_sorted (config : Config) :
  StronglySorted string_le (map fst (enabledMCPs config))
  ∧ NoDup (map fst (enabledMCPs config))
  ∧ ∀ (s : string) (server : MCPServerConfig),
      (s, server) ∈ enabledMCPs config
      ↔ MCPServers config !! s = Some server ∧ isMCPEnabled config s = true.
Proof.
  split_and!.
  - eapply StronglySorted_sublist; [apply enabledMCPs_names_sublist|].
    apply StronglySorted_merge_sort; apply _.
  - eapply sublist_NoDup; [|apply enabledMCPs_names_sublist].
    rewrite merge_sort_Permutation. apply NoDup_fst_map_to_list.
  - intros s server. split; [apply enabledMCPs_elem|].
    intros [Hs Hen]. by apply enabledMCPs_intro.
Qed.

(** ** Clients are closed *)

(** X7. Every client [toolCall] starts is closed.  A call either fails
    before any client is started, or its events are the start of one
    client, then nothing, its initialization, or its initialization and one
    tool call, and at the end the close of that same client; a call that
    returns no error went through the tool call. *)
Theorem toolCall_closes_client {A : Type} (w : mcp_world A) (config : Config)
    (name data : string) :
  let evs := (toolCall w config name data).1 in
  let r := (toolCall w config name data).2 in
  (evs = [] ∧ is_Some r.2)
  ∨ ∃ cli mid,
      evs = (ev_Start cli :: mid ++ [ev_Close cli])%list
      ∧ (mid = [] ∨ mid = [ev_Initialize cli]
         ∨ ∃ tool args, mid = [ev_Initialize cli; ev_CallTool cli tool args])
      ∧ (r.2 = None → ∃ tool args, mid = [ev_Initialize cli; ev_CallTool cli tool args]).
Proof.
  cbn zeta. unfold toolCall.
  destruct (strings_Cut name "_") as [[sname tool]|]; [|left; by eauto].
  destruct (MCPServers config !! sname) as [server|]; [|left; by eauto].
  destruct (isMCPEnabled config sname); cbn [negb]; [|left; by eauto].
  unfold toolCall_dispatch, initMcpClient.
  destruct (if String.eqb (server_Type server) "" || String.eqb (server_Type server) "stdio"
            then Some _ else _) as [cli|]; [|left; by eauto].
  destruct (client_New w cli) as [e|]; [left; by eauto|].
  destruct (client_Start w cli) as [e|].
  { right. exists cli, []. cbn. split_and!; [done|by left|done]. }
  destruct (client_Initialize w cli) as [e|].
  { right. exists cli, [ev_Initialize cli]. cbn. split_and!; [done|by right; left|done]. }
  destruct (toolCall_args w data) as [args|e].
  - right. exists cli, [ev_Initialize cli; ev_CallTool cli tool args].
    destruct (client_CallTool w cli tool args) as [result|e];
      [destruct (result_IsError result)|]; cbn;
      (split_and!; [done|right; right; by eauto|by eauto]).
  - right. exists cli, [ev_Initialize cli]. cbn. split_and!; [done|by right; left|done].
Qed.

(** X8. With ["*"] in [config.MCPDisable] no server is enabled:
    [enabledMCPs] yields nothing, and [toolCall] of any name returns an error
    without starting a client. *)
Theorem MCPDisable_star_disables_all {A : Type} (w : mcp_world A) (config : Config)
    (name data : string) :
  slices_Contains (MCPDisable config) "*" = true →
  enabledMCPs config = []
  ∧ (toolCall w config name data).1 = []
  ∧ is_Some (toolCall w config name data).2.2.
Proof.
  intros Hstar.
  assert (∀ s, isMCPEnabled config s = false) as Hen.
  { intros s. unfold isMCPEnabled. by rewrite Hstar. }
  split_and!.
  - unfold enabledMCPs. induction (merge_sort _ _) as [|n l IH]; [done|].
    cbn [omap list_omap]. by rewrite Hen.
  - unfold toolCall. destruct (strings_Cut name "_") as [[sname tool]|]; [|done].
    destruct (MCPServers config !! sname); [|done]. by rewrite Hen.
  - unfold toolCall. destruct (strings_Cut name "_") as [[sname tool]|]; [|by eauto].
    destruct (MCPServers config !! sname); [|by eauto]. rewrite Hen. by eauto.
Qed.

Lemma MCPDisable_star_disables_all_witness :
  slices_Contains (MCPDisable example_config_disabled) "*" = true
  ∧ enabledMCPs example_config_disabled = []
  ∧ (toolCall example_world example_config_disabled "fs_read_file" "{}").1 = []
  ∧ is_Some (toolCall example_world example_config_disabled "fs_read_file" "{}").2.2.
Proof.
  split; [reflexivity|].
  apply (MCPDisable_star_disables_all example_world example_config_disabled
           "fs_read_file" "{}").
  reflexivity.
Defined.

(** ** Decimal numbers: [strconv.ParseInt] reads what [%d] prints *)

Lemma pretty_N_char_digit (k : N) :
  (k < 10)%N →
  is_digit (pretty_N_char k) = true ∧ (byte_val (pretty_N_char k) - 48 = Z.of_N k)%Z.
Proof.
  intros Hk.
  assert (k = 0 ∨ k = 1 ∨ k = 2 ∨ k = 3 ∨ k = 4 ∨ k = 5 ∨ k = 6 ∨ k = 7
          ∨ k = 8 ∨ k = 9)%N as Hcases by lia.
  repeat destruct Hcases as [->|Hcases]; try subst k; by vm_compute.
Qed.

Lemma all_digits_app (a b : string) :
  all_digits (a +:+ b) = all_digits a && all_digits b.
Proof.
  induction a as [|c a IH]; [done|]. rewrite append_String. cbn.
  by rewrite IH, andb_assoc.
Qed.

Lemma digits_value_app (d : string) :
  all_digits d = true →
  ∀ (acc : Z) (s : string),
    ∃ v, (∀ s', digits_value acc (d +:+ s') = digits_value v s').
Proof.
  induction d as [|c d IH]; intros Hd acc s; [by exists acc|].
  cbn in Hd. apply andb_true_iff in Hd as [Hc Hd].
  destruct (IH Hd (acc * 10 + (byte_val c - 48)) s) as [v Hv].
  exists v. intros s'. rewrite append_String. cbn. by rewrite Hc.
Qed.

(** The digits [pretty_N_go] puts in front of its accumulator. *)
Lemma pretty_N_go_digits (x : N) :
  ∃ d : string,
    (∀ s, pretty_N_go x s = d +:+ s)
    ∧ all_digits d = true
    ∧ ((0 < x)%N → d ≠ "")
    ∧ (∀ acc s, digits_value acc (d +:+ s)
                = digits_value (acc * 10 ^ Z.of_nat (String.length d) + Z.of_N x) s).
Proof.
  induction (N.lt_wf_0 x) as [x _ IH].
  destruct (decide (x = 0)%N) as [->|Hx].
  { exists "". split_and!; [done|done|lia|]. intros acc s.
    rewrite append_nil_l. f_equal. cbn. lia. }
  destruct (IH (x `div` 10)%N) as (d' & Hgo & Hd' & _ & Hval).
  { apply N.div_lt; lia. }
  destruct (pretty_N_char_digit (x `mod` 10)%N) as [Hc Hcv].
  { apply N.mod_lt. lia. }
  exists (d' +:+ String (pretty_N_char (x `mod` 10)) "").
  split_and!.
  - intros s. rewrite pretty_N_go_step by lia. rewrite Hgo.
    by rewrite append_assoc.
  - rewrite all_digits_app, Hd'. cbn. by rewrite Hc.
  - intros _. destruct d'; done.
  - intros acc s. rewrite append_assoc, append_String, append_nil_l.
    rewrite Hval. cbn [digits_value]. rewrite Hc, Hcv. f_equal.
    rewrite length_append. cbn [String.length].
    rewrite Nat2Z.inj_add, Z.pow_add_r by lia.
    rewrite N2Z.inj_div, N2Z.inj_mod.
    change (Z.of_N 10) with 10%Z. change (10 ^ Z.of_nat 1)%Z with 10%Z.
    pose proof (Z.div_mod (Z.of_N x) 10). lia.
Qed.

Lemma digit_not_sign (c : ascii) (r : string) (A : Type) (x y z : A) :
  is_digit c = true →
  match String c r with
  | String "-" _ => x
  | String "+" _ => y
  | _ => z
  end = z.
Proof.
  unfold is_digit, byte_val. intros Hc.
  destruct c as [[] [] [] [] [] [] [] []]; try done.
Qed.

Lemma contains_byte_digits (c : ascii) (d : string) :
  is_digit c = false → all_digits d = true → contains_byte c d = false.
Proof.
  intros Hc. induction d as [|x d IH]; [done|]. cbn.
  intros [Hx Hd]%andb_true_iff. rewrite (IH Hd), orb_false_r.
  apply Ascii.eqb_neq. intros ->. congruence.
Qed.

(** [%d] of a 64-bit integer: the decimal digits, after a minus sign for a
    negative number; [strconv.ParseInt] reads it back. *)
Lemma pretty_Z_shape (e : Z) :
  ∃ d : string,
    d ≠ "" ∧ all_digits d = true
    ∧ pretty e = (if (e <? 0)%Z then String "-" d else d)
    ∧ digits_value 0 d = Some (Z.abs e).
Proof.
  destruct e as [|p|p].
  - exists "0". by vm_compute.
  - destruct (pretty_N_go_digits (Npos p)) as (d & Hgo & Hd & Hne & Hval).
    exists d. split_and!; [by apply Hne|done| |].
    + change (pretty (Zpos p)) with (pretty_N_go (Npos p) "").
      by rewrite Hgo, append_nil_r.
    + specialize (Hval 0 ""). rewrite append_nil_r in Hval. rewrite Hval.
      cbn. done.
  - destruct (pretty_N_go_digits (Npos p)) as (d & Hgo & Hd & Hne & Hval).
    exists d. split_and!; [by apply Hne|done| |].
    + change (pretty (Zneg p)) with ("-" +:+ pretty_N_go (Npos p) "").
      by rewrite Hgo, append_nil_r.
    + specialize (Hval 0 ""). rewrite append_nil_r in Hval. rewrite Hval.
      cbn. done.
Qed.

Lemma strconv_ParseInt_pretty (e : Z) :
  (min_int64 <= e <= max_int64)%Z →
  cache.strconv_ParseInt (pretty e) = (e, None).
Proof.
  intros He. destruct (pretty_Z_shape e) as (d & Hne & Hd & Hp & Hv).
  unfold cache.strconv_ParseInt, strconv_Atoi. rewrite Hp.
  destruct d as [|c d]; [done|].
  cbn in Hd. apply andb_true_iff in Hd as [Hc Hd].
  destruct (Z.ltb_spec e 0) as [Hneg|Hpos].
  - change (String.eqb (String c d) "") with false. cbn iota. rewrite Hv.
    unfold min_int64, max_int64 in *.
    destruct (Z.gtb_spec (Z.abs e) (2 ^ 63)); [lia|]. f_equal. lia.
  - rewrite (digit_not_sign c d _ _ _ _ Hc).
    change (String.eqb (String c d) "") with false. cbn iota. rewrite Hv.
    unfold min_int64, max_int64 in *.
    destruct (Z.gtb_spec (Z.abs e) 9223372036854775807); [lia|]. f_equal. lia.
Qed.

Lemma contains_byte_pretty (c : ascii) (e : Z) :
  is_digit c = false → c ≠ "-"%char → contains_byte c (pretty e) = false.
Proof.
  intros Hc Hm. destruct (pretty_Z_shape e) as (d & Hne & Hd & Hp & Hv).
  rewrite Hp. destruct (e <? 0)%Z; cbn; rewrite ?contains_byte_digits by done;
    [|done].
  rewrite orb_false_r. by apply Ascii.eqb_neq.
Qed.

(** ** Patterns and directories *)

Lemma match_literal_Some (lit s r : string) :
  match_literal lit s = Some r ↔ s = lit +:+ r.
Proof.
  revert s. induction lit as [|a lit IH]; intros s.
  - cbn. rewrite append_nil_l. split; congruence.
  - destruct s as [|b s]; [done|]. cbn. rewrite append_String.
    destruct (Ascii.eqb_spec a b) as [->|Hne].
    + rewrite IH. split; congruence.
    + split; congruence.
Qed.

Lemma match_literal_append (lit r : string) :
  match_literal lit (lit +:+ r) = Some r.
Proof. by apply match_literal_Some. Qed.

Lemma append_inj_l (a b c : string) : a +:+ b = a +:+ c → b = c.
Proof.
  induction a as [|x a IH]; [done|]. rewrite !append_String. intros [= H]. auto.
Qed.

Lemma glob_match_lits (sep : option ascii) (l : string) (toks : list glob_token) :
  ∀ s : string,
    glob_match sep (map tok_lit (list_ascii_of_string l) ++ toks) s
    = match match_literal l s with
      | Some r => glob_match sep toks r
      | None => false
      end.
Proof.
  induction l as [|c l IH]; intros s; [done|].
  cbn [list_ascii_of_string map app glob_match match_literal].
  destruct s as [|c' s]; [done|]. rewrite IH.
  by destruct (Ascii.eqb c c').
Qed.

Lemma glob_match_star_sep (r : string) :
  glob_match (Some "/"%char) [tok_star] r = negb (contains_byte "/" r).
Proof.
  cbn. induction r as [|c r IH]; [done|].
  cbn [is_sep contains_byte]. rewrite IH.
  change (String.eqb (String c r) "") with false. cbn [orb].
  by rewrite negb_orb.
Qed.

Lemma go_pattern_tokens_lits (l : string) (rest : string) :
  no_match_meta l = true →
  ∀ fuel : nat, (String.length l + String.length rest <= fuel)%nat →
    go_pattern_tokens fuel (l +:+ rest)
    = (app (map tok_lit (list_ascii_of_string l)))
        <$> go_pattern_tokens (fuel - String.length l) rest.
Proof.
  unfold no_match_meta. induction l as [|c l IH]; intros Hl fuel Hfuel.
  - rewrite append_nil_l. cbn. rewrite Nat.sub_0_r.
    by destruct (go_pattern_tokens fuel rest).
  - cbn [contains_byte] in Hl.
    rewrite !andb_true_iff, !negb_true_iff, !orb_false_iff in Hl.
    destruct Hl as [[[[H1 Hl1] [H2 Hl2]] [H3 Hl3]] [H4 Hl4]].
    destruct fuel as [|fuel]; [cbn in Hfuel; lia|].
    rewrite append_String. cbn [go_pattern_tokens].
    rewrite (Ascii.eqb_sym c "*"), H1, (Ascii.eqb_sym c "?"), H2,
      (Ascii.eqb_sym c "\"), H4, (Ascii.eqb_sym c "["), H3.
    rewrite IH; [|by rewrite Hl1, Hl2, Hl3, Hl4|cbn in Hfuel; lia].
    cbn [String.length Nat.sub list_ascii_of_string map].
    by destruct (go_pattern_tokens _ rest).
Qed.

(** The pattern of the expiring cache for a plain id: the names [id.rest]
    with a [rest] of one path element. *)
Lemma filepath_Match_id_star (id n : string) :
  no_match_meta id = true →
  filepath_Match (id +:+ ".*") n
  = inl (match match_literal (id +:+ ".") n with
         | Some r => negb (contains_byte "/" r)
         | None => false
         end).
Proof.
  intros Hid. unfold filepath_Match.
  rewrite go_pattern_tokens_lits; [|done|by rewrite length_append].
  rewrite length_append. cbn [String.length].
  replace (String.length id + 2 - String.length id)%nat with 2%nat by lia.
  cbn [go_pattern_tokens fmap option_fmap option_map]. cbn.
  f_equal. rewrite glob_match_lits.
  destruct (match_literal id n) as [r|] eqn:Hr.
  - apply match_literal_Some in Hr as ->.
    destruct r as [|c r].
    + cbn. destruct (match_literal (id +:+ ".") (id +:+ "")) as [r'|] eqn:Hr'; [|done].
      apply match_literal_Some in Hr'. rewrite append_assoc in Hr'.
      by apply append_inj_l in Hr'.
    + cbn [glob_match]. destruct (Ascii.eqb_spec "." c) as [<-|Hne].
      * rewrite glob_match_star_sep.
        assert (id +:+ String "." r = (id +:+ ".") +:+ r) as ->.
        { by rewrite append_assoc. }
        by rewrite match_literal_append.
      * cbn [andb].
        destruct (match_literal (id +:+ ".") (id +:+ String c r)) as [r'|] eqn:Hr'; [|done].
        apply match_literal_Some in Hr'. rewrite append_assoc in Hr'.
        apply append_inj_l in Hr'. change ("." +:+ r') with (String "."%char r') in Hr'.
        congruence.
  - destruct (match_literal (id +:+ ".") n) as [r'|] eqn:Hr'; [|done].
    apply match_literal_Some in Hr'. rewrite append_assoc in Hr'.
    assert (match_literal id n = Some ("." +:+ r')) as Hc by by apply match_literal_Some.
    congruence.
Qed.

Lemma NoDup_omap_inj {A B : Type} (f : A → option B) (l : list A) :
  (∀ x y z, f x = Some z → f y = Some z → x = y) →
  NoDup l → NoDup (omap f l).
Proof.
  intros Hf. induction 1 as [|x l Hx Hl IH]; [constructor|].
  cbn [omap list_omap]. destruct (f x) as [z|] eqn:Hz; [|done].
  constructor; [|done]. rewrite list_elem_of_omap. intros (y & Hy & Hfy).
  by rewrite (Hf x y z Hz Hfy) in Hx.
Qed.

Lemma NoDup_singleton_iff {A : Type} (l : list A) (a : A) :
  NoDup l → (∀ x, x ∈ l ↔ x = a) → l = [a].
Proof.
  intros Hl Ha. destruct l as [|x l].
  - assert (a ∈ @nil A) as H by by apply Ha. by apply not_elem_of_nil in H.
  - assert (x = a) as -> by (apply Ha; left).
    apply NoDup_cons in Hl as [Hx Hl].
    destruct l as [|y l]; [done|].
    assert (y = a) as -> by (apply Ha; right; left).
    exfalso. apply Hx. left.
Qed.

(** The entries of [dir]: one per regular file directly in it. *)
Lemma elem_of_Readdirnames (fs : FS) (dir n : string) :
  n ∈ Readdirnames fs dir
  ↔ is_Some (files fs !! filepath_Join dir n) ∧ n ≠ "" ∧ has_sep n = false.
Proof.
  unfold Readdirnames. rewrite merge_sort_Permutation, list_elem_of_omap.
  unfold filepath_Join. split.
  - intros (path & Hpath & Hn).
    destruct (match_literal (dir +:+ "/") path) as [name|] eqn:Hm; [|done].
    cbn in Hn. destruct (String.eqb_spec name "") as [->|Hne]; [done|].
    cbn in Hn. destruct (has_sep name) eqn:Hsep; [done|]. simplify_eq.
    apply list_elem_of_fmap in Hpath as ([p v] & -> & Hpv).
    apply elem_of_map_to_list in Hpv. cbn [fst] in Hm.
    apply match_literal_Some in Hm as ->.
    rewrite append_assoc in Hpv. split_and!; [by eexists|done|done].
  - intros ([v Hv] & Hne & Hsep). exists (dir +:+ "/" +:+ n). split.
    + apply list_elem_of_fmap. exists (dir +:+ "/" +:+ n, v). split; [done|].
      by apply elem_of_map_to_list.
    + rewrite <-append_assoc, match_literal_append. cbn.
      apply String.eqb_neq in Hne. by rewrite Hne, Hsep.
Qed.

Lemma NoDup_Readdirnames (fs : FS) (dir : string) : NoDup (Readdirnames fs dir).
Proof.
  unfold Readdirnames. rewrite merge_sort_Permutation.
  apply NoDup_omap_inj; [|apply NoDup_fst_map_to_list].
  intros p q n Hp Hq.
  destruct (match_literal (dir +:+ "/") p) as [np|] eqn:Hmp; [|done].
  destruct (match_literal (dir +:+ "/") q) as [nq|] eqn:Hmq; [|done].
  cbn in Hp, Hq.
  destruct (String.eqb np "" || has_sep np); [done|].
  destruct (String.eqb nq "" || has_sep nq); [done|]. simplify_eq.
  apply match_literal_Some in Hmp, Hmq. congruence.
Qed.

(** What [filepath.Glob] returns for the pattern of a plain id. *)
Lemma contains_byte_append (c : ascii) (a b : string) :
  contains_byte c (a +:+ b) = contains_byte c a || contains_byte c b.
Proof.
  induction a as [|x a IH]; [done|]. rewrite append_String. cbn.
  by rewrite IH, orb_assoc.
Qed.

Lemma filepath_Glob_id_star (fs : FS) (dir id : string) :
  no_match_meta id = true →
  contains_byte "/" id = false →
  ∃ l, filepath_Glob fs dir (id +:+ ".*") = inl l
    ∧ NoDup l
    ∧ ∀ p, p ∈ l ↔ ∃ r, p = filepath_Join dir (id +:+ "." +:+ r)
                     ∧ is_Some (files fs !! p) ∧ contains_byte "/" r = false.
Proof.
  intros Hid Hslash. unfold filepath_Glob. rewrite (filepath_Match_id_star id "" Hid).
  eexists. split; [reflexivity|]. split.
  - apply NoDup_omap_inj; [|apply NoDup_Readdirnames].
    intros n1 n2 p H1 H2.
    destruct (filepath_Match _ n1) as [[]|]; [|done..].
    destruct (filepath_Match _ n2) as [[]|]; [|done..].
    injection H1 as <-. injection H2 as H2. unfold filepath_Join in H2.
    by do 2 apply append_inj_l in H2.
  - intros p. rewrite list_elem_of_omap. split.
    + intros (n & Hn & Hp). rewrite (filepath_Match_id_star id n Hid) in Hp.
      destruct (match_literal (id +:+ ".") n) as [r|] eqn:Hr; [|done].
      destruct (contains_byte "/" r) eqn:Hsep; [done|]. cbn in Hp. simplify_eq.
      apply match_literal_Some in Hr as ->.
      apply elem_of_Readdirnames in Hn as (Hfile & _ & _).
      exists r. rewrite <-append_assoc. done.
    + intros (r & -> & Hfile & Hsep). exists (id +:+ "." +:+ r). split.
      * apply elem_of_Readdirnames. split_and!; [done| |].
        -- destruct id; done.
        -- unfold has_sep. rewrite !contains_byte_append, Hslash, Hsep. done.
      * rewrite (filepath_Match_id_star _ _ Hid).
        rewrite <-append_assoc, match_literal_append, Hsep. done.
Qed.

(** ** The expiring cache *)

Lemma remove_all_ok (l : list string) :
  ∀ fs : FS,
    denied fs = ∅ → NoDup l → (∀ p, p ∈ l → is_Some (files fs !! p)) →
    ∃ fs', cache.remove_all fs l = (fs', None)
      ∧ denied fs' = ∅
      ∧ ∀ p, files fs' !! p = if decide (p ∈ l) then None else files fs !! p.
Proof.
  induction l as [|x l IH]; intros fs Hden Hnd Hl.
  { exists fs. split_and!; [done|done|]. intros p.
    destruct (decide (p ∈ [])) as [H|_]; [by apply not_elem_of_nil in H|done]. }
  apply NoDup_cons in Hnd as [Hx Hnd].
  cbn [cache.remove_all]. unfold os_Remove. rewrite Hden.
  destruct (decide (x ∈ (∅ : gset string))) as [H|_]; [by apply not_elem_of_empty in H|].
  destruct (Hl x) as [v Hv]; [left|]. rewrite Hv.
  destruct (IH (mkFS (delete x (files fs)) ∅)) as (fs' & Hrm & Hden' & Hfiles); [done|done| |].
  { intros p Hp. cbn. rewrite lookup_delete_ne by (intros ->; done).
    apply Hl. by right. }
  exists fs'. split_and!; [done|done|].
  intros p. rewrite Hfiles. cbn [files].
  destruct (decide (p ∈ l)) as [Hp|Hp].
  - rewrite decide_True by (by right). done.
  - destruct (decide (p = x)) as [->|Hne].
    + rewrite decide_True by left. apply lookup_delete_eq.
    + rewrite decide_False by (rewrite elem_of_cons; intros [?|?]; done).
      by apply lookup_delete_ne.
Qed.

Lemma plain_id_parts (id : string) :
  plain_id id = true →
  no_match_meta id = true ∧ contains_byte "/" id = false
  ∧ contains_byte "." id = false.
Proof.
  unfold plain_id, no_match_meta.
  rewrite !andb_true_iff, !negb_true_iff. intros [[[[[H1 H2] H3] H4] H5] H6].
  by rewrite H1, H2, H3, H4, H5, H6.
Qed.

(** [Write] on a file system without denied paths: the files [id.*] of the
    directory are replaced by the one new file. *)
Lemma ExpiringCache_Write_ok (fs : FS) (c : cache.ExpiringCache) (id : string)
    (e : Z) (data : string) (werr : option error) :
  let dir := cache.Cache_dir (cache.Expiring_cache c) in
  let path := filepath_Join dir (cache.getCacheFilename id e) in
  no_match_meta id = true → contains_byte "/" id = false → denied fs = ∅ →
  ∃ fs', cache.ExpiringCache_Write fs c id e (data, werr) = (fs', werr)
    ∧ denied fs' = ∅
    ∧ files fs' !! path = Some data
    ∧ (∀ p, (∀ r, p ≠ filepath_Join dir (id +:+ "." +:+ r)) →
            files fs' !! p = files fs !! p)
    ∧ filepath_Glob fs' dir (id +:+ ".*") = inl [path].
Proof.
  intros dir path Hmeta Hslash Hden.
  unfold cache.ExpiringCache_Write. fold dir. fold path.
  destruct (filepath_Glob_id_star fs dir id Hmeta Hslash) as (l & -> & Hnd & Hl).
  destruct (remove_all_ok l fs Hden Hnd) as (fs1 & -> & Hden1 & Hfiles1).
  { intros p Hp. apply Hl in Hp as (r & _ & Hfile & _). done. }
  unfold os_Create. rewrite Hden1.
  destruct (decide (path ∈ (∅ : gset string))) as [H|_]; [by apply not_elem_of_empty in H|].
  unfold file_Write. cbn [fst snd files denied].
  rewrite lookup_insert_eq. cbn [default]. rewrite append_nil_l, insert_insert_eq.
  eexists. split; [reflexivity|]. cbn [files denied].
  assert (contains_byte "/" (pretty e) = false) as Hpe by (by apply contains_byte_pretty).
  assert (∀ p, (∀ r, p ≠ filepath_Join dir (id +:+ "." +:+ r)) →
            <[path:=data]> (files fs1) !! p = files fs !! p) as Hother.
  { intros p Hp. rewrite lookup_insert_ne by (intros <-; by apply (Hp (pretty e))).
    rewrite Hfiles1. destruct (decide (p ∈ l)) as [Hin|_]; [|done].
    apply Hl in Hin as (r & -> & _). by destruct (Hp r). }
  split_and!; [done|by rewrite lookup_insert_eq|exact Hother|].
  destruct (filepath_Glob_id_star (mkFS (<[path:=data]> (files fs1)) ∅) dir id Hmeta Hslash)
    as (l' & -> & Hnd' & Hl').
  f_equal. apply NoDup_singleton_iff; [done|]. intros p. rewrite Hl'. cbn [files]. split.
  - intros (r & -> & Hfile & Hr).
    destruct (decide (filepath_Join dir (id +:+ "." +:+ r) = path)) as [Heq|Hne]; [done|].
    rewrite lookup_insert_ne in Hfile by done. rewrite Hfiles1 in Hfile.
    destruct (decide (_ ∈ l)) as [Hin|Hnin]; [by destruct Hfile|].
    destruct Hnin. apply Hl. by exists r.
  - intros ->. exists (pretty e). split_and!; [done| |done].
    rewrite lookup_insert_eq. by eexists.
Qed.

Lemma list_ascii_of_string_app (a b : string) :
  list_ascii_of_string (a +:+ b) = (list_ascii_of_string a ++ list_ascii_of_string b)%list.
Proof. induction a as [|c a IH]; [done|]. rewrite append_String. cbn. by rewrite IH. Qed.

Lemma take_until_sep_app (l k : list ascii) :
  Forall (λ c, c ≠ "/"%char) l →
  take_until_sep (l ++ "/"%char :: k) = l.
Proof.
  induction 1 as [|c l Hc Hl IH]; [done|]. cbn.
  apply Ascii.eqb_neq in Hc. by rewrite Hc, IH.
Qed.

Lemma contains_byte_Forall (c : ascii) (s : string) :
  contains_byte c s = false → Forall (λ x, x ≠ c) (list_ascii_of_string s).
Proof.
  induction s as [|x s IH]; [constructor|]. cbn.
  intros [Hx Hs]%orb_false_elim. constructor; [|auto].
  apply Ascii.eqb_neq in Hx. congruence.
Qed.

(** [filepath.Base] of a file of a directory is its name. *)
Lemma filepath_Base_Join (dir n : string) :
  n ≠ "" → contains_byte "/" n = false → filepath_Base (filepath_Join dir n) = n.
Proof.
  intros Hne Hsep. unfold filepath_Base, filepath_Join.
  destruct (String.eqb_spec (dir +:+ "/" +:+ n) "") as [Heq|_].
  { destruct dir; done. }
  assert (rev (list_ascii_of_string (dir +:+ "/" +:+ n))
          = (rev (list_ascii_of_string n) ++ "/"%char :: rev (list_ascii_of_string dir))%list)
    as ->.
  { rewrite !list_ascii_of_string_app, !rev_app_distr. cbn [list_ascii_of_string rev app].
    by rewrite <-app_assoc. }
  pose proof (contains_byte_Forall _ _ Hsep) as Hall.
  assert (Forall (λ x, x ≠ "/"%char) (rev (list_ascii_of_string n))) as Hrev.
  { by apply Forall_rev. }
  assert (drop_trailing_sep
            (rev (list_ascii_of_string n) ++ "/"%char :: rev (list_ascii_of_string dir))
          = (rev (list_ascii_of_string n) ++ "/"%char :: rev (list_ascii_of_string dir))%list)
    as ->.
  { destruct (rev (list_ascii_of_string n)) as [|c l] eqn:Hl.
    { apply (f_equal (@rev ascii)) in Hl. rewrite rev_involutive in Hl.
      destruct n; done. }
    cbn [app drop_trailing_sep]. apply Forall_cons in Hrev as [Hc Hrev].
    by assert (Ascii.eqb c "/" = false) as -> by (by apply Ascii.eqb_neq). }
  rewrite take_until_sep_app by done.
  rewrite rev_involutive, string_of_list_ascii_of_string.
  destruct (String.eqb_spec n ""); done.
Qed.

Lemma getCacheFilename_ok (id : string) (e : Z) :
  contains_byte "/" id = false →
  cache.getCacheFilename id e ≠ ""
  ∧ contains_byte "/" (cache.getCacheFilename id e) = false.
Proof.
  intros Hid. unfold cache.getCacheFilename. split; [by destruct id|].
  rewrite !contains_byte_append, Hid. cbn.
  by rewrite contains_byte_pretty.
Qed.

(** [Read] when the directory holds one file for the id. *)
Lemma ExpiringCache_Read_single {S : Type} (fs : FS) (now : Z)
    (c : cache.ExpiringCache) (id : string) (e : Z) (data : string)
    (readFn : string → S → S * option error) (st : S) :
  let dir := cache.Cache_dir (cache.Expiring_cache c) in
  let path := filepath_Join dir (cache.getCacheFilename id e) in
  plain_id id = true → denied fs = ∅ →
  (min_int64 <= e <= max_int64)%Z →
  filepath_Glob fs dir (id +:+ ".*") = inl [path] →
  files fs !! path = Some data →
  cache.ExpiringCache_Read fs now c id readFn st
  = if (e <? now)%Z
    then (mkFS (delete path (files fs)) (denied fs), st, Some ErrNotExist)
    else (fs, (readFn data st).1, (readFn data st).2).
Proof.
  intros dir path Hid Hden He Hglob Hfile.
  destruct (plain_id_parts id Hid) as (Hmeta & Hslash & Hdot).
  destruct (getCacheFilename_ok id e Hslash) as [Hne Hsep].
  unfold cache.ExpiringCache_Read. fold dir. rewrite Hglob.
  unfold path at 1. rewrite filepath_Base_Join by done.
  unfold cache.getCacheFilename at 1.
  change ("." +:+ pretty e) with (String "."%char (pretty e)).
  rewrite strings_Split_app by done.
  rewrite strings_Split_no_sep_id by (by apply contains_byte_pretty).
  rewrite strconv_ParseInt_pretty by done.
  destruct (e <? now)%Z.
  - unfold os_Remove. rewrite Hden.
    destruct (decide (path ∈ (∅ : gset string))) as [H|_]; [by apply not_elem_of_empty in H|].
    by rewrite Hfile.
  - unfold os_Open. rewrite Hden.
    destruct (decide (path ∈ (∅ : gset string))) as [H|_]; [by apply not_elem_of_empty in H|].
    rewrite Hfile. by destruct (readFn data st).
Qed.

(** X9. In a cache directory of regular files whose files may all be
    written, [Write] of a plain id with an expiry [e] of 64 bits succeeds
    and leaves [<id>.<e>] as the only file of the id, holding the data
    written (older entries of the id are removed); a [Read] of the id at a
    time not after [e] then hands that data to the reader and returns what
    the reader returns. *)
Theorem ExpiringCache_Read_Write {S : Type} (fs : FS) (now : Z)
    (c : cache.ExpiringCache) (id : string) (e : Z) (data : string)
    (readFn : string → S → S * option error) (st : S) :
  let dir := cache.Cache_dir (cache.Expiring_cache c) in
  let path := filepath_Join dir (cache.getCacheFilename id e) in
  let fs' := (cache.ExpiringCache_Write fs c id e (data, None)).1 in
  plain_id id = true → denied fs = ∅ → flat_dir fs dir = true →
  (min_int64 <= e <= max_int64)%Z →
  (now <= e)%Z →
  (cache.ExpiringCache_Write fs c id e (data, None)).2 = None
  ∧ filepath_Glob fs' dir (id +:+ ".*") = inl [path]
  ∧ files fs' !! path = Some data
  ∧ cache.ExpiringCache_Read fs' now c id readFn st
    = (fs', (readFn data st).1, (readFn data st).2).
Proof.
  intros dir path fs' Hid Hden _ He Hnow.
  destruct (plain_id_parts id Hid) as (Hmeta & Hslash & Hdot).
  destruct (ExpiringCache_Write_ok fs c id e data None Hmeta Hslash Hden)
    as (fs1 & Hw & Hden1 & Hfile & _ & Hglob).
  subst fs'. rewrite Hw. cbn [fst snd]. split_and!; [done|done|done|].
  rewrite (ExpiringCache_Read_single fs1 now c id e data) by done.
  destruct (Z.ltb_spec e now); [lia|done].
Qed.

Lemma nil_iff {A : Type} (l : list A) : (∀ x, x ∉ l) → l = [].
Proof. destruct l as [|x l]; [done|]. intros H. destruct (H x). left. Qed.

(** X10. A [Read] after the expiry time of an entry removes its file and
    returns [os.ErrNotExist] without calling the reader; no file of the id
    is left, and every later [Read] reports that the entry was not
    found. *)
Theorem ExpiringCache_Read_expired {S : Type} (fs : FS) (now now' : Z)
    (c : cache.ExpiringCache) (id : string) (e : Z) (data : string)
    (readFn : string → S → S * option error) (st : S) :
  let dir := cache.Cache_dir (cache.Expiring_cache c) in
  let fs' := (cache.ExpiringCache_Write fs c id e (data, None)).1 in
  let fs'' := (cache.ExpiringCache_Read fs' now c id readFn st).1.1 in
  plain_id id = true → denied fs = ∅ → flat_dir fs dir = true →
  (min_int64 <= e <= max_int64)%Z →
  (e < now)%Z →
  cache.ExpiringCache_Read fs' now c id readFn st = (fs'', st, Some ErrNotExist)
  ∧ filepath_Glob fs'' dir (id +:+ ".*") = inl []
  ∧ cache.ExpiringCache_Read fs'' now' c id readFn st
    = (fs'', st, Some (errorString "未找到缓存项")).
Proof.
  intros dir fs' fs'' Hid Hden _ He Hnow.
  destruct (plain_id_parts id Hid) as (Hmeta & Hslash & Hdot).
  destruct (ExpiringCache_Write_ok fs c id e data None Hmeta Hslash Hden)
    as (fs1 & Hw & Hden1 & Hfile & _ & Hglob).
  subst fs'' fs'. rewrite Hw. cbn [fst snd].
  rewrite (ExpiringCache_Read_single fs1 now c id e data) by done.
  destruct (Z.ltb_spec e now); [|lia]. cbn [fst snd]. subst dir.
  set (dir := cache.Cache_dir (cache.Expiring_cache c)) in *.
  set (path := filepath_Join dir (cache.getCacheFilename id e)) in *.
  assert (filepath_Glob (mkFS (delete path (files fs1)) (denied fs1)) dir (id +:+ ".*")
          = inl []) as Hnone.
  { destruct (filepath_Glob_id_star (mkFS (delete path (files fs1)) (denied fs1))
                dir id Hmeta Hslash) as (l & -> & _ & Hl).
    f_equal. apply nil_iff. intros p Hp. apply Hl in Hp as (r & -> & Hfile' & Hr).
    cbn [files] in Hfile'.
    destruct (decide (filepath_Join dir (id +:+ "." +:+ r) = path)) as [Heq|Hne].
    - rewrite Heq, lookup_delete_eq in Hfile'. by destruct Hfile'.
    - rewrite lookup_delete_ne in Hfile' by done.
      destruct (filepath_Glob_id_star fs1 dir id Hmeta Hslash) as (l1 & Hl1 & _ & Hin).
      assert (l1 = [path]) as -> by congruence.
      assert (filepath_Join dir (id +:+ "." +:+ r) ∈ [path]) as Hmem.
      { apply Hin. by exists r. }
      apply list_elem_of_singleton in Hmem. done. }
  split_and!; [done|done|].
  unfold cache.ExpiringCache_Read. fold dir. by rewrite Hnone.
Qed.

Lemma ExpiringCache_Read_Write_witness :
  let fs := mkFS {[ "/data/temp/test.100" := "data 1" ]} ∅ in
  let c := cache.NewExpiring "/data" in
  let readFn := λ (file : string) (_ : string), (file, @None error) in
  let dir := cache.Cache_dir (cache.Expiring_cache c) in
  let path := filepath_Join dir (cache.getCacheFilename "test" 4600) in
  let fs' := (cache.ExpiringCache_Write fs c "test" 4600 ("data 2", None)).1 in
  plain_id "test" = true ∧ denied fs = ∅ ∧ flat_dir fs dir = true
  ∧ (min_int64 <= 4600 <= max_int64)%Z
  ∧ (1000 <= 4600)%Z
  ∧ (cache.ExpiringCache_Write fs c "test" 4600 ("data 2", None)).2 = None
  ∧ filepath_Glob fs' dir ("test" +:+ ".*") = inl [path]
  ∧ files fs' !! path = Some "data 2"
  ∧ cache.ExpiringCache_Read fs' 1000 c "test" readFn ""
    = (fs', (readFn "data 2" "").1, (readFn "data 2" "").2).
Proof.
  cbv zeta.
  split; [reflexivity|]. split; [reflexivity|]. split; [by vm_compute|].
  split; [by vm_compute|]. split; [lia|].
  apply (ExpiringCache_Read_Write (mkFS {[ "/data/temp/test.100" := "data 1" ]} ∅)
           1000 (cache.NewExpiring "/data") "test" 4600 "data 2"
           (λ (file : string) (_ : string), (file, @None error)) "");
    [reflexivity|reflexivity|by vm_compute|by vm_compute|lia].
Defined.

Lemma ExpiringCache_Read_expired_witness :
  let fs := mkFS ∅ ∅ in
  let c := cache.NewExpiring "/data" in
  let readFn := λ (file : string) (_ : string), (file, @None error) in
  let dir := cache.Cache_dir (cache.Expiring_cache c) in
  let fs' := (cache.ExpiringCache_Write fs c "test" 1000 ("data", None)).1 in
  let fs'' := (cache.ExpiringCache_Read fs' 4600 c "test" readFn "").1.1 in
  plain_id "test" = true ∧ denied fs = ∅ ∧ flat_dir fs dir = true
  ∧ (min_int64 <= 1000 <= max_int64)%Z
  ∧ (1000 < 4600)%Z
  ∧ cache.ExpiringCache_Read fs' 4600 c "test" readFn "" = (fs'', "", Some ErrNotExist)
  ∧ filepath_Glob fs'' dir ("test" +:+ ".*") = inl []
  ∧ cache.ExpiringCache_Read fs'' 0 c "test" readFn ""
    = (fs'', "", Some (errorString "未找到缓存项")).
Proof.
  cbv zeta.
  split; [reflexivity|]. split; [reflexivity|]. split; [by vm_compute|].
  split; [by vm_compute|]. split; [lia|].
  apply (ExpiringCache_Read_expired (mkFS ∅ ∅) 4600 0 (cache.NewExpiring "/data")
           "test" 1000 "data" (λ (file : string) (_ : string), (file, @None error)) "");
    [reflexivity|reflexivity|by vm_compute|by vm_compute|lia].
Defined.

(** ** Ids with a dot *)

Lemma strings_Split_cat (a b : string) (sep : ascii) :
  strings_Split (a +:+ String sep b) sep
  = (strings_Split a sep ++ strings_Split b sep)%list.
Proof.
  induction a as [|c a IH].
  - rewrite append_nil_l. cbn. by rewrite Ascii.eqb_refl.
  - rewrite append_String. cbn [strings_Split]. rewrite IH.
    destruct (Ascii.eqb c sep); [done|].
    destruct (strings_Split_cons a sep) as (part & parts & ->). done.
Qed.

Lemma strings_Split_contains (s : string) (sep : ascii) :
  contains_byte sep s = true →
  ∃ p1 p2 parts, strings_Split s sep = p1 :: p2 :: parts.
Proof.
  induction s as [|c s IH]; [done|]. cbn.
  rewrite (Ascii.eqb_sym sep c).
  destruct (Ascii.eqb c sep); cbn [orb].
  - intros _. destruct (strings_Split_cons s sep) as (part & parts & ->). by eexists _, _, _.
  - intros Hs. destruct (IH Hs) as (p1 & p2 & parts & ->). by eexists _, _, _.
Qed.

(** X11. An entry whose id has a dot can be written and never read:
    [Write] succeeds and stores the data in [<id>.<e>], and every [Read] of
    the id fails on the file name, which does not split into two parts at
    its dots. *)
Theorem ExpiringCache_dotted_id_unreadable {S : Type} (fs : FS) (now : Z)
    (c : cache.ExpiringCache) (id : string) (e : Z) (data : string)
    (readFn : string → S → S * option error) (st : S) :
  let dir := cache.Cache_dir (cache.Expiring_cache c) in
  let path := filepath_Join dir (cache.getCacheFilename id e) in
  let fs' := (cache.ExpiringCache_Write fs c id e (data, None)).1 in
  no_match_meta id = true → contains_byte "/" id = false →
  contains_byte "." id = true →
  denied fs = ∅ → flat_dir fs dir = true →
  (cache.ExpiringCache_Write fs c id e (data, None)).2 = None
  ∧ files fs' !! path = Some data
  ∧ cache.ExpiringCache_Read fs' now c id readFn st
    = (fs', st, Some (errorString "无效的缓存文件名")).
Proof.
  intros dir path fs' Hmeta Hslash Hdot Hden _.
  destruct (ExpiringCache_Write_ok fs c id e data None Hmeta Hslash Hden)
    as (fs1 & Hw & Hden1 & Hfile & _ & Hglob).
  subst fs'. rewrite Hw. cbn [fst snd]. split_and!; [done|done|].
  destruct (getCacheFilename_ok id e Hslash) as [Hne Hsep].
  unfold cache.ExpiringCache_Read. subst dir. rewrite Hglob.
  rewrite filepath_Base_Join by done.
  unfold cache.getCacheFilename.
  change ("." +:+ pretty e) with (String "."%char (pretty e)).
  rewrite strings_Split_cat.
  destruct (strings_Split_contains id "." Hdot) as (p1 & p2 & parts & ->).
  destruct (strings_Split_cons (pretty e) ".") as (q & qs & ->).
  cbn [app]. by destruct parts.
Qed.

Lemma ExpiringCache_dotted_id_unreadable_witness :
  let fs := mkFS ∅ ∅ in
  let c := cache.NewExpiring "/data" in
  let readFn := λ (file : string) (_ : string), (file, @None error) in
  let dir := cache.Cache_dir (cache.Expiring_cache c) in
  let path := filepath_Join dir (cache.getCacheFilename "api.example.com" 4600) in
  let fs' := (cache.ExpiringCache_Write fs c "api.example.com" 4600 ("token", None)).1 in
  no_match_meta "api.example.com" = true ∧ contains_byte "/" "api.example.com" = false
  ∧ contains_byte "." "api.example.com" = true
  ∧ denied fs = ∅ ∧ flat_dir fs dir = true
  ∧ (cache.ExpiringCache_Write fs c "api.example.com" 4600 ("token", None)).2 = None
  ∧ files fs' !! path = Some "token"
  ∧ cache.ExpiringCache_Read fs' 1000 c "api.example.com" readFn ""
    = (fs', "", Some (errorString "无效的缓存文件名")).
Proof.
  cbv zeta.
  split; [reflexivity|]. split; [reflexivity|]. split; [reflexivity|].
  split; [reflexivity|]. split; [by vm_compute|].
  apply (ExpiringCache_dotted_id_unreadable (mkFS ∅ ∅) 1000 (cache.NewExpiring "/data")
           "api.example.com" 4600 "token"
           (λ (file : string) (_ : string), (file, @None error)) "");
    [reflexivity|reflexivity|reflexivity|reflexivity|by vm_compute].
Defined.

(** ** Entries of different ids *)

#[global] Instance string_le_antisymm : AntiSymm eq string_le.
Proof. intros s1 s2. apply String.leb_antisym. Qed.

Lemma omap_filter_fmap {A B : Type} (P : A → Prop) `{∀ x, Decision (P x)}
    (f : A → B) (g : A → option B) (l : list A) :
  (∀ x, g x = if decide (P x) then Some (f x) else None) →
  omap g l = f <$> filter P l.
Proof.
  intros Hg. induction l as [|x l IH]; [done|].
  cbn [omap list_omap]. rewrite filter_cons, Hg, IH.
  by destruct (decide (P x)).
Qed.

(** [filepath.Glob] sees the files that match the pattern and nothing
    else. *)
Lemma filepath_Glob_ext (fs1 fs2 : FS) (dir pattern : string) :
  (∀ n, filepath_Match pattern n = inl true →
        is_Some (files fs1 !! filepath_Join dir n)
        ↔ is_Some (files fs2 !! filepath_Join dir n)) →
  filepath_Glob fs1 dir pattern = filepath_Glob fs2 dir pattern.
Proof.
  intros Hfiles. unfold filepath_Glob.
  destruct (filepath_Match pattern "") as [_|?]; [|done]. f_equal.
  rewrite !(omap_filter_fmap (λ n, filepath_Match pattern n = inl true)
              (filepath_Join dir)).
  2,3: intros n; destruct (filepath_Match pattern n) as [[]|];
       destruct (decide _) as [Hd|Hd]; try done; by destruct Hd.
  f_equal. apply (StronglySorted_unique string_le).
  - eapply StronglySorted_sublist; [apply sublist_filter|].
    apply StronglySorted_merge_sort; apply _.
  - eapply StronglySorted_sublist; [apply sublist_filter|].
    apply StronglySorted_merge_sort; apply _.
  - apply NoDup_Permutation.
    + apply NoDup_filter, NoDup_Readdirnames.
    + apply NoDup_filter, NoDup_Readdirnames.
    + intros n. rewrite !list_elem_of_filter, !elem_of_Readdirnames.
      split; intros (Hm & Hf & Hrest); (split; [done|]); (split; [|done]);
        by apply (Hfiles n Hm).
Qed.

Lemma dotted_names_differ (id1 id2 r1 r2 : string) :
  contains_byte "." id1 = false → contains_byte "." id2 = false →
  id1 +:+ "." +:+ r1 = id2 +:+ "." +:+ r2 → id1 = id2.
Proof.
  intros H1 H2 Heq.
  pose proof (strings_Cut_first "." id1 r1 H1) as C1.
  pose proof (strings_Cut_first "." id2 r2 H2) as C2.
  change (String "."%char r1) with ("." +:+ r1) in C1.
  change (String "."%char r2) with ("." +:+ r2) in C2.
  rewrite Heq in C1. congruence.
Qed.

(** Two file systems that agree on the files [id.*] of the directory give
    the same answer to a read of [id]. *)
Lemma ExpiringCache_Read_ext {S : Type} (fs1 fs2 : FS) (now : Z)
    (c : cache.ExpiringCache) (id : string)
    (readFn : string → S → S * option error) (st : S) :
  let dir := cache.Cache_dir (cache.Expiring_cache c) in
  no_match_meta id = true → contains_byte "/" id = false →
  denied fs1 = denied fs2 →
  (∀ r, files fs1 !! filepath_Join dir (id +:+ "." +:+ r)
        = files fs2 !! filepath_Join dir (id +:+ "." +:+ r)) →
  (cache.ExpiringCache_Read fs1 now c id readFn st).1.2
    = (cache.ExpiringCache_Read fs2 now c id readFn st).1.2
  ∧ (cache.ExpiringCache_Read fs1 now c id readFn st).2
    = (cache.ExpiringCache_Read fs2 now c id readFn st).2.
Proof.
  intros dir Hmeta Hslash Hden Hfiles.
  assert (filepath_Glob fs1 dir (id +:+ ".*") = filepath_Glob fs2 dir (id +:+ ".*"))
    as Hglob.
  { apply filepath_Glob_ext. intros n Hn.
    rewrite (filepath_Match_id_star id n Hmeta) in Hn.
    destruct (match_literal (id +:+ ".") n) as [r|] eqn:Hr; [|done].
    apply match_literal_Some in Hr as ->. rewrite append_assoc.
    by rewrite Hfiles. }
  unfold cache.ExpiringCache_Read. fold dir. rewrite Hglob.
  destruct (filepath_Glob_id_star fs2 dir id Hmeta Hslash) as (l & -> & _ & Hl).
  destruct l as [|match0 l]; [done|].
  destruct (Hl match0) as [(r & -> & _ & _) _]; [left|].
  destruct (strings_Split _ ".") as [|? [|part1 [|? ?]]]; try done.
  destruct (cache.strconv_ParseInt part1) as [expiresAt [?|]]; [done|].
  destruct (expiresAt <? now)%Z.
  - unfold os_Remove. rewrite Hden, Hfiles.
    destruct (decide _); [done|]. by destruct (files fs2 !! _).
  - unfold os_Open. rewrite Hden, Hfiles.
    destruct (decide _); [done|]. destruct (files fs2 !! _); [|done].
    by destruct (readFn _ st).
Qed.

Lemma ExpiringCache_Delete_ok (fs : FS) (c : cache.ExpiringCache) (id : string) :
  let dir := cache.Cache_dir (cache.Expiring_cache c) in
  no_match_meta id = true → contains_byte "/" id = false → denied fs = ∅ →
  ∃ fs', cache.ExpiringCache_Delete fs c id = (fs', None)
    ∧ denied fs' = ∅
    ∧ (∀ p, (∀ r, p ≠ filepath_Join dir (id +:+ "." +:+ r)) →
            files fs' !! p = files fs !! p)
    ∧ filepath_Glob fs' dir (id +:+ ".*") = inl [].
Proof.
  intros dir Hmeta Hslash Hden. unfold cache.ExpiringCache_Delete. fold dir.
  destruct (filepath_Glob_id_star fs dir id Hmeta Hslash) as (l & -> & Hnd & Hl).
  destruct (remove_all_ok l fs Hden Hnd) as (fs1 & -> & Hden1 & Hfiles1).
  { intros p Hp. apply Hl in Hp as (r & _ & Hfile & _). done. }
  exists fs1. split_and!; [done|done| |].
  - intros p Hp. rewrite Hfiles1. destruct (decide (p ∈ l)) as [Hin|_]; [|done].
    apply Hl in Hin as (r & -> & _). by destruct (Hp r).
  - destruct (filepath_Glob_id_star fs1 dir id Hmeta Hslash) as (l' & -> & _ & Hl').
    f_equal. apply nil_iff. intros p Hp. apply Hl' in Hp as (r & -> & Hfile & Hr).
    rewrite Hfiles1 in Hfile. destruct (decide (_ ∈ l)) as [Hin|Hnin]; [by destruct Hfile|].
    destruct Hnin. apply Hl. by exists r.
Qed.

(** X12. Writing or deleting the entry of one plain id leaves the [Read]
    of another plain id as it was: the reader is left in the same state and
    the same error is returned. *)
Theorem ExpiringCache_ids_independent {S : Type} (fs : FS) (now : Z)
    (c : cache.ExpiringCache) (id1 id2 : string) (e : Z)
    (writeFn : string * option error)
    (readFn : string → S → S * option error) (st : S) :
  let dir := cache.Cache_dir (cache.Expiring_cache c) in
  let read := λ fs, cache.ExpiringCache_Read fs now c id2 readFn st in
  plain_id id1 = true → plain_id id2 = true → id1 ≠ id2 →
  denied fs = ∅ → flat_dir fs dir = true →
  Forall (λ fs', (read fs').1.2 = (read fs).1.2 ∧ (read fs').2 = (read fs).2)
    [(cache.ExpiringCache_Write fs c id1 e writeFn).1;
     (cache.ExpiringCache_Delete fs c id1).1].
Proof.
  intros dir read Hid1 Hid2 Hne Hden _.
  destruct (plain_id_parts id1 Hid1) as (Hmeta1 & Hslash1 & Hdot1).
  destruct (plain_id_parts id2 Hid2) as (Hmeta2 & Hslash2 & Hdot2).
  assert (∀ r r', filepath_Join dir (id2 +:+ "." +:+ r)
                  ≠ filepath_Join dir (id1 +:+ "." +:+ r')) as Hdiff.
  { intros r r' Heq. unfold filepath_Join in Heq.
    do 2 apply append_inj_l in Heq. apply dotted_names_differ in Heq; done. }
  destruct writeFn as [data werr].
  destruct (ExpiringCache_Write_ok fs c id1 e data werr Hmeta1 Hslash1 Hden)
    as (fsw & -> & Hdenw & _ & Hw & _).
  destruct (ExpiringCache_Delete_ok fs c id1 Hmeta1 Hslash1 Hden)
    as (fsd & -> & Hdend & Hd & _).
  cbn [fst]. repeat constructor; unfold read.
  - apply ExpiringCache_Read_ext; [done|done|congruence|].
    intros r. apply Hw. intros r'. apply Hdiff.
  - apply ExpiringCache_Read_ext; [done|done|congruence|].
    intros r. apply Hw. intros r'. apply Hdiff.
  - apply ExpiringCache_Read_ext; [done|done|congruence|].
    intros r. apply Hd. intros r'. apply Hdiff.
  - apply ExpiringCache_Read_ext; [done|done|congruence|].
    intros r. apply Hd. intros r'. apply Hdiff.
Qed.

Lemma ExpiringCache_ids_independent_witness :
  let fs := mkFS {[ "/data/temp/b.200" := "token b" ]} ∅ in
  let c := cache.NewExpiring "/data" in
  let readFn := λ (file : string) (_ : string), (file, @None error) in
  let dir := cache.Cache_dir (cache.Expiring_cache c) in
  let read := λ fs, cache.ExpiringCache_Read fs 100 c "b" readFn "" in
  plain_id "a" = true ∧ plain_id "b" = true ∧ "a" ≠ "b"
  ∧ denied fs = ∅ ∧ flat_dir fs dir = true
  ∧ Forall (λ fs', (read fs').1.2 = (read fs).1.2 ∧ (read fs').2 = (read fs).2)
      [(cache.ExpiringCache_Write fs c "a" 4600 ("token a", None)).1;
       (cache.ExpiringCache_Delete fs c "a").1].
Proof.
  cbv zeta.
  split; [reflexivity|]. split; [reflexivity|]. split; [discriminate|].
  split; [reflexivity|]. split; [by vm_compute|].
  apply (ExpiringCache_ids_independent (mkFS {[ "/data/temp/b.200" := "token b" ]} ∅)
           100 (cache.NewExpiring "/data") "a" "b" 4600 ("token a", None)
           (λ (file : string) (_ : string), (file, @None error)) "");
    [reflexivity|reflexivity|discriminate|reflexivity|by vm_compute].
Defined.

(** ** The conversation cache: conversations do not interfere *)

Lemma append_inj_r (a b c : string) : a +:+ c = b +:+ c → a = b.
Proof.
  revert b. induction a as [|x a IH]; intros [|y b] Heq; [done| | |].
  - assert (String.length ("" +:+ c) = String.length (String y b +:+ c)) as Hlen
      by congruence.
    rewrite !length_append in Hlen. cbn in Hlen. lia.
  - assert (String.length (String x a +:+ c) = String.length ("" +:+ c)) as Hlen
      by congruence.
    rewrite !length_append in Hlen. cbn in Hlen. lia.
  - rewrite !append_String in Heq. injection Heq as -> Heq. f_equal. auto.
Qed.

(** X13. Writing or deleting the conversation of one id leaves the [Read]
    of every other id as it was. *)
Theorem Conversations_ids_independent (g : cache.gob_codec) (fs : FS)
    (c : cache.Conversations) (id1 id2 : string)
    (messages1 messages : list proto.Message) :
  let read := λ fs, cache.Conversations_Read g fs c id2 messages in
  id1 ≠ id2 → has_sep id1 = false → has_sep id2 = false →
  read (cache.Conversations_Write g fs c id1 messages1).1 = read fs
  ∧ read (cache.Conversations_Delete fs c id1).1 = read fs.
Proof.
  intros read Hne _ _.
  set (p1 := filepath_Join (cache.Cache_dir (cache.Conversations_cache c))
               (id1 +:+ cache.cacheExt)).
  set (p2 := filepath_Join (cache.Cache_dir (cache.Conversations_cache c))
               (id2 +:+ cache.cacheExt)).
  assert (p1 ≠ p2) as Hpath.
  { unfold p1, p2, filepath_Join. intros Heq. do 2 apply append_inj_l in Heq.
    by apply append_inj_r in Heq. }
  assert (∀ fs', denied fs' = denied fs → files fs' !! p2 = files fs !! p2 →
            read fs' = read fs) as Hread.
  { intros fs' Hden Hfile.
    unfold read, cache.Conversations_Read, cache.Cache_Read, os_Open.
    fold p2. by rewrite Hden, Hfile. }
  split; apply Hread.
  - unfold cache.Conversations_Write, cache.Cache_Write, os_Create. fold p1.
    destruct (String.eqb id1 ""); [done|].
    destruct (decide (p1 ∈ denied fs)); [done|].
    destruct (cache.encode g messages1) as [data [e|]]; reflexivity.
  - unfold cache.Conversations_Write, cache.Cache_Write, os_Create, file_Write. fold p1.
    destruct (String.eqb id1 ""); [done|].
    destruct (decide (p1 ∈ denied fs)); [done|].
    destruct (cache.encode g messages1) as [data [e|]]; cbn [fst files];
      by rewrite !lookup_insert_ne.
  - unfold cache.Conversations_Delete, cache.Cache_Delete, os_Remove. fold p1.
    destruct (String.eqb id1 ""); [done|].
    destruct (decide (p1 ∈ denied fs)); [done|]. by destruct (files fs !! p1).
  - unfold cache.Conversations_Delete, cache.Cache_Delete, os_Remove. fold p1.
    destruct (String.eqb id1 ""); [done|].
    destruct (decide (p1 ∈ denied fs)); [done|].
    destruct (files fs !! p1) eqn:Hf; [|done]. cbn [fst files].
    by rewrite lookup_delete_ne.
Qed.

Lemma Conversations_ids_independent_witness :
  let fs := mkFS {[ example_blob_path := "user:hi" +:+ LF ]} ∅ in
  let c := cache.NewConversations "/data" in
  let id2 := "df31ae23ab8b75b5643c2f846c570997edc71333" in
  let read := λ fs, cache.Conversations_Read line_codec fs c id2 [] in
  "6c33f71694bf41a18c844a96d1f62f153e5f6f44" ≠ id2
  ∧ has_sep "6c33f71694bf41a18c844a96d1f62f153e5f6f44" = false
  ∧ has_sep id2 = false
  ∧ read (cache.Conversations_Write line_codec fs c
            "6c33f71694bf41a18c844a96d1f62f153e5f6f44" example_messages).1 = read fs
  ∧ read (cache.Conversations_Delete fs c "6c33f71694bf41a18c844a96d1f62f153e5f6f44").1
    = read fs.
Proof.
  cbv zeta.
  split; [discriminate|]. split; [reflexivity|]. split; [reflexivity|].
  apply (Conversations_ids_independent line_codec
           (mkFS {[ example_blob_path := "user:hi" +:+ LF ]} ∅)
           (cache.NewConversations "/data")
           "6c33f71694bf41a18c844a96d1f62f153e5f6f44"
           "df31ae23ab8b75b5643c2f846c570997edc71333" example_messages []);
    [discriminate|reflexivity|reflexivity].
Defined.

Example sha1reg_examples :
  sha1reg_MatchString "df31ae23ab8b75b5643c2f846c570997edc71333" = true
  ∧ sha1reg_MatchString "see df31ae23ab8b75b5643c2f846c570997edc71333, please" = true
  ∧ sha1reg_MatchString "df31ae23ab8b75b5643c2f846c570997edc7133" = false
  ∧ sha1reg_MatchString "df31ae23ab8b75b5643c2f846c570997edc713330" = false
  ∧ sha1reg_MatchString "DF31AE23AB8B75B5643C2F846C570997EDC71333" = false
  ∧ sha1reg_MatchString "xdf31ae23ab8b75b5643c2f846c570997edc71333" = false.
Proof. by vm_compute. Qed.

Example strings_TrimSpace_examples :
  strings_TrimSpace "  a b  " = "a b"
  ∧ strings_TrimSpace (String "009" (String "010" "")) = ""
  ∧ strings_TrimSpace "" = ""
  ∧ strings_TrimSpace (String "194" (String "160" "x")) = "x".
Proof. by vm_compute. Qed.

(** ** The conversation index: Save and Delete *)







(** ** Saving a conversation *)


(** X17. When the title [saveConversation] computes is empty, the index
    refuses the row: [saveConversation] returns that error with its reason,
    leaves the index as it was and removes the blob of the id, also a blob
    that was there before the call, so that a [Read] of the id reports that
    the file does not exist. *)
Theorem saveConversation_failed_leaves_no_blob (g : cache.gob_codec)
    (render : string → string) (cfg : Config) (Quiet : bool)
    (CachePath id cacheWriteToTitle : string)
    (db : convoDB) (fs : FS) (now : Z) (messages : list proto.Message)
    (data : string) :
  let convs := cache.NewConversations CachePath in
  let path := filepath_Join (cache.Cache_dir (cache.Conversations_cache convs))
                (id +:+ cache.cacheExt) in
  let r := saveConversation g render cfg false Quiet CachePath id cacheWriteToTitle
             db fs now messages in
  id ≠ "" → saveConversation_title cacheWriteToTitle messages = "" →
  path ∉ denied fs →
  cache.gob_Encode g messages = (data, None) →
  (∃ reason, r.2 = run_return
                     (Some (wrapError "保存失败: " sqlite_constraint "", reason)))
  ∧ r.1.1 = db
  ∧ files r.1.2 !! path = None
  ∧ (cache.Conversations_Read g r.1.2 convs id []).2
    = Some (wrapError "读取: " ErrNotExist "").
Proof.
  intros convs path r Hid Htitle Hpath Henc.
  subst r. unfold saveConversation. rewrite Htitle. fold convs.
  unfold cache.Conversations_Write, cache.Cache_Write, cache.encode.
  apply String.eqb_neq in Hid. rewrite Hid, Henc. fold path.
  unfold os_Create. destruct (decide (path ∈ denied fs)) as [|_]; [done|].
  assert ((convoDB_Save db now id "" (API cfg) (Model_ cfg))
          = (db, Some (wrapError "保存失败: " sqlite_constraint ""))) as ->.
  { unfold convoDB_Save. destruct (existsb _ (rows db)); [done|].
    by rewrite orb_true_r. }
  unfold cache.Conversations_Delete, cache.Cache_Delete, os_Remove, file_Write.
  rewrite Hid. fold path. cbn [files denied].
  destruct (decide (path ∈ denied fs)) as [|_]; [done|].
  rewrite !lookup_insert_eq. cbn [fst snd files denied].
  split_and!; [by eexists|done|by rewrite lookup_delete_eq|].
  unfold cache.Conversations_Read, cache.Cache_Read, os_Open.
  rewrite Hid. fold path. cbn [files denied].
  destruct (decide (path ∈ denied fs)) as [|_]; [done|].
  by rewrite lookup_delete_eq.
Qed.

(** ** Deleting several conversations *)

Lemma Find_inl_selects (c : convoDB) (in_ : string) (convo : Conversation) :
  convoDB_Find c in_ = inl convo →
  convo ∈ rows c ∧ ∀ r, r ∈ rows c → Find_selects in_ r → r = convo.
Proof.
  rewrite Find_by_count. unfold Find_selects, findByExactTitle, findByIDOrTitle.
  destruct (Z.ltb_spec (len in_) sha1minLen) as [Hlt|Hge].
  - destruct (filter _ (rows c)) as [|r0 [|r1 l]] eqn:Hf; intros ?; simplify_eq.
    split.
    + assert (convo ∈ filter (λ r, conv_Title r = in_) (rows c)) as Hin
        by (rewrite Hf; left).
      by apply list_elem_of_filter in Hin as [_ ?].
    + intros r Hr [Ht|[Hlen _]]; [|lia].
      assert (r ∈ filter (λ r, conv_Title r = in_) (rows c)) as Hin
        by (by apply list_elem_of_filter).
      rewrite Hf in Hin. by apply list_elem_of_singleton in Hin.
  - destruct (filter _ (rows c)) as [|r0 [|r1 l]] eqn:Hf; intros ?; simplify_eq.
    split.
    + assert (convo ∈ filter (λ r, sqlite_glob (in_ +:+ "*") (conv_ID r) = true
                                    ∨ conv_Title r = in_) (rows c)) as Hin
        by (rewrite Hf; left).
      by apply list_elem_of_filter in Hin as [_ ?].
    + intros r Hr Hsel.
      assert (r ∈ filter (λ r, sqlite_glob (in_ +:+ "*") (conv_ID r) = true
                                ∨ conv_Title r = in_) (rows c)) as Hin.
      { apply list_elem_of_filter. split; [|done]. destruct Hsel as [?|[_ ?]]; auto. }
      rewrite Hf in Hin. by apply list_elem_of_singleton in Hin.
Qed.

Lemma Find_no_selects (c : convoDB) (in_ : string) :
  (∀ r, r ∈ rows c → ¬ Find_selects in_ r) →
  convoDB_Find c in_ = inr (wrapError "" errNoMatches (": " +:+ in_)).
Proof.
  intros Hno. rewrite Find_by_count.
  unfold Find_selects, findByExactTitle, findByIDOrTitle in *.
  destruct (Z.ltb_spec (len in_) sha1minLen) as [Hlt|Hge].
  - rewrite filter_none; [done|]. apply Forall_forall. intros r Hr Ht.
    apply (Hno r Hr). by left.
  - rewrite filter_none; [done|]. apply Forall_forall. intros r Hr [Hg|Ht].
    + apply (Hno r Hr). by right.
    + apply (Hno r Hr). by left.
Qed.

Lemma filter_all {A : Type} (P : A → Prop) `{∀ x, Decision (P x)} (l : list A) :
  Forall P l → filter P l = l.
Proof.
  induction 1 as [|x l Hx Hl IH]; [done|]. rewrite filter_cons_True by done.
  by rewrite IH.
Qed.

Lemma length_filter_key (rs : list Conversation) (convo : Conversation) :
  NoDup (map conv_ID rs) → convo ∈ rs →
  length rs = S (length (filter (λ r, conv_ID r ≠ conv_ID convo) rs)).
Proof.
  induction rs as [|r rs IH]; intros Hnd Hin; [by apply elem_of_nil in Hin|].
  cbn [map] in Hnd. apply NoDup_cons in Hnd as [Hr Hnd].
  apply elem_of_cons in Hin as [->|Hin].
  - rewrite filter_cons_False by (intros H; by apply H).
    rewrite filter_all; [done|].
    apply Forall_forall. intros r' Hr' Heq. apply Hr. rewrite <-Heq.
    apply list_elem_of_fmap. by exists r'.
  - rewrite filter_cons_True.
    + cbn [length]. by rewrite <-IH.
    + intros Heq. apply Hr. rewrite Heq. apply list_elem_of_fmap. by exists convo.
Qed.

Lemma convoDB_Delete_wf (c : convoDB) (id : string) :
  convoDB_wf c → convoDB_wf (convoDB_Delete c id).1.
Proof.
  intros [Hnd Hne]. split; cbn [convoDB_Delete fst rows].
  - eapply sublist_NoDup; [exact Hnd|]. apply fmap_sublist, sublist_filter.
  - eapply Forall_sublist; [apply sublist_filter|done].
Qed.

Lemma deleteConversation_None (db : convoDB) (fs : FS) (CachePath : string)
    (convo : Conversation) (db1 : convoDB) (fs1 : FS) :
  let path := filepath_Join
                (cache.Cache_dir (cache.Conversations_cache (cache.NewConversations CachePath)))
                (conv_ID convo +:+ cache.cacheExt) in
  deleteConversation db fs CachePath convo = (db1, fs1, None) →
  db1 = (convoDB_Delete db (conv_ID convo)).1
  ∧ fs1 = mkFS (delete path (files fs)) (denied fs)
  ∧ is_Some (files fs !! path).
Proof.
  intros path. unfold deleteConversation. cbn [convoDB_Delete].
  unfold cache.Conversations_Delete, cache.Cache_Delete, os_Remove. fold path.
  destruct (String.eqb (conv_ID convo) ""); [done|].
  destruct (decide (path ∈ denied fs)); [done|].
  destruct (files fs !! path); [|done]. intros ?; by simplify_eq.
Qed.

(** X18. When [deleteConversations] returns nil on a table that satisfies
    its constraints, every entry of [config.Delete] removed one row: the
    table has as many rows less as there were entries, the rows left are rows
    of the old table in their order, no entry finds a conversation any more,
    every row removed has lost its blob, no file was added and no permission
    changed. *)
Theorem deleteConversations_done (Quiet : bool) (CachePath : string)
    (Delete : list string) (db : convoDB) (fs : FS) :
  let blob id := filepath_Join
                   (cache.Cache_dir
                      (cache.Conversations_cache (cache.NewConversations CachePath)))
                   (id +:+ cache.cacheExt) in
  let r := deleteConversations Quiet CachePath Delete db fs in
  convoDB_wf db →
  r.2 = run_return None →
  sublist (rows r.1.1) (rows db)
  ∧ length (rows db) = (length (rows r.1.1) + length Delete)%nat
  ∧ Forall (λ del, convoDB_Find r.1.1 del
                   = inr (wrapError "" errNoMatches (": " +:+ del))) Delete
  ∧ (∀ row, row ∈ rows db → row ∉ rows r.1.1 →
       files r.1.2 !! blob (conv_ID row) = None)
  ∧ files r.1.2 ⊆ files fs
  ∧ denied r.1.2 = denied fs.
Proof.
  intros blob. cbv zeta. revert db fs.
  induction Delete as [|del rest IH]; intros db fs Hwf Hr.
  { cbn. split_and!; try done. }
  cbn [deleteConversations] in *.
  destruct (convoDB_Find db del) as [convo|e] eqn:Hfind; [|done].
  destruct (deleteConversation db fs CachePath convo) as [[db1 fs1] [e|]] eqn:Hdel;
    [done|].
  destruct (negb Quiet && (len (conv_ID convo) <? sha1minLen)%Z); [done|].
  apply deleteConversation_None in Hdel as (-> & -> & Hsome).
  apply Find_inl_selects in Hfind as [Hin Huniq].
  set (db1 := (convoDB_Delete db (conv_ID convo)).1) in *.
  set (fs1 := mkFS _ _) in *.
  destruct (IH db1 fs1 (convoDB_Delete_wf _ _ Hwf) Hr)
    as (Hsub & Hlen & Hall & Hblob & Hfiles & Hden).
  set (r := deleteConversations Quiet CachePath rest db1 fs1) in *.
  assert (sublist (rows db1) (rows db)) as Hsub1 by apply sublist_filter.
  split_and!.
  - by etrans.
  - destruct Hwf as [Hnd _]. rewrite (length_filter_key (rows db) convo Hnd Hin).
    change (filter _ (rows db)) with (rows db1). rewrite Hlen. cbn [length]. lia.
  - constructor; [|done]. apply Find_no_selects. intros row Hrow Hsel.
    assert (row ∈ rows db1) as Hrow1 by (by eapply elem_of_sublist).
    apply list_elem_of_filter in Hrow1 as [Hne Hrow0].
    apply Hne. by rewrite (Huniq row Hrow0 Hsel).
  - intros row Hrow Hnot.
    destruct (decide (conv_ID row = conv_ID convo)) as [Heq|Hne].
    + eapply lookup_weaken_None; [|exact Hfiles]. rewrite Heq.
      apply lookup_delete_eq.
    + apply Hblob; [|done]. by apply list_elem_of_filter.
  - etrans; [exact Hfiles|]. apply delete_subseteq.
  - by rewrite Hden.
Qed.

(** X19. Naming the same conversation twice in [config.Delete] deletes it
    and then fails: the first entry removes the row and the blob, the second
    finds nothing and is returned as NoMatches with the reason of a
    conversation that could not be found, and the entries after it are not
    looked at. *)
Theorem deleteConversations_twice (Quiet : bool) (CachePath in_ : string)
    (rest : list string) (db : convoDB) (fs : FS) (convo : Conversation) :
  convoDB_Find db in_ = inl convo →
  (deleteConversation db fs CachePath convo).2 = None →
  Quiet = true ∨ (sha1minLen <= len (conv_ID convo))%Z →
  deleteConversations Quiet CachePath (in_ :: in_ :: rest) db fs
  = ((convoDB_Delete db (conv_ID convo)).1,
     (deleteConversation db fs CachePath convo).1.2,
     run_return (Some (wrapError "" errNoMatches (": " +:+ in_),
                       "无法找到要删除的对话。"))).
Proof.
  intros Hfind Hdel Hquiet. cbn [deleteConversations]. rewrite Hfind.
  destruct (deleteConversation db fs CachePath convo) as [[db1 fs1] [e|]] eqn:Hd;
    [done|].
  assert (negb Quiet && (len (conv_ID convo) <? sha1minLen)%Z = false) as ->.
  { destruct Hquiet as [->|Hlen]; [done|].
    destruct (Z.ltb_spec (len (conv_ID convo)) sha1minLen); [lia|].
    apply andb_false_r. }
  apply deleteConversation_None in Hd as (-> & -> & _).
  apply Find_inl_selects in Hfind as [Hin Huniq].
  rewrite Find_no_selects; [done|].
  intros row Hrow Hsel. apply list_elem_of_filter in Hrow as [Hne Hrow].
  apply Hne. by rewrite (Huniq row Hrow Hsel).
Qed.

(** ** The theorems above, at concrete inputs *)

Lemma example_db_wf : convoDB_wf example_db.
Proof.
  split.
  - apply (bool_decide_unpack _). by vm_compute.
  - repeat constructor; done.
Qed.




Lemma saveConversation_failed_leaves_no_blob_witness :
  let id := conv_ID example_row3 in
  let messages := [proto.mkMessage proto.RoleAssistant "1, 2, 3, 4" []] in
  let path := "/data/conversations/" +:+ id +:+ ".gob" in
  let fs := mkFS {[ path := "an older blob" ]} ∅ in
  let r := saveConversation line_codec (λ s, s) (example_config 5) false true
             "/data" id "" example_db fs 3 messages in
  id ≠ ""
  ∧ saveConversation_title "" messages = ""
  ∧ (path ∉ denied fs)
  ∧ r.1.1 = example_db
  ∧ files r.1.2 !! path = None.
Proof.
  cbv zeta. split; [done|]. split; [by vm_compute|].
  split; [apply not_elem_of_empty|].
  destruct (saveConversation_failed_leaves_no_blob line_codec (λ s, s)
              (example_config 5) true "/data" (conv_ID example_row3) "" example_db
              (mkFS {[ "/data/conversations/" +:+ conv_ID example_row3 +:+ ".gob"
                       := "an older blob" ]} ∅) 3
              [proto.mkMessage proto.RoleAssistant "1, 2, 3, 4" []]
              (cache.gob_Encode line_codec
                 [proto.mkMessage proto.RoleAssistant "1, 2, 3, 4" []]).1)
    as (_ & H2 & H3 & _);
    [done|by vm_compute|apply not_elem_of_empty|by vm_compute|].
  split; [exact H2|exact H3].
Defined.

Lemma deleteConversations_done_witness :
  let blob id := "/data/conversations/" +:+ id +:+ ".gob" in
  let fs := mkFS {[ blob (conv_ID example_row1) := "blob 1";
                    blob (conv_ID example_row2) := "blob 2" ]} ∅ in
  let r := deleteConversations false "/data" ["df31ae2"; "消息 2"] example_db fs in
  convoDB_wf example_db
  ∧ r.2 = run_return None
  ∧ rows r.1.1 = []
  ∧ Forall (λ del, convoDB_Find r.1.1 del
                   = inr (wrapError "" errNoMatches (": " +:+ del)))
      ["df31ae2"; "消息 2"]
  ∧ files r.1.2 !! blob (conv_ID example_row1) = None
  ∧ files r.1.2 !! blob (conv_ID example_row2) = None.
Proof.
  cbv zeta. split; [exact example_db_wf|]. split; [by vm_compute|].
  destruct (deleteConversations_done false "/data" ["df31ae2"; "消息 2"] example_db
              (mkFS {[ "/data/conversations/" +:+ conv_ID example_row1 +:+ ".gob"
                       := "blob 1";
                       "/data/conversations/" +:+ conv_ID example_row2 +:+ ".gob"
                       := "blob 2" ]} ∅))
    as (_ & _ & H3 & H4 & _); [exact example_db_wf|by vm_compute|].
  split; [by vm_compute|]. split; [exact H3|].
  split; [by vm_compute|by vm_compute].
Defined.

Lemma deleteConversations_twice_witness :
  let fs := mkFS {[ example_blob_path := "blob 1" ]} ∅ in
  convoDB_Find example_db "消息 1" = inl example_row1
  ∧ (deleteConversation example_db fs "/data" example_row1).2 = None
  ∧ (sha1minLen <= len (conv_ID example_row1))%Z
  ∧ deleteConversations false "/data" ["消息 1"; "消息 1"; "消息 2"] example_db fs
    = (mkConvoDB [example_row2], mkFS ∅ ∅,
       run_return (Some (wrapError "" errNoMatches (": " +:+ "消息 1"),
                         "无法找到要删除的对话。"))).
Proof.
  cbv zeta. split; [by vm_compute|]. split; [by vm_compute|].
  split; [by vm_compute|].
  rewrite (deleteConversations_twice false "/data" "消息 1" ["消息 2"] example_db
             (mkFS {[ example_blob_path := "blob 1" ]} ∅) example_row1);
    [|by vm_compute|by vm_compute|right; by vm_compute].
  by vm_compute.
Defined.

(** ** The cache details of a run *)

(** X20. Continuing a conversation that [Find] finds and whose id is a
    SHA-1 ([Continue] set, no [Title]) reads from and writes to the id of
    that conversation, takes API and model from its row when the row records
    both and from the configuration otherwise, and passes the input of
    [Continue], not the title of the row, on as the title. *)
Theorem findCacheOpsDetails_continue (cfg : Config) (ContinueLast : bool)
    (Continue : string) (db : convoDB) (FindHEAD : Conversation + error)
    (newConversationID : nat → string) (found : Conversation) :
  Continue ≠ "" →
  convoDB_Find db Continue = inl found →
  sha1reg_MatchString (conv_ID found) = true →
  findCacheOpsDetails cfg ContinueLast Continue "" db FindHEAD newConversationID
  = inl (mkCacheDetailsMsg (conv_ID found) Continue (conv_ID found)
           (match conv_Model found, conv_API found with
            | Some _, Some a => a
            | _, _ => API cfg
            end)
           (match conv_Model found, conv_API found with
            | Some m, Some _ => m
            | _, _ => Model_ cfg
            end)).
Proof.
  intros Hc Hfind Hsha. apply String.eqb_neq in Hc.
  unfold findCacheOpsDetails, findReadID, ordered_First.
  rewrite Hc. cbv beta iota zeta. rewrite Hc.
  cbn [String.eqb negb andb orb]. rewrite Hfind.
  assert (String.eqb (conv_ID found) "" = false) as Hid.
  { destruct (conv_ID found); [by vm_compute in Hsha|done]. }
  destruct (conv_Model found) as [m|], (conv_API found) as [a|];
    cbv beta iota zeta; by rewrite ?orb_true_r, Hid, Hsha.
Qed.

(** X21. Whatever the flags are, the id [findCacheOpsDetails] chooses for
    writing matches [sha1reg] or is the id of a row of the table, given that
    [newConversationID] returns ids that match [sha1reg]; and the title is
    [Title] when it is set and [Continue] otherwise. *)
Theorem findCacheOpsDetails_WriteID (cfg : Config) (ContinueLast : bool)
    (Continue Title : string) (db : convoDB) (FindHEAD : Conversation + error)
    (newConversationID : nat → string) (d : cacheDetailsMsg) :
  (∀ n, sha1reg_MatchString (newConversationID n) = true) →
  findCacheOpsDetails cfg ContinueLast Continue Title db FindHEAD newConversationID
  = inl d →
  (sha1reg_MatchString (details_WriteID d) = true
   ∨ details_WriteID d ∈ map conv_ID (rows db))
  ∧ details_Title d = ordered_First Title Continue.
Proof.
  intros Hfresh. unfold findCacheOpsDetails.
  destruct (if negb _ || _ || _ then _ else _) as [[[readID model] api]|e]; [|done].
  set (w := if _ || _ then readID else _).
  destruct (String.eqb w "").
  - rewrite Hfresh. cbn [negb]. intros ?; simplify_eq. cbn. auto.
  - destruct (sha1reg_MatchString w) eqn:Hw; cbn [negb].
    + intros ?; simplify_eq. cbn. auto.
    + destruct (convoDB_Find db w) as [convo|e] eqn:Hfind.
      * intros ?; simplify_eq. cbn. split; [|done]. right.
        apply Find_inl_selects in Hfind as [Hin _].
        apply list_elem_of_fmap. by exists convo.
      * intros ?; simplify_eq. cbn. auto.
Qed.


Lemma findCacheOpsDetails_continue_witness :
  convoDB_Find example_db "df31ae2" = inl example_row1
  ∧ sha1reg_MatchString (conv_ID example_row1) = true
  ∧ findCacheOpsDetails (example_config 5) false "df31ae2" "" example_db
      (inl example_row2) (λ _, conv_ID example_row3)
    = inl (mkCacheDetailsMsg (conv_ID example_row1) "df31ae2" (conv_ID example_row1)
             "openai" "gpt-4o").
Proof.
  split; [by vm_compute|]. split; [by vm_compute|].
  apply (findCacheOpsDetails_continue (example_config 5) false "df31ae2" example_db
           (inl example_row2) (λ _, conv_ID example_row3) example_row1);
    [done|by vm_compute|by vm_compute].
Defined.

Lemma findCacheOpsDetails_WriteID_witness :
  let d := mkCacheDetailsMsg (conv_ID example_row3) "a new title" "" "openai" "gpt-4o" in
  findCacheOpsDetails (example_config 5) false "" "a new title" example_db
      (inl example_row2) (λ _, conv_ID example_row3) = inl d
  ∧ (sha1reg_MatchString (details_WriteID d) = true
     ∨ details_WriteID d ∈ map conv_ID (rows example_db))
  ∧ details_Title d = "a new title".
Proof.
  cbv zeta. split; [by vm_compute|].
  apply (findCacheOpsDetails_WriteID (example_config 5) false "" "a new title"
           example_db (inl example_row2) (λ _, conv_ID example_row3));
    [intros _; by vm_compute|by vm_compute].
Defined.


(** ** The request of the Google adapter *)

Lemma google_fromProtoMessages_fold (input : list proto.Message)
    (result : list google.Content) :
  fold_left
    (λ result in_,
       if String.eqb (proto.Role in_) proto.RoleSystem
          || String.eqb (proto.Role in_) proto.RoleUser
       then (result ++ [google.mkContent [google.mkPart (proto.Content in_)]
                          proto.RoleUser])%list
       else result)
    input result
  = (result ++ google.fromProtoMessages input)%list.
Proof.
  unfold google.fromProtoMessages. revert result.
  induction input as [|m input IH]; intros result; cbn [fold_left].
  { by rewrite app_nil_r. }
  destruct (_ || _); [|apply IH].
  rewrite IH, (IH ([] ++ _)%list). by rewrite app_nil_l, app_assoc.
Qed.

(** X23. The Google adapter sends the system and the user messages
    only, in their order and all under the role user: a message of the role
    assistant or tool changes nothing in what is sent. *)
Theorem google_fromProtoMessages_drops_replies (input : list proto.Message) :
  let sent (m : proto.Message) := String.eqb (proto.Role m) proto.RoleSystem
                || String.eqb (proto.Role m) proto.RoleUser in
  google.fromProtoMessages input
  = map (λ m, google.mkContent [google.mkPart (proto.Content m)] proto.RoleUser)
      (filter (λ m, sent m = true) input)
  ∧ Forall (λ c, google.Role c = proto.RoleUser) (google.fromProtoMessages input)
  ∧ (∀ a b, google.fromProtoMessages (a ++ b)
            = (google.fromProtoMessages a ++ google.fromProtoMessages b)%list)
  ∧ (∀ m : proto.Message, proto.Role m = proto.RoleAssistant ∨ proto.Role m = proto.RoleTool →
          ∀ a b, google.fromProtoMessages (a ++ m :: b)
                 = google.fromProtoMessages (a ++ b)).
Proof.
  intros sent.
  assert (∀ a b, google.fromProtoMessages (a ++ b)
                 = (google.fromProtoMessages a ++ google.fromProtoMessages b)%list)
    as Happ.
  { intros a b. unfold google.fromProtoMessages at 1. rewrite fold_left_app.
    fold (google.fromProtoMessages a). apply google_fromProtoMessages_fold. }
  assert (google.fromProtoMessages input
          = map (λ m, google.mkContent [google.mkPart (proto.Content m)]
                        proto.RoleUser)
              (filter (λ m, sent m = true) input)) as Hmap.
  { induction input as [|m input IH]; [done|].
    change (m :: input) with ([m] ++ input)%list. rewrite Happ, IH.
    rewrite filter_app, map_app. f_equal.
    unfold google.fromProtoMessages. cbn [fold_left]. rewrite filter_cons.
    fold (sent m). destruct (sent m); cbn; [|done].
    destruct (decide _); done. }
  split_and!; [done| |done|].
  - rewrite Hmap. apply Forall_fmap, Forall_forall. by intros.
  - intros m Hm a b. rewrite !Happ. f_equal.
    change (m :: b) with ([m] ++ b)%list. rewrite Happ.
    unfold google.fromProtoMessages at 1. cbn [fold_left].
    by destruct Hm as [-> | ->].
Qed.

(** ** The slice helper of the animation *)

Lemma insert_middle {T : Type} (a b : list T) (x y : T) :
  <[length a := y]> (a ++ x :: b)%list = (a ++ y :: b)%list.
Proof. rewrite insert_app_r_alt by lia. by rewrite Nat.sub_diag. Qed.

Lemma reverse_loop_middle {T : Type} (fuel : nat) (a m b : list T) :
  (length m <= 2 * fuel + 1)%nat →
  reverse_loop fuel (Z.of_nat (length a)) (Z.of_nat (length a + length m) - 1)
    (a ++ m ++ b)
  = Some (a ++ rev m ++ b)%list.
Proof.
  revert a m b. induction fuel as [|fuel IH]; intros a m b Hlen.
  - destruct m as [|x [|y m]]; cbn [length] in Hlen; [| |lia].
    + cbn [reverse_loop length]. by destruct (Z.ltb_spec (Z.of_nat (length a))
        (Z.of_nat (length a + 0) - 1)); [lia|].
    + cbn [reverse_loop length]. by destruct (Z.ltb_spec (Z.of_nat (length a))
        (Z.of_nat (length a + 1) - 1)); [lia|].
  - destruct m as [|x m].
    { cbn [reverse_loop length]. by destruct (Z.ltb_spec (Z.of_nat (length a))
        (Z.of_nat (length a + 0) - 1)); [lia|]. }
    destruct m as [|y m' _] using rev_ind.
    { cbn [reverse_loop length]. by destruct (Z.ltb_spec (Z.of_nat (length a))
        (Z.of_nat (length a + 1) - 1)); [lia|]. }
    cbn [length] in *. rewrite length_app in *. cbn [length] in *.
    cbn [reverse_loop].
    destruct (Z.ltb_spec (Z.of_nat (length a))
                (Z.of_nat (length a + S (length m' + 1)) - 1)); [|lia].
    unfold swap.
    destruct (Z.ltb_spec (Z.of_nat (length a)) 0); [lia|].
    destruct (Z.ltb_spec (Z.of_nat (length a + S (length m' + 1)) - 1) 0); [lia|].
    cbn [orb]. rewrite Nat2Z.id.
    replace (Z.to_nat (Z.of_nat (length a + S (length m' + 1)) - 1))
      with (length (a ++ x :: m'))%nat by (rewrite length_app; cbn [length]; lia).
    assert ((a ++ (x :: m' ++ [y]) ++ b)%list = (a ++ x :: m' ++ y :: b)%list) as ->.
    { cbn [app]. by rewrite <-app_assoc. }
    rewrite (list_lookup_middle a _ x (length a)) by done. cbn [mbind option_bind].
    assert ((a ++ x :: m' ++ y :: b)%list !! length (a ++ x :: m') = Some y) as ->.
    { replace (a ++ x :: m' ++ y :: b)%list with ((a ++ x :: m') ++ y :: b)%list
        by (by rewrite <-app_assoc).
      by apply list_lookup_middle. }
    cbn [mbind option_bind].
    replace (<[length (a ++ x :: m'):=x]> (<[length a:=y]> (a ++ x :: m' ++ y :: b)%list))
      with ((a ++ [y]) ++ m' ++ (x :: b))%list.
    + replace (Z.of_nat (length a) + 1) with (Z.of_nat (length (a ++ [y])))
        by (rewrite length_app; cbn [length]; lia).
      replace (Z.of_nat (length a + S (length m' + 1)) - 1 - 1)
        with (Z.of_nat (length (a ++ [y]) + length m') - 1)
        by (rewrite !length_app; cbn [length]; lia).
      rewrite IH by lia. f_equal. cbn [rev]. rewrite rev_app_distr. cbn [rev app].
      by rewrite <-!app_assoc.
    + rewrite insert_middle.
      replace (a ++ y :: m' ++ y :: b)%list with ((a ++ y :: m') ++ y :: b)%list
        by (by rewrite <-app_assoc).
      replace (length (a ++ x :: m')) with (length (a ++ y :: m'))
        by (by rewrite !length_app).
      rewrite insert_middle. by rewrite <-!app_assoc.
Qed.

(** X24. [reverse] indexes no element out of range and returns the
    elements of its input in the opposite order; reversing the result gives
    the input back. *)
Theorem reverse_rev {T : Type} (in_ : list T) :
  reverse in_ = Some (rev in_)
  ∧ (out ← reverse in_; reverse out) = Some in_.
Proof.
  assert (∀ l : list T, reverse l = Some (rev l)) as Hrev.
  { intros l. unfold reverse.
    pose proof (reverse_loop_middle (length l) [] l []) as H.
    cbn [length app] in H. rewrite !app_nil_r in H. apply H. lia. }
  split; [done|].
  rewrite Hrev. cbn. by rewrite Hrev, rev_involutive.
Qed.

(** ** The messages of a request *)

Lemma setupStreamContext_roles_system (loadMsg : string → string + error)
    (roleSetup : list string) (acc : list proto.Message * option error) :
  Forall (λ m, proto.Role m = proto.RoleSystem) acc.1 →
  Forall (λ m, proto.Role m = proto.RoleSystem)
    (fold_left
       (λ acc msg,
          match acc with
          | (messages, Some e) => (messages, Some e)
          | (messages, None) =>
              match loadMsg msg with
              | inr e => (messages, Some e)
              | inl content =>
                  ((messages ++ [proto.mkMessage proto.RoleSystem content []])%list,
                   None)
              end
          end)
       roleSetup acc).1.
Proof.
  revert acc. induction roleSetup as [|msg roleSetup IH]; intros acc Hacc; [done|].
  cbn [fold_left]. apply IH. destruct acc as [messages [e|]]; [done|].
  destruct (loadMsg msg) as [content|e]; [|done].
  cbn [fst] in *. apply Forall_app. split; [done|]. by repeat constructor.
Qed.

(** X25. When [setupStreamContext] returns nil, the last message is
    the prompt of the user: the first bytes of the content (of the trimmed
    prefix, blank line and content when a prefix is set), all of them under
    [NoLimit] and at most [MaxChars] otherwise; [lastPrompt] of the messages
    is that prompt unless it is empty; and when no conversation is read from
    the cache every message before it is a system message. *)
Theorem setupStreamContext_prompt (g : cache.gob_codec)
    (render quote : string → string) (loadMsg : string → string + error)
    (cfg : Config) (Format : bool) (FormatText : gmap string string)
    (FormatAs Role : string) (Roles : gmap string (list string)) (NoCache : bool)
    (cacheReadFromID : string) (fs : FS) (cache : cache.Conversations)
    (content : string) (mod_ : Model) :
  let r := setupStreamContext g render quote loadMsg cfg Format FormatText FormatAs
             Role Roles NoCache cacheReadFromID fs cache content mod_ in
  let full := if String.eqb (Prefix cfg) "" then content
              else strings_TrimSpace (Prefix cfg +:+ LF +:+ LF +:+ content) in
  r.2 = run_return None →
  ∃ pre prompt rest,
    r.1 = (pre ++ [proto.mkMessage proto.RoleUser prompt []])%list
    ∧ full = prompt +:+ rest
    ∧ (NoLimit cfg = true → rest = "")
    ∧ (NoLimit cfg = false → (len prompt <= MaxChars mod_)%Z)
    ∧ (prompt ≠ "" → lastPrompt r.1 = prompt)
    ∧ (NoCache = true ∨ cacheReadFromID = "" →
       Forall (λ m, proto.Role m = proto.RoleSystem) pre).
Proof.
  intros r full. subst r. unfold setupStreamContext.
  set (m0 := if Format && _ then _ else _).
  assert (Forall (λ m, proto.Role m = proto.RoleSystem) m0) as Hm0.
  { subst m0. destruct (Format && _); by repeat constructor. }
  set (roles := if negb (String.eqb Role "") then _ else _).
  assert (Forall (λ m, proto.Role m = proto.RoleSystem) roles.1) as Hroles.
  { subst roles. destruct (negb (String.eqb Role "")); [|done].
    destruct (Roles !! Role) as [roleSetup|]; [|done].
    pose proof (setupStreamContext_roles_system loadMsg roleSetup (m0, None) Hm0) as H.
    unfold setupStreamContext_roles.
    by destruct (fold_left _ roleSetup (m0, None)) as [ms [e|]]. }
  destruct roles as [m1 [e|]]; [done|]. cbn [fst] in Hroles.
  assert ((if negb (String.eqb (Prefix cfg) "")
           then strings_TrimSpace (Prefix cfg +:+ LF +:+ LF +:+ content)
           else content) = full) as ->.
  { subst full. by destruct (String.eqb (Prefix cfg) ""). }
  set (cut := if negb (NoLimit cfg) && _ then _ else _).
  assert (∀ prompt, cut = Some prompt →
            ∃ rest, full = prompt +:+ rest
                    ∧ (NoLimit cfg = true → rest = "")
                    ∧ (NoLimit cfg = false → (len prompt <= MaxChars mod_)%Z))
    as Hcut.
  { intros prompt. subst cut. destruct (NoLimit cfg); cbn [negb andb].
    - intros ?; simplify_eq. exists "". by rewrite append_nil_r.
    - destruct (Z.gtb_spec (len full) (MaxChars mod_)) as [Hgt|Hle].
      + unfold slice_to.
        destruct (Z.leb_spec 0 (MaxChars mod_)); [|done].
        destruct (Z.leb_spec (MaxChars mod_) (len full)); [|done].
        cbn [andb]. intros ?; simplify_eq.
        destruct (substring_0_split full (Z.to_nat (MaxChars mod_)))
          as [Hlen [rest Hrest]]; [unfold len in *; lia|].
        exists rest. split; [done|]. split; [done|]. intros _.
        unfold len. rewrite Hlen. lia.
      + intros ?; simplify_eq. exists "". rewrite append_nil_r. by split. }
  destruct cut as [prompt|]; [|done].
  destruct (Hcut prompt eq_refl) as (rest & Hfull & Hrest & Hlen).
  set (read := if negb NoCache && _ then _ else _).
  assert (NoCache = true ∨ cacheReadFromID = "" → read = (m1, None)) as Hread.
  { subst read. intros [-> | ->]; [done|]. by rewrite andb_false_r. }
  destruct read as [m2 [e|]]; [done|]. intros _. cbn [fst].
  exists m2, prompt, rest. split_and!; try done.
  - intros Hne. unfold lastPrompt. rewrite fold_left_app. cbn [fold_left].
    unfold lastPrompt_step at 1. cbn [proto.Role proto.Content].
    apply String.eqb_neq in Hne. by rewrite Hne.
  - intros H. specialize (Hread H). by simplify_eq.
Qed.

Lemma setupStreamContext_prompt_witness :
  let cfg := example_config 5 in
  let r := setupStreamContext line_codec (λ s, s) (λ s, s) inl cfg true
             {[ "markdown" := "Format the response as markdown." ]} "markdown"
             "shell" {[ "shell" := ["you are a shell expert"] ]} false ""
             (mkFS ∅ ∅) (cache.NewConversations "/data")
             "first 4 natural numbers" (mkModel "gpt-4o" "openai" 7 "") in
  r.2 = run_return None
  ∧ ∃ pre prompt rest,
      r.1 = (pre ++ [proto.mkMessage proto.RoleUser prompt []])%list
      ∧ "first 4 natural numbers" = prompt +:+ rest
      ∧ (len prompt <= 7)%Z
      ∧ (prompt ≠ "" → lastPrompt r.1 = prompt).
Proof.
  cbv zeta. split; [by vm_compute|].
  destruct (setupStreamContext_prompt line_codec (λ s, s) (λ s, s) inl
              (example_config 5) true
              {[ "markdown" := "Format the response as markdown." ]} "markdown"
              "shell" {[ "shell" := ["you are a shell expert"] ]} false ""
              (mkFS ∅ ∅) (cache.NewConversations "/data")
              "first 4 natural numbers" (mkModel "gpt-4o" "openai" 7 ""))
    as (pre & prompt & rest & H1 & H2 & _ & H4 & H5 & _); [by vm_compute|].
  exists pre, prompt, rest. split; [exact H1|]. split; [exact H2|].
  split; [by apply H4|exact H5].
Defined.

Lemma example_prompt_cut :
  (setupStreamContext line_codec (λ s, s) (λ s, s) inl (example_config 5) true
     {[ "markdown" := "Format the response as markdown." ]} "markdown"
     "shell" {[ "shell" := ["you are a shell expert"] ]} false ""
     (mkFS ∅ ∅) (cache.NewConversations "/data")
     "first 4 natural numbers" (mkModel "gpt-4o" "openai" 7 "")).1
  = [proto.mkMessage proto.RoleSystem "Format the response as markdown." [];
     proto.mkMessage proto.RoleSystem "you are a shell expert" [];
     proto.mkMessage proto.RoleUser "first 4" []].
Proof. by vm_compute. Qed.

(** ** The errors of the command line *)

Example newFlagParseError_tests :
  let quote := String "034" "" in
  let parse s := (flag_flag (newFlagParseError (errorString s)),
                flag_reason (newFlagParseError (errorString s))) in
  parse "unknown flag: --nope" = ("--nope", "标志 %s 不存在。")
  ∧ parse "flag needs an argument: --delete" = ("--delete", "标志 %s 需要参数。")
  ∧ parse "flag needs an argument: 'd' in -d" = ("-d", "标志 %s 需要参数。")
  ∧ parse ("invalid argument " +:+ quote +:+ "20dd" +:+ quote +:+ " for " +:+ quote
         +:+ "--delete-older-than" +:+ quote +:+ " flag: time: unknown unit "
         +:+ quote +:+ "dd" +:+ quote +:+ " in duration " +:+ quote +:+ "20dd" +:+ quote)
    = ("--delete-older-than", "标志 %s 的参数无效。")
  ∧ parse ("invalid argument " +:+ quote +:+ "nope" +:+ quote +:+ " for " +:+ quote
         +:+ "-r, --raw" +:+ quote +:+ " flag: strconv.ParseBool: parsing "
         +:+ quote +:+ "nope" +:+ quote +:+ ": invalid syntax")
    = ("-r, --raw", "标志 %s 的参数无效。")
  ∧ parse "unknown shorthand flag: 'x' in -x" = ("-x", "短标志 %s 不存在。").
Proof. by vm_compute. Qed.

Lemma prefix_append (p r : string) : String.prefix p (p +:+ r) = true.
Proof.
  induction p as [|c p IH]; [by destruct r|].
  rewrite append_String. cbn. by destruct (ascii_dec c c).
Qed.

(** X26. For the error of a long flag without its argument,
    [newFlagParseError] keeps the error and the reason format, and it names
    the flag only when the name of the flag has no dash: the flag of a name
    with a dash, as in [--max-retries], is the empty string. *)
Theorem newFlagParseError_needs_argument (err : error) (name : string) :
  error_Error err = "flag needs an argument: --" +:+ name →
  flag_reason (newFlagParseError err) = "标志 %s 需要参数。"
  ∧ flag_flag (newFlagParseError err)
    = (if contains_byte "-" name then "" else "--" +:+ name)
  ∧ flag_err (newFlagParseError err) = err.
Proof.
  intros Hs. unfold newFlagParseError, strings_HasPrefix. rewrite Hs.
  change ("flag needs an argument: --" +:+ name)
    with ("flag needs an argument:" +:+ (" --" +:+ name)) at 1.
  rewrite prefix_append. cbn [flag_reason flag_flag flag_err].
  split; [done|]. split; [|done].
  change ("flag needs an argument: --" +:+ name)
    with ("flag needs an argument: " +:+ String "-" ("" +:+ String "-" name)).
  rewrite strings_Split_app by done. rewrite strings_Split_app by done.
  destruct (contains_byte "-" name) eqn:Hname.
  - by destruct (strings_Split_contains name "-" Hname) as (p1 & p2 & parts & ->).
  - by rewrite (strings_Split_no_sep_id name "-" Hname).
Qed.

Lemma newFlagParseError_needs_argument_witness :
  error_Error (errorString "flag needs an argument: --max-retries")
  = "flag needs an argument: --" +:+ "max-retries"
  ∧ flag_reason (newFlagParseError (errorString "flag needs an argument: --max-retries"))
    = "标志 %s 需要参数。"
  ∧ flag_flag (newFlagParseError (errorString "flag needs an argument: --max-retries"))
    = "".
Proof.
  split; [reflexivity|].
  destruct (newFlagParseError_needs_argument
              (errorString "flag needs an argument: --max-retries") "max-retries")
    as (H1 & H2 & _); [reflexivity|].
  split; [exact H1|exact H2].
Defined.
